(** * The Advanced Minecraft Server Scanner (minecraft_scanner.js)

    The development follows the class [AdvancedMinecraftScanner]:
    - JavaScript data: 32-bit integer operators, strings as sequences of
      UTF-16 code units, parsed JSON values;
    - the wire format: [readVarInt] and [parseServerResponse], the latter
      over a [JSON.parse] taken as a parameter;
    - the enricher ([enhanceServerInfo], [calculateQualityScore], ...);
    - the statistics record and the scanner object;
    - the address generator (random, cluster and popular-range strategies),
      driven by a tape of [Math.random()] results;
    - the rate limiter, the statistics aggregator, start-up and maintenance;
    - the scanner as a transition system: every piece of code that runs
      between two [await]s is one atomic step, the tasks suspended at an
      [await] are part of the state, and whatever the outside world decides
      (the result of a ping, of a reverse DNS lookup, of a file write, the
      passing of time, a key press) is the label of the step.

    A second class of the repository, [MinecraftScanner] of scanmc.js, is
    followed for its response-time average.

    Numbers are integers, except the rates of the statistics, which are
    exact rationals. Status fields that JavaScript would coerce from an
    array, an object or a non-numeric value are outside the description
    ([OutOfModel]); file contents, log lines and the dashboard are not
    described. The properties come after the definitions. *)

From Stdlib Require Import ZArith QArith Qround List Bool Lia DecimalString.
From Stdlib.Strings Require Import Byte Ascii String.
From stdpp Require Import base option list gmap sets.

Local Open Scope Z_scope.
Set Warnings "-register-all".

(** ** JavaScript numbers used as 32-bit integers *)

Module JS.

(** ToInt32 and ToUint32 on an integer-valued number. *)
Definition to_int32 (z : Z) : Z := (z + 2 ^ 31) mod 2 ^ 32 - 2 ^ 31.
Definition to_uint32 (z : Z) : Z := z mod 2 ^ 32.

(** [a << n], [a >>> n], [a & b], [a | b]: the operands are taken to 32
    bits, the shift count to its low five bits. *)
Definition shl (a n : Z) : Z :=
  to_int32 (Z.shiftl (to_int32 a) (to_uint32 n mod 32)).
Definition ushr (a n : Z) : Z :=
  Z.shiftr (to_uint32 a) (to_uint32 n mod 32).
Definition band (a b : Z) : Z := to_int32 (Z.land (to_int32 a) (to_int32 b)).
Definition bor (a b : Z) : Z := to_int32 (Z.lor (to_int32 a) (to_int32 b)).

End JS.

(** ** Strings

    A JavaScript string is the sequence of its UTF-16 code units; [length]
    is the [.length] of the source. *)

Definition jsstring := list N.

(** An ASCII literal of the source. *)
Definition str (s : String.string) : jsstring :=
  map Ascii.N_of_ascii (String.list_ascii_of_string s).

(** [String(n)] for an integer [n], as [join] and template strings apply it:
    the decimal digits, after a minus sign when [n] is negative. *)
Definition decimal (n : Z) : jsstring :=
  str (NilZero.string_of_int (Z.to_int n)).

(** [s.split(sep)] for a separator of one code unit. *)
Fixpoint split_on (sep : N) (s : jsstring) : list jsstring :=
  match s with
  | [] => [[]]
  | c :: rest =>
      if (c =? sep)%N then [] :: split_on sep rest
      else
        match split_on sep rest with
        | part :: parts => (c :: part) :: parts
        | [] => [[c]]
        end
  end.

(** ** The wire format: VarInt *)

Definition byte_val (b : byte) : Z := Z.of_N (Byte.to_N b).

#[global] Instance byte_eq_decision : EqDecision byte := Byte.byte_eq_dec.

(** The [do ... while] loop of [readVarInt]. [fuel] bounds the number of
    iterations still allowed by the model; the loop itself stops through
    [bytesRead < 5], and five units of fuel are always enough
    ([readVarInt_loop_fuel]). [None] is the thrown
    'Buffer overflow while reading VarInt'. *)
Fixpoint readVarInt_loop (fuel : nat) (buffer : list byte) (offset : Z)
    (value bytesRead : Z) : option (Z * Z) :=
  match fuel with
  | O => None
  | S fuel' =>
      if Z.of_nat (length buffer) <=? offset + bytesRead then None
      else
        match (if offset + bytesRead <? 0 then None
               else buffer !! Z.to_nat (offset + bytesRead)) with
        | None =>
            (* a negative index reads [undefined], which [&] turns into 0 *)
            Some (JS.bor value 0, bytesRead + 1)
        | Some b =>
            let currentByte := byte_val b in
            let value := JS.bor value (JS.shl (JS.band currentByte 0x7F) (7 * bytesRead)) in
            let bytesRead := bytesRead + 1 in
            if negb (JS.band currentByte 0x80 =? 0) && (bytesRead <? 5)
            then readVarInt_loop fuel' buffer offset value bytesRead
            else Some (value, bytesRead)
        end
  end.

(** [readVarInt(buffer, offset)], returning [(value, bytesRead)]. *)
Definition readVarInt (buffer : list byte) (offset : Z) : option (Z * Z) :=
  readVarInt_loop 5 buffer offset 0 0.

(** ** Parsed JSON and the JavaScript operators applied to it *)

(** A value produced by [JSON.parse], or [undefined]. Numbers are the
    integer-valued ones; an object lists its properties in enumeration
    order. *)
Inductive value : Type :=
  | VUndefined
  | VNull
  | VBool (b : bool)
  | VNum (n : Z)
  | VStr (s : jsstring)
  | VArr (elems : list value)
  | VObj (fields : list (jsstring * value)).

(** What a piece of code does: it returns, it throws, or it leaves the part
    of JavaScript described here (a coercion of an array, an object or a
    non-numeric value to a number or a string). *)
Inductive outcome (A : Type) : Type :=
  | Ok (a : A)
  | Throws
  | OutOfModel.
Arguments Ok {A} a.
Arguments Throws {A}.
Arguments OutOfModel {A}.

#[global] Instance outcome_ret : MRet outcome := fun A a => Ok a.
#[global] Instance outcome_bind : MBind outcome := fun A B f x =>
  match x with
  | Ok a => f a
  | Throws => Throws
  | OutOfModel => OutOfModel
  end.

(** Truthiness, as tested by [if (v)], [v || d] and [v && w]. *)
Definition truthy (v : value) : bool :=
  match v with
  | VUndefined | VNull => false
  | VBool b => b
  | VNum n => negb (n =? 0)
  | VStr s => negb (Nat.eqb (length s) 0)
  | VArr _ | VObj _ => true
  end.

(** [v || d] *)
Definition or_else (v d : value) : value := if truthy v then v else d.

Fixpoint assoc (k : jsstring) (fields : list (jsstring * value)) : option value :=
  match fields with
  | [] => None
  | (k', v) :: rest => if decide (k = k') then Some v else assoc k rest
  end.

(** [v?.k]. None of the property names read by the scanner (version, name,
    protocol, players, online, max, sample, description, text, extra,
    favicon) is a built-in property of a string, number, boolean or array,
    so on those the result is [undefined]. *)
Definition get_opt (v : value) (k : jsstring) : value :=
  match v with
  | VObj fields => default VUndefined (assoc k fields)
  | _ => VUndefined
  end.

(** [v.k], which throws a TypeError on [null] and [undefined]. *)
Definition get (v : value) (k : jsstring) : outcome value :=
  match v with
  | VUndefined | VNull => Throws
  | _ => Ok (get_opt v k)
  end.

(** [s.includes(v)] on strings. *)
Fixpoint starts_with (s v : jsstring) : bool :=
  match v, s with
  | [], _ => true
  | _ :: _, [] => false
  | b :: v', a :: s' => (a =? b)%N && starts_with s' v'
  end.

Fixpoint includes (s v : jsstring) : bool :=
  starts_with s v ||
  match s with
  | [] => false
  | _ :: s' => includes s' v
  end.

(** [s.replace(/§[0-9a-fk-or]/g, '')]: the section sign is the code unit
    167; the class holds the digits, a to f, k to o, and r. *)
Definition is_format_code (c : N) : bool :=
  ((48 <=? c) && (c <=? 57) || (97 <=? c) && (c <=? 102) ||
   (107 <=? c) && (c <=? 111) || (c =? 114))%N.

Fixpoint strip_format_codes (s : jsstring) : jsstring :=
  match s with
  | a :: ((b :: rest) as tl) =>
      if (a =? 167)%N && is_format_code b then strip_format_codes rest
      else a :: strip_format_codes tl
  | _ => s
  end.

(** [s.trim()]: white space and line terminators of ECMAScript. *)
Definition is_white_space (c : N) : bool :=
  ((9 <=? c) && (c <=? 13) || (c =? 32) || (c =? 160) || (c =? 5760) ||
   (8192 <=? c) && (c <=? 8202) || (c =? 8232) || (c =? 8233) ||
   (c =? 8239) || (c =? 8287) || (c =? 12288) || (c =? 65279))%N.

Fixpoint trim_start (s : jsstring) : jsstring :=
  match s with
  | c :: s' => if is_white_space c then trim_start s' else s
  | [] => []
  end.

Definition trim (s : jsstring) : jsstring :=
  rev (trim_start (rev (trim_start s))).

(** ** The wire format: the status response

    [JSON.parse] is the runtime's: here it is a parameter, applied to the
    bytes whose UTF-8 decoding the source parses; [None] is its
    SyntaxError. The braces and the line terminators that the fallback looks
    for are found in the bytes as they are in the decoded string. *)

Section Response.

Variable JSON_parse : list byte -> option value.

(** [buffer.slice(start, stop)] for [0 <= start <= stop <= buffer.length]. *)
Definition slice (buffer : list byte) (start stop : Z) : list byte :=
  take (Z.to_nat (stop - start)) (drop (Z.to_nat start) buffer).

(** The characters that [.] does not match: line feed, carriage return,
    U+2028 and U+2029 (E2 80 A8 and E2 80 A9 in UTF-8). *)
Definition at_line_terminator (bs : list byte) : bool :=
  match bs with
  | x0a :: _ | x0d :: _ => true
  | xe2 :: x80 :: xa8 :: _ | xe2 :: x80 :: xa9 :: _ => true
  | _ => false
  end.

Fixpoint rest_of_line (bs : list byte) : list byte :=
  match bs with
  | [] => []
  | b :: rest => if at_line_terminator bs then [] else b :: rest_of_line rest
  end.

Definition is_closing_brace (b : byte) : bool :=
  match b with x7d => true | _ => false end.

Fixpoint drop_until_closing_brace (bs : list byte) : list byte :=
  match bs with
  | [] => []
  | b :: rest => if is_closing_brace b then bs else drop_until_closing_brace rest
  end.

(** The longest prefix that ends in a closing brace, if there is one. *)
Definition through_last_closing_brace (line : list byte) : option (list byte) :=
  match drop_until_closing_brace (rev line) with
  | [] => None
  | found => Some (rev found)
  end.

(** [responseString.match(/{.*}/)]: from the first opening brace that has a
    closing brace after it on its line, to the last closing brace of that
    line. *)
Fixpoint match_braces (bs : list byte) : option (list byte) :=
  match bs with
  | [] => None
  | b :: rest =>
      match b with
      | x7b =>
          match through_last_closing_brace (rest_of_line rest) with
          | Some m => Some (b :: m)
          | None => match_braces rest
          end
      | _ => match_braces rest
      end
  end.

(** The [try] block of [parseServerResponse]: [Ok] is what it returns
    ([VNull] for [null]); it throws when a VarInt runs off the buffer or
    the JSON does not parse. *)
Definition parse_framed (buffer : list byte) : outcome value :=
  let len := Z.of_nat (length buffer) in
  match readVarInt buffer 0 with
  | None => Throws
  | Some (packetLength, bytesRead) =>
      let offset := 0 + bytesRead in
      if (packetLength <=? 0) || (len <=? offset) then Ok VNull
      else
        match readVarInt buffer offset with
        | None => Throws
        | Some (_, packetIdBytes) =>
            let offset := offset + packetIdBytes in
            match readVarInt buffer offset with
            | None => Throws
            | Some (jsonLength, jsonLengthBytes) =>
                let offset := offset + jsonLengthBytes in
                if (jsonLength <=? 0) || (len <? offset + jsonLength) then Ok VNull
                else
                  match JSON_parse (slice buffer offset (offset + jsonLength)) with
                  | Some v => Ok v
                  | None => Throws
                  end
            end
        end
  end.

(** [parseServerResponse(buffer)]; [VNull] is [null]. *)
Definition parseServerResponse (buffer : list byte) : value :=
  if (length buffer <? 2)%nat then VNull
  else
    match parse_framed buffer with
    | Ok v => v
    | _ =>
        match match_braces buffer with
        | Some jsonMatch => default VNull (JSON_parse jsonMatch)
        | None => VNull
        end
    end.

End Response.

(** ** Addresses

    The scanner carries an address as the string [a.b.c.d]; an address that
    the scanner generates is here the four numbers, so that
    [ip.split('.').map(Number)] and [parts.join('.')] are the identity. The
    /24 key of the rate limiter, [ip.split('.').slice(0, 3).join('.')], is
    the first three of them. The seen-set also receives strings read from the
    catalog file, which need not be the string of any address: it holds
    strings, and [ip_string] is the string of an address. *)

Definition address : Type := Z * Z * Z * Z.
Definition subnet_key : Type := Z * Z * Z.

Definition subnet_of (a : address) : subnet_key :=
  let '(p0, p1, p2, _) := a in (p0, p1, p2).

(** [parts.join('.')] *)
Definition ip_string (a : address) : jsstring :=
  let '(p0, p1, p2, p3) := a in
  decimal p0 ++ str "." ++ decimal p1 ++ str "." ++ decimal p2 ++ str "."
  ++ decimal p3.

Definition octet_ok (n : Z) : bool := (0 <=? n) && (n <=? 255).

(** [isValidIP]: four groups of one to three digits, each at most 255. *)
Definition isValidIP (a : address) : bool :=
  let '(p0, p1, p2, p3) := a in
  octet_ok p0 && octet_ok p1 && octet_ok p2 && octet_ok p3.

(** [isValidIP] on any string, as [loadExistingData] applies it to the first
    field of a catalog line. The regular expression
    [/^(\d{1,3}\.){3}\d{1,3}$/] holds when splitting at the dots gives four
    groups of one to three digits; [parseInt] of such a group is its decimal
    value. *)
Definition is_digit (c : N) : bool := ((48 <=? c) && (c <=? 57))%N.

Definition digit_group (octet : jsstring) : bool :=
  (1 <=? length octet)%nat && (length octet <=? 3)%nat && forallb is_digit octet.

Definition parseInt (octet : jsstring) : Z :=
  fold_left (fun num c => 10 * num + (Z.of_N c - 48)) octet 0.

Definition isValidIP_string (ip : jsstring) : bool :=
  let octets := split_on 46 ip in
  if negb ((length octets =? 4)%nat && forallb digit_group octets) then false
  else forallb (fun octet => let num := parseInt octet in
                             (0 <=? num) && (num <=? 255)) octets.

(** [isPublicIP]: the six checks are written out in the source; the option
    [excludeRanges] is not read. *)
Definition isPublicIP (a : address) : bool :=
  if negb (isValidIP a) then false
  else
    let '(p0, p1, _, _) := a in
    negb ((p0 =? 10)
          || (p0 =? 172) && (16 <=? p1) && (p1 <=? 31)
          || (p0 =? 192) && (p1 =? 168)
          || (p0 =? 127)
          || (p0 =? 169) && (p1 =? 254)
          || (224 <=? p0)).

(** ** Configuration ([this.config])

    For [maxScans] and [maxPlayers], [None] stands for [Infinity], the
    default; a [null] that [config.json] puts there compares as 0 and is
    [Some 0]. For [versionFilter], [None] stands for [null]: no filter. *)

Record config : Type := {
  port : Z;
  timeout : Z;
  maxRetries : Z;
  batchSize : Z;
  maxConcurrent : Z;
  maxScans : option Z;
  versionFilter : option (list jsstring);
  minPlayers : Z;
  maxPlayers : option Z;
  enableGeolocation : bool;
  exportJson : bool            (* exportFormats.includes('json') *)
}.

(** ** The enricher *)

(** The object built by [enhanceServerInfo]. [timestamp] is the clock
    reading that [new Date()] formats; the fields [modded] and [raw], both
    computed from [JSON.stringify(rawInfo)] and read by nothing but the
    export files, are left out. The version is a string and the player
    counts are numbers: a status whose version name is truthy and not a
    string, or whose counts are truthy and not numbers, is [OutOfModel]. *)
Record serverInfo : Type := {
  ip : address;
  info_port : Z;
  timestamp : Z;
  responseTime : Z;
  version : jsstring;
  protocol : value;
  players_online : Z;
  players_max : Z;
  players_sample : value;
  description : jsstring;
  motd : jsstring;
  favicon : jsstring;
  location : option jsstring;
  country : jsstring;
  qualityScore : Z
}.

Definition extractVersion (rawInfo : value) : outcome value :=
  v ← get rawInfo (str "version");
  if truthy (get_opt v (str "name")) then Ok (get_opt v (str "name"))
  else Ok (VStr (str "Unknown")).

(** [part => part.text || ''], then the contribution of the part to
    [join('')]; a part whose text is truthy and not a string would be
    converted to a string. *)
Definition part_text (part : value) : outcome jsstring :=
  t ← get part (str "text");
  match or_else t (VStr []) with
  | VStr s => Ok s
  | _ => OutOfModel
  end.

Fixpoint join_parts (parts : list value) : outcome jsstring :=
  match parts with
  | [] => Ok []
  | p :: rest => s ← part_text p; r ← join_parts rest; Ok (s ++ r)
  end.

Definition extractDescription (rawInfo : value) : outcome value :=
  d ← get rawInfo (str "description");
  match d with
  | VStr _ => Ok d
  | _ =>
      if truthy (get_opt d (str "text")) then Ok (get_opt d (str "text"))
      else if truthy (get_opt d (str "extra")) then
        match get_opt d (str "extra") with
        | VArr parts => s ← join_parts parts; Ok (VStr s)
        | _ => Throws               (* extra.map is not a function *)
        end
      else Ok (VStr (str "No description"))
  end.

Definition extractMOTD (rawInfo : value) : outcome jsstring :=
  desc ← extractDescription rawInfo;
  match desc with
  | VStr s => Ok (trim (strip_format_codes s))
  | _ => Throws                     (* desc.replace is not a function *)
  end.

Definition knownVersions : list jsstring :=
  [str "1.21"; str "1.20"; str "1.19"; str "1.18"].

Definition calculateQualityScore (info : serverInfo) : Z :=
  let score := 0 in
  let score := if 0 <? players_online info then score + 20 else score in
  let score := if 10 <? players_online info then score + 20 else score in
  let score := if 50 <? players_online info then score + 20 else score in
  let score :=
    if negb (Nat.eqb (length (motd info)) 0) && (10 <? Z.of_nat (length (motd info)))
    then score + 15 else score in
  let score :=
    if existsb (fun v => includes (version info) v) knownVersions
    then score + 15 else score in
  let score := if responseTime info <? 100 then score + 10 else score in
  Z.min score 100.

(** A field read as [v || d] and then used as a number. *)
Definition as_number (v : value) : outcome Z :=
  match or_else v (VNum 0) with
  | VNum n => Ok n
  | _ => OutOfModel
  end.

(** [enhanceServerInfo] up to its [await]: the object literal. [now] is the
    clock at that moment. *)
Definition enhance_literal (cfg : config) (now : Z) (a : address)
    (rawInfo : value) (responseTime : Z) : outcome serverInfo :=
  ver ← extractVersion rawInfo;
  ver ← (match ver with VStr s => Ok s | _ => OutOfModel end);
  v ← get rawInfo (str "version");
  let proto := or_else (get_opt v (str "protocol")) (VStr (str "Unknown")) in
  p ← get rawInfo (str "players");
  online ← as_number (get_opt p (str "online"));
  max ← as_number (get_opt p (str "max"));
  let sample := or_else (get_opt p (str "sample")) (VArr []) in
  desc ← extractDescription rawInfo;
  m ← extractMOTD rawInfo;
  desc ← (match desc with VStr s => Ok s | _ => Throws end);
  fav ← get rawInfo (str "favicon");
  Ok {| ip := a; info_port := port cfg; timestamp := now;
        responseTime := responseTime;
        version := ver; protocol := proto;
        players_online := online; players_max := max; players_sample := sample;
        description := desc; motd := m;
        favicon := if truthy fav then str "Present" else str "None";
        location := None; country := str "Unknown"; qualityScore := 0 |}.

(** [extractCountry] *)
Definition extractCountry (location : jsstring) : jsstring :=
  if decide (location = str "Unknown") then str "Unknown" else location.

(** The rest of [enhanceServerInfo]: [geo] is what [getServerLocation]
    resolved to ([None] when geolocation is disabled and it is not called);
    it catches its own errors and always resolves. *)
Definition enhance_finish (geo : option jsstring) (enhanced : serverInfo)
    : serverInfo :=
  let enhanced :=
    match geo with
    | Some loc =>
        {| ip := ip enhanced; info_port := info_port enhanced;
           timestamp := timestamp enhanced; responseTime := responseTime enhanced;
           version := version enhanced; protocol := protocol enhanced;
           players_online := players_online enhanced;
           players_max := players_max enhanced;
           players_sample := players_sample enhanced;
           description := description enhanced; motd := motd enhanced;
           favicon := favicon enhanced;
           location := Some loc; country := extractCountry loc;
           qualityScore := qualityScore enhanced |}
    | None => enhanced
    end in
  {| ip := ip enhanced; info_port := info_port enhanced;
     timestamp := timestamp enhanced; responseTime := responseTime enhanced;
     version := version enhanced; protocol := protocol enhanced;
     players_online := players_online enhanced;
     players_max := players_max enhanced;
     players_sample := players_sample enhanced;
     description := description enhanced; motd := motd enhanced;
     favicon := favicon enhanced;
     location := location enhanced; country := country enhanced;
     qualityScore := calculateQualityScore enhanced |}.

(** [enhanceServerInfo(ip, rawInfo, responseTime)] as a whole; [loc] is
    what [getServerLocation] resolves to when it is called. *)
Definition enhanceServerInfo (cfg : config) (now : Z) (a : address)
    (rawInfo : value) (responseTime : Z) (loc : jsstring)
    : outcome serverInfo :=
  enhanced ← enhance_literal cfg now a rawInfo responseTime;
  Ok (enhance_finish (if enableGeolocation cfg then Some loc else None) enhanced).

(** [passesFilters] *)
Definition passesFilters (cfg : config) (info : serverInfo) : bool :=
  if (match versionFilter cfg with
      | Some allowed => negb (bool_decide (version info ∈ allowed))
      | None => false
      end)
  then false
  else if players_online info <? minPlayers cfg then false
  else if (match maxPlayers cfg with
           | Some m => m <? players_online info
           | None => false
           end)
  then false
  else true.

(** ** The statistics record ([this.stats])

    Rates are exact rationals where the source has floating-point numbers;
    [memoryUsage] is left out. *)

Record stats : Type := {
  totalScanned : Z;
  totalFound : Z;
  duplicatesSkipped : Z;
  errorsEncountered : Z;
  startTime : option Z;
  uptime : Z;
  avgScanRate : Q;
  peakScanRate : Q;
  avgResponseTime : Q;
  successRate : Q;
  serversByVersion : gmap jsstring Z;
  serversByCountry : gmap jsstring Z;
  serversByPlayerCount : gmap jsstring Z;
  popularMOTDs : gmap jsstring Z;
  activeConnections : Z;
  timeoutCount : Z;
  connectionErrors : Z;
  lastFoundServer : option serverInfo;
  bestServer : option serverInfo;
  gcCount : Z
}.

(** The scanner object: configuration, statistics, the seen-set
    ([serverCache], a Set, kept in insertion order), the blacklist, the
    rate-limiter table and the control flags. *)
Record scanner : Type := {
  cfg : config;
  st : stats;
  serverCache : list jsstring;
  ipBlacklist : gset address;
  rateLimiter : gmap subnet_key Z;
  isRunning : bool;
  isPaused : bool;
  shouldStop : bool
}.

Definition with_stats (f : stats -> stats) (s : scanner) : scanner :=
  {| cfg := cfg s; st := f (st s); serverCache := serverCache s;
     ipBlacklist := ipBlacklist s; rateLimiter := rateLimiter s;
     isRunning := isRunning s; isPaused := isPaused s;
     shouldStop := shouldStop s |}.

Definition with_serverCache (c : list jsstring) (s : scanner) : scanner :=
  {| cfg := cfg s; st := st s; serverCache := c;
     ipBlacklist := ipBlacklist s; rateLimiter := rateLimiter s;
     isRunning := isRunning s; isPaused := isPaused s;
     shouldStop := shouldStop s |}.

Definition with_ipBlacklist (b : gset address) (s : scanner) : scanner :=
  {| cfg := cfg s; st := st s; serverCache := serverCache s;
     ipBlacklist := b; rateLimiter := rateLimiter s;
     isRunning := isRunning s; isPaused := isPaused s;
     shouldStop := shouldStop s |}.

Definition with_rateLimiter (r : gmap subnet_key Z) (s : scanner) : scanner :=
  {| cfg := cfg s; st := st s; serverCache := serverCache s;
     ipBlacklist := ipBlacklist s; rateLimiter := r;
     isRunning := isRunning s; isPaused := isPaused s;
     shouldStop := shouldStop s |}.

Definition with_flags (running paused stop : bool) (s : scanner) : scanner :=
  {| cfg := cfg s; st := st s; serverCache := serverCache s;
     ipBlacklist := ipBlacklist s; rateLimiter := rateLimiter s;
     isRunning := running; isPaused := paused; shouldStop := stop |}.

(** The counters that single statements increment. *)
Record counters : Type := {
  c_totalScanned : Z;
  c_totalFound : Z;
  c_activeConnections : Z;
  c_timeoutCount : Z;
  c_connectionErrors : Z;
  c_gcCount : Z
}.

Definition add_counters (d : counters) (x : stats) : stats :=
  {| totalScanned := totalScanned x + c_totalScanned d;
     totalFound := totalFound x + c_totalFound d;
     duplicatesSkipped := duplicatesSkipped x;
     errorsEncountered := errorsEncountered x;
     startTime := startTime x; uptime := uptime x;
     avgScanRate := avgScanRate x; peakScanRate := peakScanRate x;
     avgResponseTime := avgResponseTime x; successRate := successRate x;
     serversByVersion := serversByVersion x;
     serversByCountry := serversByCountry x;
     serversByPlayerCount := serversByPlayerCount x;
     popularMOTDs := popularMOTDs x;
     activeConnections := activeConnections x + c_activeConnections d;
     timeoutCount := timeoutCount x + c_timeoutCount d;
     connectionErrors := connectionErrors x + c_connectionErrors d;
     lastFoundServer := lastFoundServer x; bestServer := bestServer x;
     gcCount := gcCount x + c_gcCount d |}.

(** [this.stats.totalScanned++] and its like. *)
Definition incr_totalScanned : scanner -> scanner :=
  with_stats (add_counters
    {| c_totalScanned := 1; c_totalFound := 0; c_activeConnections := 0;
       c_timeoutCount := 0; c_connectionErrors := 0; c_gcCount := 0 |}).
Definition incr_totalFound : scanner -> scanner :=
  with_stats (add_counters
    {| c_totalScanned := 0; c_totalFound := 1; c_activeConnections := 0;
       c_timeoutCount := 0; c_connectionErrors := 0; c_gcCount := 0 |}).
Definition incr_activeConnections : scanner -> scanner :=
  with_stats (add_counters
    {| c_totalScanned := 0; c_totalFound := 0; c_activeConnections := 1;
       c_timeoutCount := 0; c_connectionErrors := 0; c_gcCount := 0 |}).
Definition decr_activeConnections : scanner -> scanner :=
  with_stats (add_counters
    {| c_totalScanned := 0; c_totalFound := 0; c_activeConnections := -1;
       c_timeoutCount := 0; c_connectionErrors := 0; c_gcCount := 0 |}).
Definition incr_timeoutCount : scanner -> scanner :=
  with_stats (add_counters
    {| c_totalScanned := 0; c_totalFound := 0; c_activeConnections := 0;
       c_timeoutCount := 1; c_connectionErrors := 0; c_gcCount := 0 |}).
Definition incr_connectionErrors : scanner -> scanner :=
  with_stats (add_counters
    {| c_totalScanned := 0; c_totalFound := 0; c_activeConnections := 0;
       c_timeoutCount := 0; c_connectionErrors := 1; c_gcCount := 0 |}).
Definition incr_gcCount : scanner -> scanner :=
  with_stats (add_counters
    {| c_totalScanned := 0; c_totalFound := 0; c_activeConnections := 0;
       c_timeoutCount := 0; c_connectionErrors := 0; c_gcCount := 1 |}).

(** The constructor's [this.stats] and data structures. *)
Definition initial_stats : stats :=
  {| totalScanned := 0; totalFound := 0; duplicatesSkipped := 0;
     errorsEncountered := 0; startTime := None; uptime := 0;
     avgScanRate := 0%Q; peakScanRate := 0%Q; avgResponseTime := 0%Q;
     successRate := 0%Q;
     serversByVersion := ∅; serversByCountry := ∅;
     serversByPlayerCount := ∅; popularMOTDs := ∅;
     activeConnections := 0; timeoutCount := 0; connectionErrors := 0;
     lastFoundServer := None; bestServer := None; gcCount := 0 |}.

Definition constructor (c : config) : scanner :=
  {| cfg := c; st := initial_stats; serverCache := [];
     ipBlacklist := ∅; rateLimiter := ∅;
     isRunning := false; isPaused := false; shouldStop := false |}.

(** [Set.prototype.add] on the insertion-ordered seen-set. *)
Definition cache_add (ip : jsstring) (c : list jsstring) : list jsstring :=
  if bool_decide (ip ∈ c) then c else c ++ [ip].

(** ** The address generator

    The results of successive calls of [Math.random()], each in [0, 1),
    are read from a tape; a generator returns the address and the rest of
    the tape, or [None] when the tape ends while it still asks for numbers. *)

Definition tape : Type := list Q.

(** [Math.floor(Math.random() * n)] *)
Definition random_below (r : Q) (n : Z) : Z := Qfloor (r * inject_Z n).

(** The test of the [do ... while] loop of [generateRandomPublicIP]. *)
Definition rejected (s : scanner) (a : address) : bool :=
  negb (isPublicIP a) || bool_decide (a ∈ ipBlacklist s)
  || bool_decide (ip_string a ∈ serverCache s).

Fixpoint generateRandomPublicIP (s : scanner) (rnd : tape)
    : option (address * tape) :=
  match rnd with
  | r0 :: r1 :: r2 :: r3 :: rest =>
      let a := (random_below r0 256, random_below r1 256,
                random_below r2 256, random_below r3 256) in
      if rejected s a then generateRandomPublicIP s rest
      else Some (a, rest)
  | _ => None
  end.

Definition generateClusterBasedIP (s : scanner) (rnd : tape)
    : option (address * tape) :=
  match lastFoundServer (st s) with
  | Some found =>
      match rnd with
      | r :: rest =>
          let '(p0, p1, p2, _) := ip found in
          Some ((p0, p1, p2, random_below r 256), rest)
      | [] => None
      end
  | None => generateRandomPublicIP s rnd
  end.

(** [ipToNumber] and [numberToIP] *)
Definition ipToNumber (a : address) : Z :=
  let '(p0, p1, p2, p3) := a in
  JS.to_uint32
    (fold_left (fun acc octet => JS.shl acc 8 + octet) [p0; p1; p2; p3] 0).

Definition numberToIP (num : Z) : address :=
  (JS.band (JS.ushr num 24) 0xFF, JS.band (JS.ushr num 16) 0xFF,
   JS.band (JS.ushr num 8) 0xFF, JS.band num 0xFF).

(** [generateIPFromRange(cidr)], the CIDR given as base address and prefix
    length. *)
Definition generateIPFromRange (cidr : address * Z) (rnd : tape)
    : option (address * tape) :=
  match rnd with
  | r :: rest =>
      let '(baseIP, prefixLength) := cidr in
      let base := ipToNumber baseIP in
      let mask := JS.ushr (JS.shl 0xFFFFFFFF (32 - prefixLength)) 0 in
      let hostBits := 32 - prefixLength in
      let randomHost := random_below r (2 ^ hostBits) in
      Some (numberToIP (JS.bor (JS.band base mask) randomHost), rest)
  | [] => None
  end.

Definition popularRanges : list (address * Z) :=
  [ ((8, 8, 8, 0), 24);        (* Google *)
    ((1, 1, 1, 0), 24);        (* Cloudflare *)
    ((4, 4, 4, 0), 24);        (* Level3 *)
    ((208, 67, 222, 0), 24) ]. (* OpenDNS *)

Definition generatePopularRangeIP (rnd : tape) : option (address * tape) :=
  match rnd with
  | r :: rest =>
      match popularRanges !! Z.to_nat (random_below r (Z.of_nat (length popularRanges))) with
      | Some range => generateIPFromRange range rest
      | None => None
      end
  | [] => None
  end.

(** [generateSmartIP]: one of the three strategies, chosen at random. *)
Definition generateSmartIP (s : scanner) (rnd : tape) : option (address * tape) :=
  match rnd with
  | r :: rest =>
      match random_below r 3 with
      | 0 => generateRandomPublicIP s rest
      | 1 => generateClusterBasedIP s rest
      | 2 => generatePopularRangeIP rest
      | _ => None
      end
  | [] => None
  end.

(** ** The rate limiter *)

(** [isRateLimited(ip)] at clock reading [now]: [limit && (now - limit) < 1000]. *)
Definition isRateLimited (s : scanner) (now : Z) (a : address) : bool :=
  match rateLimiter s !! subnet_of a with
  | Some limit => negb (limit =? 0) && (now - limit <? 1000)
  | None => false
  end.

Definition updateRateLimit (now : Z) (a : address) (s : scanner) : scanner :=
  with_rateLimiter (<[subnet_of a := now]> (rateLimiter s)) s.

(** [cleanupRateLimiter]: entries older than five minutes are deleted. *)
Definition cleanupRateLimiter (now : Z) (s : scanner) : scanner :=
  with_rateLimiter
    (filter (fun kv => negb (300000 <? now - kv.2) = true) (rateLimiter s)) s.

(** ** The statistics aggregator *)

Definition getPlayerCountRange (playerCount : Z) : jsstring :=
  if playerCount =? 0 then str "0 players"
  else if playerCount <=? 5 then str "1-5 players"
  else if playerCount <=? 20 then str "6-20 players"
  else if playerCount <=? 50 then str "21-50 players"
  else if playerCount <=? 100 then str "51-100 players"
  else str "100+ players".

(** [map.set(key, (map.get(key) || 0) + 1)] *)
Definition tally (key : jsstring) (m : gmap jsstring Z) : gmap jsstring Z :=
  <[key := default 0 (m !! key) + 1]> m.

(** The MOTD tally of [updateServerStats]. *)
Definition tally_motd (m : jsstring) (tallies : gmap jsstring Z) : gmap jsstring Z :=
  if negb (Nat.eqb (length m) 0) && (5 <? Z.of_nat (length m)) then
    let motdCount := default 0 (tallies !! m) in
    if motdCount <? 10 then <[m := motdCount + 1]> tallies else tallies
  else tallies.

Definition updateServerStats (info : serverInfo) (x : stats) : stats :=
  {| totalScanned := totalScanned x; totalFound := totalFound x;
     duplicatesSkipped := duplicatesSkipped x;
     errorsEncountered := errorsEncountered x;
     startTime := startTime x; uptime := uptime x;
     avgScanRate := avgScanRate x; peakScanRate := peakScanRate x;
     avgResponseTime := avgResponseTime x; successRate := successRate x;
     serversByVersion := tally (version info) (serversByVersion x);
     serversByCountry := tally (country info) (serversByCountry x);
     serversByPlayerCount :=
       tally (getPlayerCountRange (players_online info)) (serversByPlayerCount x);
     popularMOTDs := tally_motd (motd info) (popularMOTDs x);
     activeConnections := activeConnections x;
     timeoutCount := timeoutCount x; connectionErrors := connectionErrors x;
     lastFoundServer := Some info;
     bestServer :=
       match bestServer x with
       | None => Some info
       | Some best =>
           if qualityScore best <? qualityScore info then Some info else Some best
       end;
     gcCount := gcCount x |}.

(** [updateStatistics], run by the statistics interval. *)
Definition updateStatistics (now : Z) (x : stats) : stats :=
  let uptime := now - default 0 (startTime x) in
  let uptimeSeconds :=
    let u := (inject_Z uptime / 1000)%Q in
    if Qle_bool 1 u then u else 1%Q in
  let avgScanRate := (inject_Z (totalScanned x) / uptimeSeconds)%Q in
  let successRate :=
    if 0 <? totalScanned x
    then (inject_Z (totalFound x) / inject_Z (totalScanned x) * 100)%Q
    else 0%Q in
  let currentRate := avgScanRate in
  {| totalScanned := totalScanned x; totalFound := totalFound x;
     duplicatesSkipped := duplicatesSkipped x;
     errorsEncountered := errorsEncountered x;
     startTime := startTime x; uptime := uptime;
     avgScanRate := avgScanRate;
     peakScanRate :=
       if negb (Qle_bool currentRate (peakScanRate x)) then currentRate
       else peakScanRate x;
     avgResponseTime := avgResponseTime x; successRate := successRate;
     serversByVersion := serversByVersion x;
     serversByCountry := serversByCountry x;
     serversByPlayerCount := serversByPlayerCount x;
     popularMOTDs := popularMOTDs x;
     activeConnections := activeConnections x;
     timeoutCount := timeoutCount x; connectionErrors := connectionErrors x;
     lastFoundServer := lastFoundServer x; bestServer := bestServer x;
     gcCount := gcCount x |}.

(** [resetStats], at clock reading [now]. *)
Definition resetStats (now : Z) (x : stats) : stats :=
  let preserve_totalFound := totalFound x in
  let preserve_serversByVersion := serversByVersion x in
  let preserve_serversByCountry := serversByCountry x in
  {| totalScanned := 0;
     totalFound := preserve_totalFound;
     duplicatesSkipped := 0;
     errorsEncountered := 0;
     startTime := Some now;
     uptime := 0;
     avgScanRate := 0%Q;
     peakScanRate := 0%Q;
     avgResponseTime := 0%Q;
     successRate := 0%Q;
     serversByVersion := preserve_serversByVersion;
     serversByCountry := preserve_serversByCountry;
     serversByPlayerCount := ∅;
     popularMOTDs := ∅;
     activeConnections := 0;
     timeoutCount := 0;
     connectionErrors := 0;
     lastFoundServer := None;
     bestServer := None;
     gcCount := 0 |}.

(** ** The response-time average of scanmc.js

    The class [MinecraftScanner] of scanmc.js keeps
    [stats.averageResponseTime]: [checkServer] calls
    [updateAverageResponseTime(responseTime)] when the connection of a probe
    ends. The numbers are exact rationals here. *)

Module Scanmc.

Definition updateAverageResponseTime (newTime : Z) (averageResponseTime : Q) : Q :=
  let alpha := (1 # 10)%Q in
  ((1 - alpha) * averageResponseTime + alpha * inject_Z newTime)%Q.

End Scanmc.

(** ** Start-up *)

(** What [loadExistingData] finds in [session-stats.json], when the file
    is there and parses. *)
Record savedStats : Type := {
  saved_totalFound : Z;
  saved_serversByVersion : gmap jsstring Z;
  saved_serversByCountry : gmap jsstring Z
}.

(** What it finds on disk: [None] when the catalog cannot be read (then
    nothing is loaded); otherwise the text of the catalog and the saved
    statistics, if any. *)
Definition disk : Type := option (jsstring * option savedStats).

(** [serversData.split('\n').filter(line => line.trim())] *)
Definition catalog_lines (serversData : jsstring) : list jsstring :=
  filter (fun line => negb (Nat.eqb (length (trim line)) 0) = true)
         (split_on 10 serversData).

(** [const [ip] = line.split('|')] *)
Definition first_field (line : jsstring) : jsstring :=
  hd [] (split_on 124 line).

Definition loadExistingData (d : disk) (s : scanner) : scanner :=
  match d with
  | None => s
  | Some (serversData, saved) =>
      let s :=
        with_serverCache
          (fold_left
             (fun c line =>
                let ip := first_field line in
                if negb (Nat.eqb (length ip) 0) && isValidIP_string ip
                then cache_add ip c else c)
             (catalog_lines serversData) (serverCache s)) s in
      match saved with
      | None => s
      | Some sv =>
          with_stats (fun x =>
            {| totalScanned := totalScanned x;
               totalFound := saved_totalFound sv;
               duplicatesSkipped := duplicatesSkipped x;
               errorsEncountered := errorsEncountered x;
               startTime := startTime x; uptime := uptime x;
               avgScanRate := avgScanRate x; peakScanRate := peakScanRate x;
               avgResponseTime := avgResponseTime x;
               successRate := successRate x;
               serversByVersion := saved_serversByVersion sv;
               serversByCountry := saved_serversByCountry sv;
               serversByPlayerCount := serversByPlayerCount x;
               popularMOTDs := popularMOTDs x;
               activeConnections := activeConnections x;
               timeoutCount := timeoutCount x;
               connectionErrors := connectionErrors x;
               lastFoundServer := lastFoundServer x;
               bestServer := bestServer x;
               gcCount := gcCount x |}) s
      end
  end.

Definition set_startTime (now : Z) (x : stats) : stats :=
  {| totalScanned := totalScanned x; totalFound := totalFound x;
     duplicatesSkipped := duplicatesSkipped x;
     errorsEncountered := errorsEncountered x;
     startTime := Some now; uptime := uptime x;
     avgScanRate := avgScanRate x; peakScanRate := peakScanRate x;
     avgResponseTime := avgResponseTime x; successRate := successRate x;
     serversByVersion := serversByVersion x;
     serversByCountry := serversByCountry x;
     serversByPlayerCount := serversByPlayerCount x;
     popularMOTDs := popularMOTDs x;
     activeConnections := activeConnections x;
     timeoutCount := timeoutCount x; connectionErrors := connectionErrors x;
     lastFoundServer := lastFoundServer x; bestServer := bestServer x;
     gcCount := gcCount x |}.

(** [initialize]: load what is on disk, then
    [this.stats.startTime = Date.now(); this.isRunning = true]. The
    configuration is the one that [loadConfiguration] has merged. *)
Definition initialize (now : Z) (d : disk) (s : scanner) : scanner :=
  let s := loadExistingData d s in
  let s := with_stats (set_startTime now) s in
  with_flags true (isPaused s) (shouldStop s) s.

(** ** Maintenance *)

(** [performMaintenance] up to its [await]: [gc] tells whether [global.gc]
    exists. The seen-set keeps its last 500000 entries once it holds more
    than 1000000. *)
Definition performMaintenance (now : Z) (gc : bool) (s : scanner) : scanner :=
  let s := if gc then incr_gcCount s else s in
  let s := cleanupRateLimiter now s in
  let size := Z.of_nat (length (serverCache s)) in
  if 1000000 <? size
  then with_serverCache (drop (Z.to_nat (size - 500000)) (serverCache s)) s
  else s.

(** ** The scanner as a transition system

    A task is one call of [scanSingleServer] suspended at an [await]. The
    recursive call of [checkMinecraftServer] in the [catch] block is a
    [return] of the inner promise: the [finally] block of the outer call runs
    as soon as the inner call has reached its first [await], so a task never
    holds more than one frame. *)

Inductive task : Type :=
  | AwaitRateDelay (a : address) (wake : Z)
      (* [await this.delay(100)] of a rate-limited address *)
  | AwaitPing (a : address) (retryCount startTime : Z) (timer : bool)
      (* [await this.performServerPing(ip)]; [timer] tells whether the
         timeout that counts [timeoutCount] is still armed *)
  | AwaitLocation (a : address) (retryCount : Z) (enhanced : serverInfo)
      (* [await this.getServerLocation(ip)] inside [enhanceServerInfo] *)
  | AwaitBackoff (a : address) (retryCount wake : Z)
      (* [await this.delay(500 * (retryCount + 1))] in the [catch] block *)
  | AwaitAppend (info : serverInfo)       (* [await fs.appendFile(...)] *)
  | AwaitLoadJSON (info : serverInfo)     (* [await this.loadJSONFile(...)] *)
  | AwaitWriteJSON (info : serverInfo)    (* [await fs.writeFile(...)] *)
  | AwaitSaved (info : serverInfo).       (* [await this.saveServer(...)] *)

Record world : Type := {
  this : scanner;
  clock : Z;                 (* [Date.now()] *)
  tasks : list task
}.

(** [checkMinecraftServer(ip, retryCount)] up to its first [await]. The
    task is [None] when the call has already returned [null]. *)
Definition check_start (now : Z) (a : address) (retryCount : Z) (s : scanner)
    : scanner * option task :=
  if maxRetries (cfg s) <=? retryCount then
    (with_ipBlacklist ({[a]} ∪ ipBlacklist s) s, None)
  else if isRateLimited s now a then
    (s, Some (AwaitRateDelay a (now + 100)))
  else
    (incr_activeConnections s, Some (AwaitPing a retryCount now true)).

(** Its [finally] block. *)
Definition check_finally (now : Z) (a : address) (s : scanner) : scanner :=
  updateRateLimit now a (decr_activeConnections s).

(** Its [catch] block, up to the [await] of the back-off delay. *)
Definition check_catch (now : Z) (a : address) (retryCount : Z) (s : scanner)
    : scanner * option task :=
  let s := incr_connectionErrors s in
  if retryCount <? maxRetries (cfg s) then
    (s, Some (AwaitBackoff a retryCount (now + 500 * (retryCount + 1))))
  else (check_finally now a s, None).

(** [scanSingleServer(ip)] up to its first [await]. *)
Definition scan_start (now : Z) (a : address) (s : scanner)
    : scanner * option task :=
  check_start now a 0 (incr_totalScanned s).

(** [checkMinecraftServer] returns [result] from inside its [try] block:
    the [finally] block runs, then [scanSingleServer] goes on to
    [saveServer] when the result is a server. *)
Definition check_return (now : Z) (a : address) (result : option serverInfo)
    (s : scanner) : scanner * option task :=
  (check_finally now a s, AwaitAppend <$> result).

(** The end of the [try] block, once [enhanceServerInfo] has resolved. *)
Definition check_enhanced (now : Z) (a : address) (enhancedInfo : serverInfo)
    (s : scanner) : scanner * option task :=
  check_return now a
    (if passesFilters (cfg s) enhancedInfo then Some enhancedInfo else None) s.

(** The tail of [saveServer] after the files are written. *)
Definition save_commit (info : serverInfo) (s : scanner) : scanner :=
  with_stats (updateServerStats info)
    (with_serverCache (cache_add (ip_string (ip info)) (serverCache s)) s).

(** The [for] loop of [performScanBatch]; [n] iterations are left. *)
Fixpoint performScanBatch_loop (n : nat) (now : Z) (rnd : tape) (s : scanner)
    (spawned : list task) : option (scanner * list task) :=
  match n with
  | O => Some (s, spawned)
  | S n' =>
      if activeConnections (st s) <? maxConcurrent (cfg s) then
        match generateSmartIP s rnd with
        | None => None
        | Some (a, rnd') =>
            if bool_decide (ip_string a ∈ serverCache s)
            then performScanBatch_loop n' now rnd' s spawned
            else
              let '(s', t) := scan_start now a s in
              performScanBatch_loop n' now rnd' s' (spawned ++ option_list t)
        end
      else Some (s, spawned)
  end.

Definition performScanBatch (now : Z) (rnd : tape) (s : scanner)
    : option (scanner * list task) :=
  performScanBatch_loop (Z.to_nat (batchSize (cfg s))) now rnd s [].

(** The test of the [while] loop of [startScanning] and of its pause. *)
Definition may_scan (s : scanner) : bool :=
  isRunning s && negb (shouldStop s)
  && (match maxScans (cfg s) with
      | Some m => totalScanned (st s) <? m
      | None => true
      end)
  && negb (isPaused s).

(** What happens next: the dispatcher, a task resuming with what the
    outside world gave it, an interval or a key press. *)
Inductive event : Type :=
  | Tick (dt : Z)                             (* time passes *)
  | Batch (rnd : tape)                        (* [performScanBatch] *)
  | RateDelayDone (i : nat)
  | TimerFires (i : nat)
  | PingDone (i : nat) (result : option value)
      (* [Some v]: the ping resolved to [v], [null] for every connection
         error, time-out and unparsable answer; [None]: it rejected *)
  | LocationDone (i : nat) (loc : jsstring)    (* the reverse DNS answer *)
  | BackoffDone (i : nat)
  | AppendDone (i : nat) (ok : bool)          (* [fs.appendFile] succeeded? *)
  | LoadJSONDone (i : nat) (ok : bool)
      (* the JSON catalog is loaded; [ok]: it has a [servers] array *)
  | WriteJSONDone (i : nat) (ok : bool)       (* [fs.writeFile] succeeded? *)
  | SaveDone (i : nat)                        (* [saveServer] has returned *)
  | UpdateStatistics                          (* the statistics interval *)
  | CleanupRateLimiter                        (* the rate-limiter interval *)
  | Maintenance (gc : bool)                   (* [performMaintenance] *)
  | ResetStats                                (* key R *)
  | Pause                                     (* key P *)
  | Resume
  | Stop.                                     (* key Q, Ctrl-C, signals *)

(** A task goes on as [t], or is over. *)
Definition settle (i : nat) (t : option task) (ts : list task) : list task :=
  match t with
  | Some t' => <[i := t']> ts
  | None => delete i ts
  end.

Definition continue (w : world) (i : nat) (r : scanner * option task) : option world :=
  Some {| this := r.1; clock := clock w; tasks := settle i r.2 (tasks w) |}.

Definition update_this (w : world) (s : scanner) : option world :=
  Some {| this := s; clock := clock w; tasks := tasks w |}.

Definition step (e : event) (w : world) : option world :=
  let s := this w in
  let now := clock w in
  match e with
  | Tick dt =>
      if 0 <=? dt
      then Some {| this := s; clock := now + dt; tasks := tasks w |}
      else None
  | Batch rnd =>
      if may_scan s && bool_decide (tasks w = []) then
        match performScanBatch now rnd s with
        | Some (s', spawned) =>
            Some {| this := s'; clock := now; tasks := spawned |}
        | None => None
        end
      else None
  | RateDelayDone i =>
      match tasks w !! i with
      | Some (AwaitRateDelay a wake) =>
          if wake <=? now then continue w i (s, None) else None
      | _ => None
      end
  | TimerFires i =>
      match tasks w !! i with
      | Some (AwaitPing a retryCount startTime true) =>
          if startTime + timeout (cfg s) <=? now
          then continue w i (incr_timeoutCount s,
                             Some (AwaitPing a retryCount startTime false))
          else None
      | _ => None
      end
  | PingDone i result =>
      match tasks w !! i with
      | Some (AwaitPing a retryCount startTime _) =>
          let responseTime := now - startTime in
          match result with
          | None => continue w i (check_catch now a retryCount s)
          | Some serverInfo =>
              if truthy serverInfo then
                match enhance_literal (cfg s) now a serverInfo responseTime with
                | Ok enhanced =>
                    if enableGeolocation (cfg s)
                    then continue w i (s, Some (AwaitLocation a retryCount enhanced))
                    else continue w i
                           (check_enhanced now a (enhance_finish None enhanced) s)
                | Throws => continue w i (check_catch now a retryCount s)
                | OutOfModel => None
                end
              else continue w i (check_return now a None s)
          end
      | _ => None
      end
  | LocationDone i loc =>
      match tasks w !! i with
      | Some (AwaitLocation a retryCount enhanced) =>
          continue w i (check_enhanced now a (enhance_finish (Some loc) enhanced) s)
      | _ => None
      end
  | BackoffDone i =>
      match tasks w !! i with
      | Some (AwaitBackoff a retryCount wake) =>
          if wake <=? now then
            let '(s', t) := check_start now a (retryCount + 1) s in
            continue w i (check_finally now a s', t)
          else None
      | _ => None
      end
  | AppendDone i ok =>
      match tasks w !! i with
      | Some (AwaitAppend info) =>
          if ok then
            if exportJson (cfg s) then continue w i (s, Some (AwaitLoadJSON info))
            else continue w i (save_commit info s, Some (AwaitSaved info))
          else continue w i (s, Some (AwaitSaved info))
      | _ => None
      end
  | LoadJSONDone i ok =>
      match tasks w !! i with
      | Some (AwaitLoadJSON info) =>
          if ok then continue w i (s, Some (AwaitWriteJSON info))
          else continue w i (s, Some (AwaitSaved info))
      | _ => None
      end
  | WriteJSONDone i ok =>
      match tasks w !! i with
      | Some (AwaitWriteJSON info) =>
          if ok then continue w i (save_commit info s, Some (AwaitSaved info))
          else continue w i (s, Some (AwaitSaved info))
      | _ => None
      end
  | SaveDone i =>
      match tasks w !! i with
      | Some (AwaitSaved info) => continue w i (incr_totalFound s, None)
      | _ => None
      end
  | UpdateStatistics => update_this w (with_stats (updateStatistics now) s)
  | CleanupRateLimiter => update_this w (cleanupRateLimiter now s)
  | Maintenance gc => update_this w (performMaintenance now gc s)
  | ResetStats => update_this w (with_stats (resetStats now) s)
  | Pause => update_this w (with_flags (isRunning s) true (shouldStop s) s)
  | Resume => update_this w (with_flags (isRunning s) false (shouldStop s) s)
  | Stop => update_this w (with_flags false (isPaused s) true s)
  end.

(** A run: the events in order; [None] when one of them cannot happen. *)
Fixpoint run (evs : list event) (w : world) : option world :=
  match evs with
  | [] => Some w
  | e :: rest =>
      match step e w with
      | Some w' => run rest w'
      | None => None
      end
  end.

(** The scanner after [new AdvancedMinecraftScanner(...)] and
    [initialize()], started at clock reading [t0]. *)
Definition boot (c : config) (d : disk) (t0 : Z) : world :=
  {| this := initialize t0 d (constructor c); clock := t0; tasks := [] |}.

(** ** Vocabulary of the properties: VarInt *)

(** The continuation bit of a byte, and its seven payload bits. *)
Definition has_continuation (b : byte) : bool := Z.testbit (byte_val b) 7.
Definition payload (b : byte) : Z := byte_val b mod 128.

(** The byte at [offset + i], if the buffer has one. *)
Definition byte_at (buffer : list byte) (offset : Z) (i : nat) : option byte :=
  buffer !! Z.to_nat (offset + Z.of_nat i).

(** The payloads of the first [n] bytes from [offset], the first byte
    lowest. *)
Fixpoint varint_sum (buffer : list byte) (offset : Z) (n : nat) : Z :=
  match n with
  | O => 0
  | S k =>
      varint_sum buffer offset k
      + from_option payload 0 (byte_at buffer offset k) * 2 ^ (7 * Z.of_nat k)
  end.

(** ** Vocabulary of the properties: concrete inputs *)

(** The configuration that [main()] passes to the constructor. *)
Definition main_config : config :=
  {| port := 25565; timeout := 2500; maxRetries := 2;
     batchSize := 2000; maxConcurrent := 3000; maxScans := None;
     versionFilter := None; minPlayers := 0; maxPlayers := None;
     enableGeolocation := true; exportJson := true |}.

(** The same with batches of [n] addresses, as a [config.json] can ask. *)
Definition config_with_batchSize (n : Z) : config :=
  {| port := 25565; timeout := 2500; maxRetries := 2;
     batchSize := n; maxConcurrent := 3000; maxScans := None;
     versionFilter := None; minPlayers := 0; maxPlayers := None;
     enableGeolocation := true; exportJson := true |}.

(** The status
    [{"version":{"name":"1.20.4","protocol":765},
      "players":{"online":25,"max":100},
      "description":{"text":"Welcome"}}], parsed. *)
Definition welcome_status : value :=
  VObj [ (str "version",
          VObj [(str "name", VStr (str "1.20.4")); (str "protocol", VNum 765)]);
         (str "players",
          VObj [(str "online", VNum 25); (str "max", VNum 100)]);
         (str "description", VObj [(str "text", VStr (str "Welcome"))]) ].

(** The same status as the server sends it: the JSON text, and the text in
    its frame (packet length, packet id 0, JSON length, all below 128). *)
Definition quoted (s : string) : string :=
  String "034"%char (s ++ String "034"%char EmptyString)%string.

Definition welcome_json : list byte :=
  list_byte_of_string
    ("{" ++ quoted "version" ++ ":{" ++ quoted "name" ++ ":" ++ quoted "1.20.4"
     ++ "," ++ quoted "protocol" ++ ":765},"
     ++ quoted "players" ++ ":{" ++ quoted "online" ++ ":25,"
     ++ quoted "max" ++ ":100},"
     ++ quoted "description" ++ ":{" ++ quoted "text" ++ ":" ++ quoted "Welcome"
     ++ "}}")%string.

Definition single_byte (n : nat) : byte :=
  default x00 (Byte.of_N (N.of_nat n)).

Definition framed (json : list byte) : list byte :=
  single_byte (length json + 2) :: x00 :: single_byte (length json) :: json.

(** The bonuses of the quality score, as the specification lists them. *)
Definition bonus (b : bool) (points : Z) : Z := if b then points else 0.

Definition quality_rule (info : serverInfo) : Z :=
  Z.min 100
    (bonus (0 <? players_online info) 20
     + bonus (10 <? players_online info) 20
     + bonus (50 <? players_online info) 20
     + bonus (10 <? Z.of_nat (length (motd info))) 15
     + bonus (existsb (includes (version info)) knownVersions) 15
     + bonus (responseTime info <? 100) 10).

(** A status whose description text is a number: [extractMOTD] throws on
    it ([desc.replace] is not a function). *)
Definition throwing_status : value :=
  VObj [ (str "description", VObj [(str "text", VNum 5)]) ].

(** A clock reading at start-up. *)
Definition t0 : Z := 1700000000000.

(** Tapes that make [generateSmartIP] take the popular-range strategy and
    return 1.1.1.1 or 8.8.8.8, the cluster strategy with last octet 8, and
    the random strategy with the four given octets. *)
Definition tape_popular_1_1_1_1 : tape := [3 # 4; 1 # 4; 1 # 256]%Q.
Definition tape_popular_8_8_8_8 : tape := [3 # 4; 0; 8 # 256]%Q.
Definition tape_cluster_8 : tape := [1 # 2; 8 # 256]%Q.
Definition tape_random (a : address) : tape :=
  let '(p0, p1, p2, p3) := a in
  [0; p0 # 256; p1 # 256; p2 # 256; p3 # 256]%Q.

(** A session in which 1.1.1.1 answers twice with [throwing_status]: two
    attempts, two back-off delays, then the blacklist. *)
Definition blacklisting_run : list event :=
  [ Batch tape_popular_1_1_1_1;
    Tick 40; PingDone 0 (Some throwing_status);
    Tick 500; BackoffDone 0;
    Tick 40; PingDone 0 (Some throwing_status);
    Tick 1000; BackoffDone 0 ].

(** A session in which 8.8.8.8 answers with [welcome_status] and is saved. *)
Definition discovery_run : list event :=
  [ Batch tape_popular_8_8_8_8;
    Tick 120; PingDone 0 (Some welcome_status);
    Tick 30; LocationDone 0 (str "Unknown");
    AppendDone 0 true; LoadJSONDone 0 true; WriteJSONDone 0 true;
    SaveDone 0 ].

(** ** Vocabulary of the properties: sampling attempts *)

(** One attempt of the rejection loop reads four numbers from the tape. *)
Definition attempt : Type := Q * Q * Q * Q.

Definition attempt_address (t : attempt) : address :=
  let '(r0, r1, r2, r3) := t in
  (random_below r0 256, random_below r1 256,
   random_below r2 256, random_below r3 256).

Definition attempts_tape (l : list attempt) : tape :=
  flat_map (fun t : attempt => let '(r0, r1, r2, r3) := t in [r0; r1; r2; r3]) l.

(** Forty attempts that all fall in 10.0.0.0/8, then 8.8.8.8. *)
Definition tape_forty_private : tape :=
  attempts_tape (repeat ((10 # 256, 0, 0, 0)%Q : attempt) 40
                 ++ [(8 # 256, 8 # 256, 8 # 256, 8 # 256)%Q]).

(** ** Vocabulary of the properties: admission, the moving average, the invariants *)

(** Admit(address): what the head of [checkMinecraftServer] decides for a
    candidate that the dispatcher hands to [scanSingleServer]. *)
Inductive admission : Type :=
  | Allow        (* the probe starts *)
  | Defer        (* rate limited: wait 100 ms and give the candidate up *)
  | GiveUp.      (* the retry budget is spent before the first attempt *)

Definition admission_of (now : Z) (a : address) (s : scanner) : admission :=
  match (check_start now a 0 s).2 with
  | Some (AwaitPing _ _ _ _) => Allow
  | Some _ => Defer
  | None => GiveUp
  end.

(** The state after the admission decision. *)
Definition after_admission (now : Z) (a : address) (s : scanner) : scanner :=
  (check_start now a 0 s).1.

(** The time stamps of the table are clock readings, hence positive. *)
Definition timestamps_positive (s : scanner) : Prop :=
  forall k ts, rateLimiter s !! k = Some ts -> 0 < ts.

(** The moving average as the specification words it:
    avg <- 0.9 * avg + 0.1 * sample. *)
Definition spec_moving_average (avg : Q) (sample : Z) : Q :=
  ((9 # 10) * avg + (1 # 10) * inject_Z sample)%Q.

(** The bound on [popularMOTDs]: keys longer than five characters, counts
    between 1 and 10. *)
Definition motd_tallies_ok (m : gmap jsstring Z) : Prop :=
  forall k c, m !! k = Some c -> 5 < Z.of_nat (length k) /\ 1 <= c <= 10.

(** What [loadExistingData] takes as [totalFound] from the disk. *)
Definition loaded_totalFound (d : disk) : Z :=
  match d with
  | Some (_, Some sv) => saved_totalFound sv
  | _ => 0
  end.

Definition is_ResetStats (e : event) : bool :=
  match e with ResetStats => true | _ => false end.

(** A connection refused, a reset, a time-out and an unparsable answer all
    end [performServerPing] with [resolve(null)]. *)
Definition failed_probe : option value := Some VNull.

(** A session in which 203.0.113.9 never answers: the time-out passes and
    the ping resolves to [null]. *)
Definition timeout_run : list event :=
  [ Batch (tape_random (203, 0, 113, 9));
    Tick 2500; TimerFires 0; PingDone 0 failed_probe ].

(** A batch of two candidates of one /24, at one instant. *)
Definition tape_same_subnet : tape :=
  tape_random (198, 51, 100, 5) ++ tape_random (198, 51, 100, 240).

(** ** The wire format: the handshake packet

    A [Buffer] is the list of its bytes. [None] is the RangeError that the
    [write] methods throw on a value or an offset out of range. *)

(** [Buffer.alloc(size)] *)
Definition Buffer_alloc (size : nat) : list byte := replicate size x00.

(** [buf.writeUInt8(value, offset)] *)
Definition writeUInt8 (value offset : Z) (buf : list byte) : option (list byte) :=
  if (0 <=? value) && (value <=? 255)
     && (0 <=? offset) && (offset <? Z.of_nat (length buf))
  then match Byte.of_N (Z.to_N value) with
       | Some b => Some (<[Z.to_nat offset := b]> buf)
       | None => None
       end
  else None.

(** [buf.writeUInt16BE(value, offset)]: the high byte first. *)
Definition writeUInt16BE (value offset : Z) (buf : list byte) : option (list byte) :=
  if (0 <=? value) && (value <=? 65535)
     && (0 <=? offset) && (offset + 1 <? Z.of_nat (length buf))
  then match Byte.of_N (Z.to_N (value / 256)), Byte.of_N (Z.to_N (value mod 256)) with
       | Some hi, Some lo =>
           Some (<[Z.to_nat offset + 1 := lo]> (<[Z.to_nat offset := hi]> buf))%nat
       | _, _ => None
       end
  else None.

(** [source.copy(target, targetStart)] for a start inside the target: as
    many bytes as fit are copied. *)
Definition Buffer_copy (source target : list byte) (targetStart : nat) : list byte :=
  take targetStart target
  ++ take (length target - targetStart) source
  ++ drop (targetStart + length source) target.

(** [createHandshakePacket(hostname)], on the UTF-8 bytes of the host name
    ([Buffer.from(hostname, 'utf8')]) and with [this.config.port]. *)
Definition createHandshakePacket (hostnameBuffer : list byte) (port : Z)
    : option (list byte) :=
  let packet := Buffer_alloc (length hostnameBuffer + 7) in
  let offset := 0 in
  (* Packet ID *)
  packet ← writeUInt8 0x00 offset packet;
  let offset := offset + 1 in
  (* Protocol version *)
  packet ← writeUInt8 0x00 offset packet;
  let offset := offset + 1 in
  (* Hostname length *)
  packet ← writeUInt8 (Z.of_nat (length hostnameBuffer)) offset packet;
  let offset := offset + 1 in
  (* Hostname *)
  let packet := Buffer_copy hostnameBuffer packet (Z.to_nat offset) in
  let offset := offset + Z.of_nat (length hostnameBuffer) in
  (* Port *)
  packet ← writeUInt16BE port offset packet;
  let offset := offset + 2 in
  (* Next state (status) *)
  writeUInt8 0x01 offset packet.

(** ** Vocabulary of the properties: the wire format *)

(** The byte with the given value, for a value below 256. *)
Definition byte_of (n : Z) : byte := default x00 (Byte.of_N (Z.to_N n)).

(** The VarInt encoding of the protocol: seven bits per byte, the lowest
    first, the high bit set on every byte but the last. [groups] bounds the
    number of bytes. *)
Fixpoint varint_bytes (groups : nat) (n : Z) : list byte :=
  match groups with
  | O => []
  | S g =>
      if n <? 128 then [byte_of n]
      else byte_of (128 + n mod 128) :: varint_bytes g (n / 128)
  end.

(** A 32-bit integer is sent as the VarInt of its unsigned value, in at most
    five bytes. *)
Definition encodeVarInt (n : Z) : list byte := varint_bytes 5 (JS.to_uint32 n).

(** A status frame: packet length, packet id 0, JSON length, JSON. *)
Definition status_frame (json : list byte) : list byte :=
  let body := x00 :: encodeVarInt (Z.of_nat (length json)) ++ json in
  encodeVarInt (Z.of_nat (length body)) ++ body.

(** ** Vocabulary of the properties: random numbers *)

(** A result of [Math.random()]: a number in [0, 1). *)
Definition is_random (r : Q) : bool := Qle_bool 0 r && negb (Qle_bool 1 r).

(** The events whose random numbers are results of [Math.random()]. *)
Definition random_event (e : event) : bool :=
  match e with
  | Batch rnd => forallb is_random rnd
  | _ => true
  end.


(** ** Vocabulary of the properties: sample records *)

(** A server record with the given address, version, player count, MOTD
    and quality score. *)
Definition sample_info (a : address) (ver : jsstring) (online : Z)
    (m : jsstring) (quality : Z) : serverInfo :=
  {| ip := a; info_port := 25565; timestamp := t0; responseTime := 40;
     version := ver; protocol := VNum 765;
     players_online := online; players_max := 100; players_sample := VArr [];
     description := m; motd := m; favicon := str "None";
     location := None; country := str "Unknown"; qualityScore := quality |}.

(** A catalog with a valid line, a line whose first field is no address,
    a blank line, a line whose first field has a leading zero, and the first
    line again. *)
Definition sample_catalog : jsstring :=
  str "1.1.1.1|1.20.4|3/20|Welcome" ++ [10%N]
  ++ str "999.1.1.1|1.8" ++ [10%N]
  ++ str "   " ++ [10%N]
  ++ str "08.8.8.8|1.19" ++ [10%N]
  ++ str "1.1.1.1|1.20.4|5/20|Welcome" ++ [10%N].

(** ** Vocabulary of the properties: a sequence of saves *)

(** [updateServerStats] called for each server of a list, in order. *)
Definition save_all (infos : list serverInfo) (x : stats) : stats :=
  fold_left (fun x info => updateServerStats info x) infos x.

(** ** Vocabulary of the properties: the tasks of a session *)

(** The addresses a task carries: the one it probes and the one of the
    record it has built. *)
Definition task_addresses (t : task) : list address :=
  match t with
  | AwaitRateDelay a _ | AwaitPing a _ _ _ | AwaitBackoff a _ _ => [a]
  | AwaitLocation a _ enhanced => [a; ip enhanced]
  | AwaitAppend info | AwaitLoadJSON info | AwaitWriteJSON info
  | AwaitSaved info => [ip info]
  end.

(** The record a task is saving, once it is inside [saveServer]. *)
Definition task_saving (t : task) : option serverInfo :=
  match t with
  | AwaitAppend info | AwaitLoadJSON info | AwaitWriteJSON info
  | AwaitSaved info => Some info
  | _ => None
  end.

(** A task is inside the [try] block of [checkMinecraftServer], between
    [activeConnections++] and the [finally] block. *)
Definition holds_connection (t : task) : bool :=
  match t with
  | AwaitPing _ _ _ _ | AwaitLocation _ _ _ | AwaitBackoff _ _ _ => true
  | _ => false
  end.

Fixpoint connections (ts : list task) : Z :=
  match ts with
  | [] => 0
  | t :: rest => (if holds_connection t then 1 else 0) + connections rest
  end.

Definition is_Batch (e : event) : bool :=
  match e with Batch _ => true | _ => false end.

Definition public_task (t : task) : Prop :=
  forall a, a ∈ task_addresses t -> isPublicIP a = true.

Definition public_scanner (s : scanner) : Prop :=
  (forall a, a ∈ ipBlacklist s -> isPublicIP a = true)
  /\ (forall info, lastFoundServer (st s) = Some info -> isPublicIP (ip info) = true).

Definition public_world (w : world) : Prop :=
  Forall public_task (tasks w) /\ public_scanner (this w).

(** What a session keeps about the filters of configuration [c]. *)
Definition filtered_task (c : config) (t : task) : Prop :=
  forall info, task_saving t = Some info -> passesFilters c info = true.

Definition filtered_scanner (c : config) (s : scanner) : Prop :=
  cfg s = c
  /\ (forall info, lastFoundServer (st s) = Some info -> passesFilters c info = true)
  /\ (forall info, bestServer (st s) = Some info -> passesFilters c info = true).

Definition filtered_world (c : config) (w : world) : Prop :=
  Forall (filtered_task c) (tasks w) /\ filtered_scanner c (this w).

(** The fields of the scanner that no probe touches. *)
Definition same_control (s s' : scanner) : Prop :=
  cfg s' = cfg s /\ isRunning s' = isRunning s /\ isPaused s' = isPaused s
  /\ shouldStop s' = shouldStop s.

(** The connection slots a task holds after a step: one or none. *)
Definition slot (t : option task) : Z :=
  match t with
  | Some t' => if holds_connection t' then 1 else 0
  | None => 0
  end.

Definition is_Resume (e : event) : bool :=
  match e with Resume => true | _ => false end.

(** What a session keeps about the connection counter. *)
Definition counted_world (c : config) (w : world) : Prop :=
  cfg (this w) = c
  /\ activeConnections (st (this w)) = connections (tasks w)
  /\ activeConnections (st (this w)) <= Z.max 0 (maxConcurrent c).

(** A configuration that stops after [m] scans, in batches of [n]. *)
Definition config_with_maxScans (m n : Z) : config :=
  {| port := 25565; timeout := 2500; maxRetries := 2;
     batchSize := n; maxConcurrent := 3000; maxScans := Some m;
     versionFilter := None; minPlayers := 0; maxPlayers := None;
     enableGeolocation := true; exportJson := true |}.

(** ** The excluded ranges

    [getExcludedRanges()], the default of the option [excludeRanges], as
    base addresses and prefix lengths; [in_cidr] tells whether an address
    lies in a block. *)
Definition getExcludedRanges : list (address * Z) :=
  [ ((10, 0, 0, 0), 8);        (* Private networks *)
    ((172, 16, 0, 0), 12);     (* Private networks *)
    ((192, 168, 0, 0), 16);    (* Private networks *)
    ((127, 0, 0, 0), 8);       (* Loopback *)
    ((169, 254, 0, 0), 16);    (* Link-local *)
    ((224, 0, 0, 0), 4);       (* Multicast *)
    ((240, 0, 0, 0), 4) ].     (* Reserved *)

Definition in_cidr (a : address) (cidr : address * Z) : bool :=
  let '(baseIP, prefixLength) := cidr in
  ipToNumber a / 2 ^ (32 - prefixLength)
  =? ipToNumber baseIP / 2 ^ (32 - prefixLength).

(** * Properties *)

(** ** 32-bit integers *)

Lemma to_int32_range z : - 2 ^ 31 <= JS.to_int32 z < 2 ^ 31.
Proof.
  unfold JS.to_int32.
  pose proof (Z.mod_pos_bound (z + 2 ^ 31) (2 ^ 32)). lia.
Qed.

Lemma to_int32_small z : - 2 ^ 31 <= z < 2 ^ 31 -> JS.to_int32 z = z.
Proof. intros H. unfold JS.to_int32. rewrite Z.mod_small; lia. Qed.

(** ** VarInt *)

Lemma band_payload b : JS.band (byte_val b) 0x7F = payload b.
Proof. destruct b; reflexivity. Qed.

Lemma band_continuation b :
  negb (JS.band (byte_val b) 0x80 =? 0) = has_continuation b.
Proof. destruct b; reflexivity. Qed.

Lemma payload_range b : 0 <= payload b < 128.
Proof. unfold payload. apply Z.mod_pos_bound. lia. Qed.

Lemma varint_sum_range buffer offset n :
  0 <= varint_sum buffer offset n < 2 ^ (7 * Z.of_nat n).
Proof.
  induction n as [|n IH].
  - simpl. lia.
  - cbn [varint_sum].
    assert (Hp : 0 <= from_option payload 0 (byte_at buffer offset n) < 128).
    { destruct (byte_at buffer offset n); simpl; [apply payload_range | lia]. }
    replace (7 * Z.of_nat (S n)) with (7 * Z.of_nat n + 7) by lia.
    rewrite Z.pow_add_r by lia.
    change (2 ^ 7) with 128. nia.
Qed.

Lemma lor_disjoint a m k :
  0 <= k -> 0 <= a < 2 ^ k -> Z.lor a (m * 2 ^ k) = a + m * 2 ^ k.
Proof.
  intros Hk Ha.
  assert (Hand : Z.land a (m * 2 ^ k) = 0).
  { apply Z.bits_inj'. intros n Hn. rewrite Z.land_spec, Z.bits_0.
    destruct (Z.lt_ge_cases n k) as [Hlt|Hge].
    - rewrite Z.mul_pow2_bits_low by lia. apply andb_false_r.
    - assert (Z.testbit a n = false) as ->; [|reflexivity].
      destruct (Z.eq_dec a 0) as [->|Hne]; [apply Z.bits_0|].
      apply Z.bits_above_log2; [lia|].
      apply Z.lt_le_trans with k; [|lia].
      apply Z.log2_lt_pow2; lia. }
  rewrite <- Z.lxor_lor by exact Hand.
  symmetry. apply Z.add_nocarry_lxor. exact Hand.
Qed.

Lemma to_int32_shifted_payload p k :
  0 <= k <= 28 -> 0 <= p < 128 ->
  exists m, JS.to_int32 (p * 2 ^ k) = m * 2 ^ k
            /\ JS.to_int32 (m * 2 ^ k) = m * 2 ^ k
            /\ forall v, 0 <= v < 2 ^ k ->
                 JS.to_int32 (v + m * 2 ^ k) = JS.to_int32 (v + p * 2 ^ k).
Proof.
  intros Hk Hp.
  assert (Hpow : 2 ^ 32 = 2 ^ (32 - k) * 2 ^ k).
  { rewrite <- Z.pow_add_r by lia. f_equal. lia. }
  assert (Hpos : 0 < 2 ^ k) by (apply Z.pow_pos_nonneg; lia).
  assert (Hpos' : 0 < 2 ^ (32 - k)) by (apply Z.pow_pos_nonneg; lia).
  set (q := (p * 2 ^ k + 2 ^ 31) / 2 ^ 32).
  assert (Hx : JS.to_int32 (p * 2 ^ k) = (p - q * 2 ^ (32 - k)) * 2 ^ k).
  { unfold JS.to_int32. rewrite Z.mod_eq by lia. fold q.
    rewrite Z.mul_sub_distr_r, <- Z.mul_assoc, <- Hpow. lia. }
  exists (p - q * 2 ^ (32 - k)). split; [exact Hx|]. split.
  - rewrite <- Hx. apply to_int32_small, to_int32_range.
  - intros v Hv. unfold JS.to_int32. f_equal.
    rewrite Z.mul_sub_distr_r, <- Z.mul_assoc, <- Hpow.
    replace (v + (p * 2 ^ k - q * 2 ^ 32) + 2 ^ 31)
      with (v + p * 2 ^ k + 2 ^ 31 + (- q) * 2 ^ 32) by lia.
    apply Z.mod_add. lia.
Qed.

Lemma bor_shl_payload v p (i : nat) :
  (i <= 4)%nat -> 0 <= v < 2 ^ (7 * Z.of_nat i) -> 0 <= p < 128 ->
  JS.bor v (JS.shl p (7 * Z.of_nat i)) = JS.to_int32 (v + p * 2 ^ (7 * Z.of_nat i)).
Proof.
  intros Hi Hv Hp.
  assert (Hsh : JS.to_uint32 (7 * Z.of_nat i) mod 32 = 7 * Z.of_nat i).
  { unfold JS.to_uint32. change (2 ^ 32) with 4294967296.
    rewrite (Z.mod_small (7 * Z.of_nat i) 4294967296) by lia.
    apply Z.mod_small. lia. }
  assert (Hv31 : - 2 ^ 31 <= v < 2 ^ 31).
  { assert (2 ^ (7 * Z.of_nat i) <= 2 ^ 31) by (apply Z.pow_le_mono_r; lia).
    assert (0 < 2 ^ 31) by reflexivity. lia. }
  destruct (to_int32_shifted_payload p (7 * Z.of_nat i)) as (m & Hm & Hm' & Hsum);
    [lia | exact Hp |].
  unfold JS.bor, JS.shl.
  rewrite (to_int32_small p) by (change (2 ^ 31) with 2147483648; lia).
  rewrite Hsh, Z.shiftl_mul_pow2 by lia.
  rewrite Hm, Hm', (to_int32_small v) by exact Hv31.
  rewrite lor_disjoint by lia.
  apply Hsum. exact Hv.
Qed.

(** One turn of the loop of [readVarInt], after [i] bytes. *)
Lemma readVarInt_loop_step fuel buffer offset (i : nat) :
  (i <= 4)%nat -> 0 <= offset ->
  readVarInt_loop (S fuel) buffer offset (varint_sum buffer offset i) (Z.of_nat i) =
  match byte_at buffer offset i with
  | None => None
  | Some b =>
      if has_continuation b && (S i <? 5)%nat
      then readVarInt_loop fuel buffer offset
             (varint_sum buffer offset (S i)) (Z.of_nat (S i))
      else Some (JS.to_int32 (varint_sum buffer offset (S i)), Z.of_nat (S i))
  end.
Proof.
  intros Hi Hoff. cbn [readVarInt_loop]. unfold byte_at.
  destruct (Z.leb_spec (Z.of_nat (length buffer)) (offset + Z.of_nat i)) as [Hge|Hlt].
  - rewrite lookup_ge_None_2 by lia. reflexivity.
  - destruct (Z.ltb_spec (offset + Z.of_nat i) 0) as [?|_]; [lia|].
    destruct (lookup_lt_is_Some_2 buffer (Z.to_nat (offset + Z.of_nat i)))
      as [b Hb]; [lia|].
    rewrite Hb, band_payload, band_continuation.
    assert (Hsum : JS.bor (varint_sum buffer offset i)
                     (JS.shl (payload b) (7 * Z.of_nat i))
                   = JS.to_int32 (varint_sum buffer offset (S i))).
    { rewrite bor_shl_payload
        by (try apply varint_sum_range; try apply payload_range; lia).
      cbn [varint_sum]. unfold byte_at. rewrite Hb. reflexivity. }
    rewrite Hsum.
    replace (Z.of_nat i + 1) with (Z.of_nat (S i)) by lia.
    assert (Hlt5 : (Z.of_nat (S i) <? 5) = (S i <? 5)%nat).
    { destruct (Z.ltb_spec (Z.of_nat (S i)) 5), (Nat.ltb_spec (S i) 5);
        (reflexivity || lia). }
    rewrite Hlt5.
    destruct (has_continuation b && (S i <? 5)%nat) eqn:Hc; [|reflexivity].
    apply andb_true_iff in Hc as [_ Hc]. apply Nat.ltb_lt in Hc.
    rewrite to_int32_small; [reflexivity|].
    pose proof (varint_sum_range buffer offset (S i)) as Hr.
    assert (2 ^ (7 * Z.of_nat (S i)) <= 2 ^ 31) by (apply Z.pow_le_mono_r; lia).
    assert (0 < 2 ^ 31) by reflexivity. lia.
Qed.

(** What the loop returns when it returns: between one and five bytes were
    read, and the value is their payloads, seven bits each, wrapped to 32
    bits. *)
Lemma readVarInt_loop_result fuel buffer offset (i : nat) v n :
  (i <= 4)%nat -> 0 <= offset ->
  readVarInt_loop fuel buffer offset (varint_sum buffer offset i) (Z.of_nat i)
    = Some (v, n) ->
  exists k : nat, n = Z.of_nat k /\ (i < k <= 5)%nat
                  /\ v = JS.to_int32 (varint_sum buffer offset k).
Proof.
  revert i. induction fuel as [|fuel IH]; intros i Hi Hoff; [discriminate|].
  rewrite readVarInt_loop_step by assumption.
  destruct (byte_at buffer offset i) as [b|]; [|discriminate].
  destruct (has_continuation b && (S i <? 5)%nat) eqn:Hc.
  - apply andb_true_iff in Hc as [_ Hc]. apply Nat.ltb_lt in Hc.
    intros H. apply IH in H as (k & -> & Hk & ->); [|lia|assumption].
    exists k. repeat split; lia.
  - intros [= <- <-]. exists (S i). repeat split; lia.
Qed.

(** Five units of fuel are enough: more fuel changes nothing. *)
Lemma readVarInt_loop_fuel fuel buffer offset (i : nat) :
  (i <= 4)%nat -> 0 <= offset -> (5 <= fuel + i)%nat ->
  readVarInt_loop fuel buffer offset (varint_sum buffer offset i) (Z.of_nat i)
  = readVarInt_loop (5 - i) buffer offset (varint_sum buffer offset i) (Z.of_nat i).
Proof.
  revert i. induction fuel as [|fuel IH]; intros i Hi Hoff Hfuel; [lia|].
  replace (5 - i)%nat with (S (4 - i)) by lia.
  rewrite !readVarInt_loop_step by assumption.
  destruct (byte_at buffer offset i) as [b|]; [|reflexivity].
  destruct (has_continuation b && (S i <? 5)%nat) eqn:Hc; [|reflexivity].
  apply andb_true_iff in Hc as [_ Hc]. apply Nat.ltb_lt in Hc.
  rewrite IH by lia. replace (5 - S i)%nat with (4 - i)%nat by lia. reflexivity.
Qed.

(** The loop runs through bytes that all carry the continuation bit and
    stops after the fifth. *)
Lemma readVarInt_loop_continuations fuel buffer offset (i : nat) :
  (i <= 4)%nat -> 0 <= offset -> (5 <= fuel + i)%nat ->
  (forall j, (i <= j < 5)%nat ->
     exists b, byte_at buffer offset j = Some b /\ has_continuation b = true) ->
  readVarInt_loop fuel buffer offset (varint_sum buffer offset i) (Z.of_nat i)
  = Some (JS.to_int32 (varint_sum buffer offset 5), 5).
Proof.
  revert i. induction fuel as [|fuel IH]; intros i Hi Hoff Hfuel Hall; [lia|].
  rewrite readVarInt_loop_step by assumption.
  destruct (Hall i) as (b & -> & ->); [lia|].
  destruct (Nat.ltb_spec (S i) 5) as [Hlt|Hge]; cbn [andb].
  - apply IH; [lia | assumption | lia |]. intros j Hj. apply Hall. lia.
  - assert (i = 4%nat) as -> by lia. reflexivity.
Qed.

(** The loop fails only by reading past the end of the buffer. *)
Lemma readVarInt_loop_error fuel buffer offset (i : nat) :
  (i <= 4)%nat -> 0 <= offset -> (5 <= fuel + i)%nat ->
  readVarInt_loop fuel buffer offset (varint_sum buffer offset i) (Z.of_nat i)
    = None ->
  Z.of_nat (length buffer) < offset + 5.
Proof.
  revert i. induction fuel as [|fuel IH]; intros i Hi Hoff Hfuel; [lia|].
  rewrite readVarInt_loop_step by assumption.
  destruct (byte_at buffer offset i) as [b|] eqn:Hb.
  - destruct (has_continuation b && (S i <? 5)%nat) eqn:Hc; [|discriminate].
    apply andb_true_iff in Hc as [_ Hc]. apply Nat.ltb_lt in Hc.
    apply IH; [lia | assumption | lia].
  - intros _. unfold byte_at in Hb. apply lookup_ge_None_1 in Hb. lia.
Qed.

(** The loop fails exactly when the buffer ends before the fifth byte and
    behind bytes that all carry the continuation bit. *)
Lemma readVarInt_loop_error_iff fuel buffer offset (i : nat) :
  (i <= 4)%nat -> 0 <= offset -> (5 <= fuel + i)%nat ->
  readVarInt_loop fuel buffer offset (varint_sum buffer offset i) (Z.of_nat i)
    = None
  <-> exists k : nat,
        (i <= k < 5)%nat /\ byte_at buffer offset k = None
        /\ forall j, (i <= j < k)%nat ->
             exists b, byte_at buffer offset j = Some b
                       /\ has_continuation b = true.
Proof.
  revert i. induction fuel as [|fuel IH]; intros i Hi Hoff Hfuel; [lia|].
  rewrite readVarInt_loop_step by assumption.
  destruct (byte_at buffer offset i) as [b|] eqn:Hb.
  - destruct (has_continuation b) eqn:Hcont; cbn [andb].
    + destruct (Nat.ltb_spec (S i) 5) as [Hlt|Hge].
      * rewrite IH by lia. split.
        -- intros (k & Hk & Hend & Hall). exists k.
           split; [lia|]. split; [exact Hend|].
           intros j Hj. destruct (decide (j = i)) as [->|Hne].
           ++ exists b. split; [exact Hb | exact Hcont].
           ++ apply Hall. lia.
        -- intros (k & Hk & Hend & Hall).
           assert (k <> i) by (intros ->; congruence).
           exists k. split; [lia|]. split; [exact Hend|].
           intros j Hj. apply Hall. lia.
      * split; [discriminate|].
        intros (k & Hk & Hend & _).
        assert (k = i) as -> by lia. congruence.
    + split; [discriminate|].
      intros (k & Hk & Hend & Hall).
      assert (k <> i) by (intros ->; congruence).
      destruct (Hall i) as (b' & Hb' & Hcont'); [lia|]. congruence.
  - split; [|reflexivity]. intros _. exists i.
    split; [lia|]. split; [exact Hb|]. intros j Hj. lia.
Qed.

(** C4 as the specification words it: five continuation bytes make
    the decoder fail. The decoder returns instead. *)
Lemma readVarInt_overflow_is_no_error :
  let buffer := [x80; x80; x80; x80; x80; x01] in
  forallb has_continuation (take 5 buffer) = true
  /\ readVarInt buffer 0 = Some (0, 5)
  /\ ~ (readVarInt buffer 0 = None).
Proof. vm_compute. repeat split; try reflexivity. discriminate. Qed.

(** C4 (amended). A buffer whose first five bytes all carry the continuation
    bit is decoded without error: [readVarInt] stops after the fifth byte and
    returns the 35 payload bits wrapped to a signed 32-bit value. Whenever a
    decode returns, it has consumed between one and five bytes and its value
    is made of seven payload bits per byte; the only error is running off
    the end of the buffer: a decode fails if and only if, for some [k < 5],
    the buffer has no byte at [offset + k] and the [k] bytes before it all
    carry the continuation bit. *)
Theorem readVarInt_five_continuation_bytes (buffer : list byte) :
  (5 <= length buffer)%nat ->
  forallb has_continuation (take 5 buffer) = true ->
  readVarInt buffer 0 = Some (JS.to_int32 (varint_sum buffer 0 5), 5)
  /\ (forall buf offset v n, 0 <= offset ->
        readVarInt buf offset = Some (v, n) ->
        1 <= n <= 5
        /\ v = JS.to_int32 (varint_sum buf offset (Z.to_nat n)))
  /\ (forall buf offset, 0 <= offset ->
        readVarInt buf offset = None ->
        Z.of_nat (length buf) < offset + 5)
  /\ (forall buf offset, 0 <= offset ->
        readVarInt buf offset = None
        <-> exists k : nat,
              (k < 5)%nat /\ byte_at buf offset k = None
              /\ forall j, (j < k)%nat ->
                   exists b, byte_at buf offset j = Some b
                             /\ has_continuation b = true).
Proof.
  intros Hlen Hcont. split; [|split; [|split]].
  - apply (readVarInt_loop_continuations 5 buffer 0 0); try lia.
    intros j Hj. unfold byte_at.
    destruct buffer as [|b0 [|b1 [|b2 [|b3 [|b4 rest]]]]]; simpl in Hlen; try lia.
    cbn [take forallb] in Hcont.
    repeat (apply andb_true_iff in Hcont as [? Hcont]).
    assert (Hcases : (j = 0 \/ j = 1 \/ j = 2 \/ j = 3 \/ j = 4)%nat) by lia.
    destruct Hcases as [->|[->|[->|[->| ->]]]]; eexists; (split; [reflexivity|assumption]).
  - intros buf offset v n Hoff H.
    apply (readVarInt_loop_result 5 buf offset 0) in H as (k & -> & Hk & ->);
      [|lia|assumption].
    rewrite Nat2Z.id. split; [lia|reflexivity].
  - intros buf offset Hoff H.
    apply (readVarInt_loop_error 5 buf offset 0) in H; [assumption|lia|assumption|lia].
  - intros buf offset Hoff. unfold readVarInt.
    rewrite (readVarInt_loop_error_iff 5 buf offset 0) by (assumption || lia).
    split; intros (k & Hk & Hend & Hall); exists k;
      (split; [lia|]; split; [exact Hend|]; intros j Hj; apply Hall; lia).
Qed.

Lemma readVarInt_five_continuation_bytes_witness :
  let buffer := [xff; xff; xff; xff; xff; x00] in
  (5 <= length buffer)%nat
  /\ forallb has_continuation (take 5 buffer) = true
  /\ readVarInt buffer 0 = Some (-1, 5).
Proof.
  assert (Hlen : (5 <= length [xff; xff; xff; xff; xff; x00])%nat) by (simpl; lia).
  assert (Hcont : forallb has_continuation
                    (take 5 [xff; xff; xff; xff; xff; x00]) = true)
    by reflexivity.
  split; [exact Hlen|]. split; [exact Hcont|].
  exact (proj1 (readVarInt_five_continuation_bytes _ Hlen Hcont)).
Defined.

(** ** The enricher and the quality score *)

Lemma calculateQualityScore_rule info :
  calculateQualityScore info = quality_rule info.
Proof.
  unfold calculateQualityScore, quality_rule, bonus.
  assert (Hlen : negb (Nat.eqb (length (motd info)) 0)
                 && (10 <? Z.of_nat (length (motd info)))
                 = (10 <? Z.of_nat (length (motd info)))).
  { destruct (Z.ltb_spec 10 (Z.of_nat (length (motd info)))) as [H|H];
      [|apply andb_false_r].
    destruct (length (motd info)); [lia|reflexivity]. }
  rewrite Hlen.
  assert (Hex : existsb (fun v => includes (version info) v) knownVersions
                = existsb (includes (version info)) knownVersions) by reflexivity.
  rewrite Hex.
  repeat match goal with |- context [if ?b then _ else _] => destruct b end;
    rewrite Z.min_comm; f_equal; lia.
Qed.

(** C1 as the specification words it gives the score 50 to the
    status of the scenario; the scanner gives 55. *)
Lemma welcome_status_quality_is_not_50 :
  exists info,
    enhanceServerInfo main_config 0 (203, 0, 113, 17) welcome_status 150
      (str "Unknown") = Ok info
    /\ 100 <= responseTime info
    /\ qualityScore info = 55
    /\ qualityScore info <> 50.
Proof.
  eexists. split; [vm_compute; reflexivity|].
  split; [cbn; lia|]. split; [reflexivity | discriminate].
Qed.

(** The strict path of [parseServerResponse] on the framed status: the
    three VarInts take one byte each and the JSON text goes to [JSON.parse]
    byte for byte. *)
Lemma parseServerResponse_framed_welcome JSON_parse :
  JSON_parse welcome_json = Some welcome_status ->
  parseServerResponse JSON_parse (framed welcome_json) = welcome_status.
Proof. intros H. vm_compute in H. vm_compute. rewrite H. reflexivity. Qed.

(** C1 (amended). For the framed status of the scenario, which
    [JSON.parse] turns into [welcome_status], the parser returns that status
    and enrichment yields version 1.20.4, players 25/100, motd Welcome and,
    when the response time is at least 100 ms, the quality score
    55 = 20 + 20 + 15: 25 players earn both the bonus for more than 0 and
    the bonus for more than 10, the version contains 1.20, and the
    seven-character motd earns nothing. The score is the capped sum of the
    listed bonuses. *)
Theorem welcome_status_enriched JSON_parse cfg now a rt loc :
  JSON_parse welcome_json = Some welcome_status ->
  100 <= rt ->
  exists info,
    enhanceServerInfo cfg now a
      (parseServerResponse JSON_parse (framed welcome_json)) rt loc = Ok info
    /\ version info = str "1.20.4"
    /\ players_online info = 25 /\ players_max info = 100
    /\ motd info = str "Welcome"
    /\ qualityScore info = 55
    /\ forall i, calculateQualityScore i = quality_rule i.
Proof.
  intros Hparse Hrt. rewrite (parseServerResponse_framed_welcome _ Hparse).
  eexists. split; [reflexivity|].
  repeat split; try (destruct (enableGeolocation cfg); reflexivity).
  - assert (Hq : forall i, version i = str "1.20.4" -> players_online i = 25 ->
                   motd i = str "Welcome" -> responseTime i = rt ->
                   calculateQualityScore i = 55).
    { intros i Hv Hp Hm Hr. unfold calculateQualityScore.
      rewrite Hv, Hp, Hm, Hr.
      destruct (Z.ltb_spec rt 100); [lia|]. reflexivity. }
    destruct (enableGeolocation cfg); apply Hq; reflexivity.
  - apply calculateQualityScore_rule.
Qed.

Lemma welcome_status_enriched_witness :
  let JSON_parse := fun text : list byte =>
    if decide (text = welcome_json) then Some welcome_status else None in
  JSON_parse welcome_json = Some welcome_status
  /\ 100 <= 150
  /\ exists info,
       enhanceServerInfo main_config 0 (203, 0, 113, 17)
         (parseServerResponse JSON_parse (framed welcome_json)) 150
         (str "Unknown") = Ok info
       /\ qualityScore info = 55.
Proof.
  set (JSON_parse := fun text : list byte =>
         if decide (text = welcome_json) then Some welcome_status else None).
  assert (H1 : JSON_parse welcome_json = Some welcome_status)
    by (vm_compute; reflexivity).
  assert (H2 : 100 <= 150) by lia.
  split; [exact H1|]. split; [exact H2|].
  destruct (welcome_status_enriched JSON_parse main_config 0 (203, 0, 113, 17)
              150 (str "Unknown") H1 H2)
    as (info & He & _ & _ & _ & _ & Hq & _).
  exists info. split; assumption.
Defined.

(** ** resetStats *)

(** C9. [resetStats] zeroes the volatile counters and the per-session
    tallies, sets the start time to the current clock reading, and leaves
    [totalFound], [serversByVersion] and [serversByCountry] as they were. *)
Theorem resetStats_frame (w : world) :
  exists w',
    step ResetStats w = Some w'
    /\ let x := st (this w) in
       let x' := st (this w') in
       totalScanned x' = 0
       /\ duplicatesSkipped x' = 0
       /\ errorsEncountered x' = 0
       /\ timeoutCount x' = 0
       /\ connectionErrors x' = 0
       /\ activeConnections x' = 0
       /\ serversByPlayerCount x' = ∅
       /\ popularMOTDs x' = ∅
       /\ lastFoundServer x' = None
       /\ bestServer x' = None
       /\ startTime x' = Some (clock w)
       /\ totalFound x' = totalFound x
       /\ serversByVersion x' = serversByVersion x
       /\ serversByCountry x' = serversByCountry x.
Proof. eexists. split; [reflexivity|]. cbn. repeat split. Qed.

(** ** The address generator *)

(** The random strategy returns only what its loop test lets through. *)
Lemma generateRandomPublicIP_accepted s rnd a rest :
  generateRandomPublicIP s rnd = Some (a, rest) -> rejected s a = false.
Proof.
  remember (length rnd) as n eqn:Hn.
  assert (Hle : (length rnd <= n)%nat) by lia. clear Hn.
  revert rnd Hle. induction n as [|n IH]; intros rnd Hle.
  - destruct rnd; [discriminate | simpl in Hle; lia].
  - destruct rnd as [|r0 [|r1 [|r2 [|r3 rnd']]]]; try discriminate.
    cbn [generateRandomPublicIP].
    destruct (rejected s (random_below r0 256, random_below r1 256,
                          random_below r2 256, random_below r3 256)) eqn:Hrej.
    + apply IH. simpl in Hle. lia.
    + intros [= <- <-]. exact Hrej.
Qed.

Lemma rejected_false s a :
  rejected s a = false ->
  isPublicIP a = true /\ (a ∉ ipBlacklist s) /\ (ip_string a ∉ serverCache s).
Proof.
  unfold rejected. intros H.
  apply orb_false_iff in H as [H Hc]. apply orb_false_iff in H as [Hp Hb].
  apply negb_false_iff in Hp.
  apply bool_decide_eq_false in Hb, Hc. auto.
Qed.

(** C8 as the specification words it: a draw is over within 32
    attempts. With forty private addresses first on the tape, the loop has
    not returned after 32 attempts (128 numbers) and returns at the 41st. *)
Lemma rejection_sampling_has_no_attempt_limit :
  let s := constructor main_config in
  generateRandomPublicIP s (take (4 * 32) tape_forty_private) = None
  /\ generateRandomPublicIP s tape_forty_private = Some ((8, 8, 8, 8), []).
Proof. vm_compute. split; reflexivity. Qed.

(** C8 (amended). Rejection sampling in the random strategy has no attempt
    limit: it draws until an address is public, not blacklisted and not in
    the seen-set, and returns that address. A draw whose first [k] attempts
    are rejected and whose next attempt is accepted ends at attempt [k + 1],
    for every [k]; it is not cut off at 32. *)
Theorem generateRandomPublicIP_first_accepted
    (s : scanner) (rejects : list attempt) (t : attempt) (rest : tape) :
  Forall (fun r => rejected s (attempt_address r) = true) rejects ->
  rejected s (attempt_address t) = false ->
  generateRandomPublicIP s (attempts_tape rejects ++ attempts_tape [t] ++ rest)
    = Some (attempt_address t, rest)
  /\ generateRandomPublicIP s (attempts_tape rejects) = None
  /\ isPublicIP (attempt_address t) = true
  /\ (attempt_address t ∉ ipBlacklist s)
  /\ (ip_string (attempt_address t) ∉ serverCache s).
Proof.
  intros Hrej Hacc. split; [|split; [|apply rejected_false, Hacc]].
  - induction Hrej as [|[[[r0 r1] r2] r3] l Hr _ IH].
    + destruct t as [[[r0 r1] r2] r3]. cbn in *. rewrite Hacc. reflexivity.
    + cbn in *. rewrite Hr. exact IH.
  - induction Hrej as [|[[[r0 r1] r2] r3] l Hr _ IH]; [reflexivity|].
    cbn in *. rewrite Hr. exact IH.
Qed.

Lemma generateRandomPublicIP_first_accepted_witness :
  let s := constructor main_config in
  let rejects := repeat ((10 # 256, 0, 0, 0)%Q : attempt) 40 in
  let t : attempt := (8 # 256, 8 # 256, 8 # 256, 8 # 256)%Q in
  Forall (fun r => rejected s (attempt_address r) = true) rejects
  /\ rejected s (attempt_address t) = false
  /\ generateRandomPublicIP s (attempts_tape rejects ++ attempts_tape [t] ++ [])
     = Some ((8, 8, 8, 8), []).
Proof.
  assert (H1 : Forall (fun r => rejected (constructor main_config)
                                  (attempt_address r) = true)
                 (repeat ((10 # 256, 0, 0, 0)%Q : attempt) 40)).
  { apply Forall_forall. intros r Hr.
    apply list_elem_of_In, repeat_spec in Hr. subst r.
    reflexivity. }
  assert (H2 : rejected (constructor main_config)
                 (attempt_address (8 # 256, 8 # 256, 8 # 256, 8 # 256)%Q) = false)
    by reflexivity.
  split; [exact H1|]. split; [exact H2|].
  exact (proj1 (generateRandomPublicIP_first_accepted _ _ _ [] H1 H2)).
Defined.

(** C2 (the scanner against the claim). In smart-random mode only the
    random strategy tests the blacklist and the seen-set. After 1.1.1.1 has
    been blacklisted, the popular-range strategy returns it again; after
    8.8.8.8 has been found and cached, the cluster strategy returns it
    again. *)
Theorem generateSmartIP_returns_blacklisted_and_seen :
  (exists w,
     run blacklisting_run (boot (config_with_batchSize 1) None t0) = Some w
     /\ (1, 1, 1, 1) ∈ ipBlacklist (this w)
     /\ generateSmartIP (this w) tape_popular_1_1_1_1 = Some ((1, 1, 1, 1), []))
  /\ (exists w,
        run discovery_run (boot (config_with_batchSize 1) None t0) = Some w
        /\ ip_string (8, 8, 8, 8) ∈ serverCache (this w)
        /\ generateSmartIP (this w) tape_cluster_8 = Some ((8, 8, 8, 8), [])).
Proof.
  split.
  - eexists. split; [vm_compute; reflexivity|].
    split; [vm_compute; reflexivity|]. vm_compute. reflexivity.
  - eexists. split; [vm_compute; reflexivity|].
    split; [|vm_compute; reflexivity].
    apply list_elem_of_In. vm_compute. left. reflexivity.
Qed.

(** ** Admission and the rate limiter *)

Lemma isRateLimited_spec s now a :
  timestamps_positive s ->
  isRateLimited s now a = true
  <-> exists ts, rateLimiter s !! subnet_of a = Some ts /\ now - ts < 1000.
Proof.
  intros Hpos. unfold isRateLimited.
  destruct (rateLimiter s !! subnet_of a) as [ts|] eqn:Hts.
  - pose proof (Hpos _ _ Hts) as Hp.
    destruct (Z.eqb_spec ts 0) as [?|_]; [lia|]. cbn [negb andb].
    rewrite Z.ltb_lt. split.
    + intros H. exists ts. split; [reflexivity | exact H].
    + intros (ts' & [= <-] & H). exact H.
  - split; [discriminate|]. intros (ts & H & _). discriminate H.
Qed.

Lemma admission_cases s now a :
  0 < maxRetries (cfg s) ->
  (isRateLimited s now a = true /\ admission_of now a s = Defer /\ after_admission now a s = s)
  \/ (isRateLimited s now a = false /\ admission_of now a s = Allow
      /\ after_admission now a s = incr_activeConnections s).
Proof.
  intros Hmax. unfold admission_of, after_admission, check_start.
  destruct (Z.leb_spec (maxRetries (cfg s)) 0) as [?|_]; [lia|].
  destruct (isRateLimited s now a); [left|right]; repeat split.
Qed.

(** C5. The claim has a blacklisted address refused and the table stamped
    when an address is allowed. The scanner breaks both: 1.1.1.1, blacklisted
    after two failed attempts, is admitted when it is drawn again, and the
    table is not written at admission, so that two candidates of one /24
    drawn at the same instant are both admitted, the table still empty. *)
Theorem admission_ignores_blacklist_and_leaves_table :
  (exists w,
     run (blacklisting_run ++ [Tick 1000])
         (boot (config_with_batchSize 1) None t0) = Some w
     /\ (1, 1, 1, 1) ∈ ipBlacklist (this w)
     /\ admission_of (clock w) (1, 1, 1, 1) (this w) = Allow
     /\ rateLimiter (after_admission (clock w) (1, 1, 1, 1) (this w)) !! (1, 1, 1)
        <> Some (clock w))
  /\ (exists w,
        run [Batch tape_same_subnet] (boot (config_with_batchSize 2) None t0)
          = Some w
        /\ tasks w = [AwaitPing (198, 51, 100, 5) 0 t0 true;
                      AwaitPing (198, 51, 100, 240) 0 t0 true]
        /\ rateLimiter (this w) = ∅).
Proof.
  split.
  - eexists. split; [vm_compute; reflexivity|].
    split; [vm_compute; reflexivity|].
    split; [vm_compute; reflexivity|].
    vm_compute. discriminate.
  - eexists. split; [vm_compute; reflexivity|].
    split; vm_compute; reflexivity.
Qed.

(** What admission does, for any candidate, blacklisted or not (with a
    retry budget of at least one, and wall-clock time stamps in the table):
    it allows if and only if the table holds no entry for the /24 of the
    address newer than 1000 ms; otherwise it defers and changes nothing.
    Admission does not write the table: the entry of the /24 is set to the
    wall-clock time at which the admitted attempt finishes (the [finally]
    block). From an empty table, 198.51.100.5 admitted at [T] is allowed; if
    its probe finishes within 100 ms, 198.51.100.240 at [T + 200] is
    deferred and 198.51.100.7 at [T + 1100] is allowed. *)
Lemma admission_rule (s : scanner) (now : Z) (a : address) (T e : Z) :
  0 < maxRetries (cfg s) ->
  timestamps_positive s ->
  0 < T -> 0 <= e <= 100 ->
  (admission_of now a s = Allow
   <-> ~ (exists ts, rateLimiter s !! subnet_of a = Some ts /\ now - ts < 1000))
  /\ (admission_of now a s <> Allow -> admission_of now a s = Defer /\ after_admission now a s = s)
  /\ rateLimiter (after_admission now a s) = rateLimiter s
  /\ (forall finish,
        rateLimiter (check_finally finish a (after_admission now a s)) !! subnet_of a
        = Some finish)
  /\ (rateLimiter s = ∅ ->
      let first := (198, 51, 100, 5) in
      let s1 := check_finally (T + e) first (after_admission T first s) in
      admission_of T first s = Allow
      /\ admission_of (T + 200) (198, 51, 100, 240) s1 = Defer
      /\ admission_of (T + 1100) (198, 51, 100, 7) s1 = Allow).
Proof.
  intros Hmax Hpos HT He.
  pose proof (isRateLimited_spec s now a Hpos) as Hspec.
  destruct (admission_cases s now a Hmax) as [(Hl & Ha & Hs)|(Hl & Ha & Hs)];
    rewrite Ha, Hs.
  - split; [|split; [|split; [|split]]].
    + split; [discriminate|]. intros Hno. exfalso. apply Hno, Hspec, Hl.
    + intros _. split; reflexivity.
    + reflexivity.
    + intros finish. cbn. apply lookup_insert_eq.
    + intros Hempty. unfold isRateLimited in Hl. rewrite Hempty in Hl.
      rewrite lookup_empty in Hl. discriminate Hl.
  - split; [|split; [|split; [|split]]].
    + split; [|reflexivity]. intros _ Hex. apply Hspec in Hex. congruence.
    + intros Hne. congruence.
    + reflexivity.
    + intros finish. cbn. apply lookup_insert_eq.
    + intros Hempty.
      assert (Hfirst : admission_of T (198, 51, 100, 5) s = Allow
                       /\ after_admission T (198, 51, 100, 5) s = incr_activeConnections s).
      { destruct (admission_cases s T (198, 51, 100, 5) Hmax)
          as [(Hl' & _)|(_ & Ha' & Hs')]; [|split; assumption].
        unfold isRateLimited in Hl'. rewrite Hempty, lookup_empty in Hl'.
        discriminate Hl'. }
      destruct Hfirst as [Hallow Hstate]. cbn zeta. rewrite Hstate.
      split; [exact Hallow|].
      set (s1 := check_finally (T + e) (198, 51, 100, 5) (incr_activeConnections s)).
      assert (Hcfg : maxRetries (cfg s1) = maxRetries (cfg s)) by reflexivity.
      assert (Hlook : forall last,
                 rateLimiter s1 !! subnet_of (198, 51, 100, last) = Some (T + e)).
      { intros last. subst s1. apply lookup_insert_eq. }
      split.
      * destruct (admission_cases s1 (T + 200) (198, 51, 100, 240))
          as [(_ & Ha' & _)|(Hl' & _)]; [lia | exact Ha' |].
        unfold isRateLimited in Hl'.
        rewrite Hlook in Hl'.
        destruct (Z.eqb_spec (T + e) 0); [lia|].
        destruct (Z.ltb_spec (T + 200 - (T + e)) 1000); [discriminate Hl' | lia].
      * destruct (admission_cases s1 (T + 1100) (198, 51, 100, 7))
          as [(Hl' & _)|(_ & Ha' & _)]; [lia | | exact Ha'].
        unfold isRateLimited in Hl'.
        rewrite Hlook in Hl'.
        destruct (Z.eqb_spec (T + e) 0); [lia|].
        destruct (Z.ltb_spec (T + 1100 - (T + e)) 1000); [lia | discriminate Hl'].
Qed.

Lemma admission_rule_witness :
  let s := this (boot main_config None t0) in
  0 < maxRetries (cfg s)
  /\ timestamps_positive s
  /\ admission_of t0 (198, 51, 100, 5) s = Allow
  /\ admission_of (t0 + 200) (198, 51, 100, 240)
       (check_finally (t0 + 40) (198, 51, 100, 5)
          (after_admission t0 (198, 51, 100, 5) s)) = Defer.
Proof.
  assert (H1 : 0 < maxRetries (cfg (this (boot main_config None t0))))
    by (vm_compute; reflexivity).
  assert (H3 : timestamps_positive (this (boot main_config None t0))).
  { intros k ts H. cbn in H. rewrite lookup_empty in H. discriminate H. }
  assert (H4 : 0 < t0) by reflexivity.
  assert (H5 : 0 <= 40 <= 100) by lia.
  split; [exact H1|]. split; [exact H3|].
  destruct (admission_rule _ t0 (198, 51, 100, 5) t0 40 H1 H3 H4 H5)
    as (_ & _ & _ & _ & Hscenario).
  destruct (Hscenario eq_refl) as (Ha & Hb & _).
  split; [exact Ha | exact Hb].
Defined.

(** ** Failed probes *)

(** What the [catch] block does when it is reached: it counts a connection
    error and waits 500 * (retryCount + 1) ms; the address is blacklisted
    when the next call finds the retry budget spent. *)
Lemma check_catch_backoff now a retryCount s :
  retryCount < maxRetries (cfg s) ->
  check_catch now a retryCount s
  = (incr_connectionErrors s,
     Some (AwaitBackoff a retryCount (now + 500 * (retryCount + 1)))).
Proof.
  intros H. unfold check_catch.
  destruct (Z.ltb_spec retryCount (maxRetries (cfg (incr_connectionErrors s))));
    [reflexivity | cbn in *; lia].
Qed.

Lemma check_start_blacklists now a retryCount s :
  maxRetries (cfg s) <= retryCount ->
  check_start now a retryCount s
  = (with_ipBlacklist ({[a]} ∪ ipBlacklist s) s, None).
Proof.
  intros H. unfold check_start.
  destruct (Z.leb_spec (maxRetries (cfg s)) retryCount); [reflexivity | lia].
Qed.

(** The retry path as the [catch] block runs it, on an address whose
    answers make [enhanceServerInfo] throw: the first retry cannot start
    before 500 ms have passed, the second before 1000 ms, and the third call
    blacklists the address. *)
Lemma thrown_errors_are_retried_then_blacklisted :
  let start := boot (config_with_batchSize 1) None t0 in
  run [Batch tape_popular_1_1_1_1; Tick 40; PingDone 0 (Some throwing_status);
       Tick 499; BackoffDone 0] start = None
  /\ run [Batch tape_popular_1_1_1_1; Tick 40; PingDone 0 (Some throwing_status);
          Tick 500; BackoffDone 0;
          Tick 40; PingDone 0 (Some throwing_status);
          Tick 999; BackoffDone 0] start = None
  /\ exists w,
       run blacklisting_run start = Some w
       /\ tasks w = []
       /\ ipBlacklist (this w) = {[ (1, 1, 1, 1) ]}
       /\ connectionErrors (st (this w)) = 2.
Proof.
  split; [vm_compute; reflexivity|]. split; [vm_compute; reflexivity|].
  eexists. split; [vm_compute; reflexivity|].
  repeat split; vm_compute; reflexivity.
Qed.

(** C3 (the scanner against the claim). A probe that fails by a connection
    error, a reset, a time-out or an unparsable answer makes
    [performServerPing] resolve to [null], and [checkMinecraftServer] then
    returns [null] from its [try] block: the task is over, with no back-off
    delay, no further attempt, no connection error counted and no entry in
    the blacklist. The retry path is taken only when an exception reaches
    the [catch] block. *)
Theorem failed_probe_is_not_retried :
  (exists w,
     run timeout_run (boot (config_with_batchSize 1) None t0) = Some w
     /\ tasks w = []
     /\ ipBlacklist (this w) = ∅
     /\ connectionErrors (st (this w)) = 0)
  /\ (forall w i a retryCount startTime timer,
        tasks w !! i = Some (AwaitPing a retryCount startTime timer) ->
        exists w',
          step (PingDone i failed_probe) w = Some w'
          /\ tasks w' = delete i (tasks w)
          /\ ipBlacklist (this w') = ipBlacklist (this w)
          /\ connectionErrors (st (this w')) = connectionErrors (st (this w))).
Proof.
  split.
  - eexists. split; [vm_compute; reflexivity|].
    repeat split; vm_compute; reflexivity.
  - intros w i a retryCount startTime timer Hi.
    eexists. split; [unfold step; rewrite Hi; reflexivity|].
    repeat split. cbn. lia.
Qed.

(** ** Invariants of a session *)

(** The parts of the state that the claims on statistics speak of. *)
Lemma check_start_stats now a retryCount s :
  let x := st s in
  let x' := st (check_start now a retryCount s).1 in
  totalScanned x' = totalScanned x /\ totalFound x' = totalFound x
  /\ avgResponseTime x' = avgResponseTime x /\ popularMOTDs x' = popularMOTDs x.
Proof.
  unfold check_start. repeat case_match; cbn; repeat split; lia.
Qed.

Lemma check_finally_stats now a s :
  let x := st s in
  let x' := st (check_finally now a s) in
  totalScanned x' = totalScanned x /\ totalFound x' = totalFound x
  /\ avgResponseTime x' = avgResponseTime x /\ popularMOTDs x' = popularMOTDs x.
Proof. cbn. repeat split; lia. Qed.

Lemma check_catch_stats now a retryCount s :
  let x := st s in
  let x' := st (check_catch now a retryCount s).1 in
  totalScanned x' = totalScanned x /\ totalFound x' = totalFound x
  /\ avgResponseTime x' = avgResponseTime x /\ popularMOTDs x' = popularMOTDs x.
Proof.
  unfold check_catch. repeat case_match; cbn; repeat split; lia.
Qed.

Lemma check_return_stats now a result s :
  let x := st s in
  let x' := st (check_return now a result s).1 in
  totalScanned x' = totalScanned x /\ totalFound x' = totalFound x
  /\ avgResponseTime x' = avgResponseTime x /\ popularMOTDs x' = popularMOTDs x.
Proof. cbn. repeat split; lia. Qed.

Lemma scan_start_stats now a s :
  let x := st s in
  let x' := st (scan_start now a s).1 in
  totalScanned x' = totalScanned x + 1 /\ totalFound x' = totalFound x
  /\ avgResponseTime x' = avgResponseTime x /\ popularMOTDs x' = popularMOTDs x.
Proof.
  unfold scan_start.
  pose proof (check_start_stats now a 0 (incr_totalScanned s)) as H.
  cbn zeta in *. destruct H as (-> & -> & -> & ->). cbn. repeat split; lia.
Qed.

Lemma performScanBatch_loop_stats n now rnd s spawned s' spawned' :
  performScanBatch_loop n now rnd s spawned = Some (s', spawned') ->
  let x := st s in
  let x' := st s' in
  Z.of_nat (length spawned') - Z.of_nat (length spawned)
    <= totalScanned x' - totalScanned x
  /\ totalFound x' = totalFound x
  /\ avgResponseTime x' = avgResponseTime x /\ popularMOTDs x' = popularMOTDs x.
Proof.
  revert rnd s spawned. induction n as [|n IH]; intros rnd s spawned; cbn zeta.
  - intros [= <- <-]. repeat split; lia.
  - cbn [performScanBatch_loop].
    destruct (activeConnections (st s) <? maxConcurrent (cfg s));
      [|intros [= <- <-]; repeat split; lia].
    destruct (generateSmartIP s rnd) as [[a rnd']|]; [|discriminate].
    destruct (bool_decide (ip_string a ∈ serverCache s)); [apply IH|].
    pose proof (scan_start_stats now a s) as Hs. cbn zeta in Hs.
    destruct (scan_start now a s) as [s1 t]. cbn [fst] in Hs.
    intros H. apply IH in H. cbn zeta in H.
    destruct Hs as (Hs1 & Hs2 & Hs3 & Hs4), H as (H1 & H2 & H3 & H4).
    rewrite length_app in H1.
    assert (length (option_list t) <= 1)%nat by (destruct t; simpl; lia).
    repeat split; try congruence; lia.
Qed.

Lemma performMaintenance_stats now gc s :
  let x := st s in
  let x' := st (performMaintenance now gc s) in
  totalScanned x' = totalScanned x /\ totalFound x' = totalFound x
  /\ avgResponseTime x' = avgResponseTime x /\ popularMOTDs x' = popularMOTDs x.
Proof.
  unfold performMaintenance. destruct gc; cbn zeta; case_match; cbn;
    repeat split; lia.
Qed.

Lemma settle_length i t ts :
  is_Some (ts !! i) ->
  length (settle i t ts)
  = match t with Some _ => length ts | None => (length ts - 1)%nat end.
Proof.
  intros Hi. destruct t; cbn.
  - apply length_insert.
  - apply length_delete. exact Hi.
Qed.

(** One step of the scanner, seen through the statistics the claims speak
    of. [None] for [moved] means [popularMOTDs] is unchanged. *)
Lemma step_stats e w w' :
  step e w = Some w' ->
  let x := st (this w) in
  let x' := st (this w') in
  match e with
  | ResetStats =>
      totalScanned x' = 0 /\ totalFound x' = totalFound x
      /\ avgResponseTime x' = 0%Q /\ popularMOTDs x' = ∅
      /\ tasks w' = tasks w
  | Batch _ =>
      tasks w = []
      /\ Z.of_nat (length (tasks w')) <= totalScanned x' - totalScanned x
      /\ totalFound x' = totalFound x
      /\ avgResponseTime x' = avgResponseTime x
      /\ popularMOTDs x' = popularMOTDs x
  | SaveDone _ =>
      totalScanned x' = totalScanned x /\ totalFound x' = totalFound x + 1
      /\ avgResponseTime x' = avgResponseTime x
      /\ popularMOTDs x' = popularMOTDs x
      /\ S (length (tasks w')) = length (tasks w)
  | _ =>
      totalScanned x' = totalScanned x /\ totalFound x' = totalFound x
      /\ avgResponseTime x' = avgResponseTime x
      /\ (popularMOTDs x' = popularMOTDs x
          \/ exists info,
               popularMOTDs x' = tally_motd (motd info) (popularMOTDs x))
      /\ (length (tasks w') <= length (tasks w))%nat
  end.
Proof.
  intros H. cbn zeta.
  destruct e; unfold step, continue, update_this in H.
  all: try (destruct (tasks w !! i) as [t|] eqn:Hi; [|discriminate];
            assert (Hsome : is_Some (tasks w !! i)) by (rewrite Hi; eauto);
            pose proof (lookup_lt_is_Some_1 _ _ Hsome) as Hlt;
            destruct t; try discriminate).
  all: repeat match type of H with
         | context [if ?b then _ else _] => destruct b eqn:?
         | context [match ?o with Ok _ => _ | Throws => _ | OutOfModel => _ end] =>
             destruct o eqn:?
         | context [match ?o with Some _ => _ | None => _ end] =>
             destruct o eqn:?
         | context [let '(_, _) := ?p in _] => destruct p eqn:?
         end; try discriminate.
  all: try (injection H as <-).
  all: cbn [this tasks clock st fst snd].
  all: try (rewrite settle_length by exact Hsome).
  all: rewrite ?length_insert, ?length_delete by exact Hsome.
  all: repeat match goal with
         | Hp : check_start ?n ?a ?r ?s = (_, _) |- _ =>
             let Hs := fresh "Hs" in
             pose proof (check_start_stats n a r s) as Hs; cbn zeta in Hs;
             rewrite Hp in Hs; cbn [fst] in Hs; clear Hp
         | Hp : performScanBatch ?n ?r ?s = Some (_, _) |- _ =>
             apply performScanBatch_loop_stats in Hp; cbn zeta in Hp
         | Hp : (_ && bool_decide (tasks _ = [])) = true |- _ =>
             apply andb_true_iff in Hp as [_ Hp];
             apply bool_decide_eq_true in Hp
         | |- context [check_catch ?n ?a ?r ?s] =>
             let Hs := fresh "Hs" in
             pose proof (check_catch_stats n a r s) as Hs; cbn zeta in Hs;
             destruct (check_catch n a r s) as [? ?]; cbn [fst snd] in *
         | |- context [performMaintenance ?n ?g ?s] =>
             let Hs := fresh "Hs" in
             pose proof (performMaintenance_stats n g s) as Hs; cbn zeta in Hs;
             generalize dependent (performMaintenance n g s); intros
         | |- context [check_finally ?n ?a ?s] =>
             let Hs := fresh "Hs" in
             pose proof (check_finally_stats n a s) as Hs; cbn zeta in Hs;
             generalize dependent (check_finally n a s); intros
         end.
  all: repeat match goal with
         | |- context [match ?t with Some _ => _ | None => _ end] => destruct t
         end.
  all: cbn in *.
  all: repeat match goal with H : _ /\ _ |- _ => destruct H end.
  all: repeat split; try congruence; try lia;
       try (left; congruence); try (right; eexists; reflexivity).
Qed.

(** A property kept by every step that a session may take holds at the end
    of every such session. *)
Lemma run_invariant (P : world -> Prop) (allowed : event -> bool) :
  (forall e w w', allowed e = true -> P w -> step e w = Some w' -> P w') ->
  forall evs w0 w,
    forallb allowed evs = true -> P w0 -> run evs w0 = Some w -> P w.
Proof.
  intros Hstep. induction evs as [|e evs IH]; intros w0 w Hall H0; cbn [run].
  - intros [= <-]. exact H0.
  - cbn [forallb] in Hall. apply andb_true_iff in Hall as [He Hall].
    destruct (step e w0) as [w1|] eqn:Hs; [|discriminate].
    apply IH; [exact Hall|]. exact (Hstep e w0 w1 He H0 Hs).
Qed.

Lemma boot_stats c d t0 :
  let x := st (this (boot c d t0)) in
  totalScanned x = 0 /\ totalFound x = loaded_totalFound d
  /\ avgResponseTime x = 0%Q /\ popularMOTDs x = ∅
  /\ tasks (boot c d t0) = [].
Proof.
  destruct d as [[lines [sv|]]|]; cbn; repeat split.
Qed.

Lemma tally_motd_ok k m :
  motd_tallies_ok m -> motd_tallies_ok (tally_motd k m).
Proof.
  intros Hm. unfold tally_motd.
  destruct (negb (Nat.eqb (length k) 0) && (5 <? Z.of_nat (length k))) eqn:Hlen;
    [|exact Hm].
  apply andb_true_iff in Hlen as [_ Hlen]. apply Z.ltb_lt in Hlen.
  destruct (Z.ltb_spec (default 0 (m !! k)) 10) as [Hlt|_]; [|exact Hm].
  intros k' c' Hk'. destruct (decide (k = k')) as [<-|Hne].
  - rewrite lookup_insert_eq in Hk'. injection Hk' as <-.
    split; [exact Hlen|].
    destruct (m !! k) as [c|] eqn:Hc; cbn in *; [|lia].
    destruct (Hm _ _ Hc) as [_ Hrange]. lia.
  - rewrite lookup_insert_ne in Hk' by exact Hne. exact (Hm _ _ Hk').
Qed.

Lemma motd_tallies_ok_empty : motd_tallies_ok ∅.
Proof. intros k c H. rewrite lookup_empty in H. discriminate H. Qed.

(** In the scanner of minecraft_scanner.js no probe writes the average
    response time: the field [avgResponseTime], which the dashboard shows
    and the reports export, is 0 after the constructor and stays 0 in every
    state the scanner reaches, whatever the response times measured. *)
Lemma avgResponseTime_stays_zero c d t0 (evs : list event) (w : world) :
  run evs (boot c d t0) = Some w ->
  avgResponseTime (st (this w)) = 0%Q.
Proof.
  apply (run_invariant (fun w => avgResponseTime (st (this w)) = 0%Q)
           (fun _ => true)).
  - intros e w0 w1 _ H0 Hstep. apply step_stats in Hstep. cbn zeta in Hstep.
    destruct e; intuition congruence.
  - apply forallb_forall. reflexivity.
  - apply boot_stats.
Qed.

Lemma avgResponseTime_stays_zero_witness :
  exists w,
    run discovery_run (boot (config_with_batchSize 1) None t0) = Some w
    /\ avgResponseTime (st (this w)) = 0%Q.
Proof.
  assert (H : run discovery_run (boot (config_with_batchSize 1) None t0)
              = Some (default (boot main_config None 0)
                        (run discovery_run
                           (boot (config_with_batchSize 1) None t0))))
    by (vm_compute; reflexivity).
  eexists. split; [exact H|].
  exact (avgResponseTime_stays_zero _ _ _ _ _ H).
Defined.

(** C6. The claim has every completed probe move the average to
    0.9 * avg + 0.1 * t, which is what [updateAverageResponseTime] of
    scanmc.js computes when a probe ends. The scanner of
    minecraft_scanner.js breaks it: after 8.8.8.8 has answered in 120 ms and
    has been saved, [avgResponseTime] is still 0, not 12. *)
Theorem response_time_is_not_averaged :
  (exists w info,
     run discovery_run (boot (config_with_batchSize 1) None t0) = Some w
     /\ lastFoundServer (st (this w)) = Some info
     /\ responseTime info = 120
     /\ avgResponseTime (st (this w)) = 0%Q
     /\ ~ (avgResponseTime (st (this w)) == spec_moving_average 0 120)%Q)
  /\ (forall avg t,
        (Scanmc.updateAverageResponseTime t avg == spec_moving_average avg t)%Q)
  /\ (Scanmc.updateAverageResponseTime 120 0 == 12)%Q.
Proof.
  split; [|split].
  - eexists. eexists. split; [vm_compute; reflexivity|].
    split; [vm_compute; reflexivity|].
    split; [reflexivity|]. split; [reflexivity|].
    vm_compute. discriminate.
  - intros avg t. unfold Scanmc.updateAverageResponseTime, spec_moving_average.
    cbn zeta. ring.
  - reflexivity.
Qed.

(** C7 as the specification words it holds in every reachable state.
    It fails right after start-up when the saved statistics carry a positive
    [totalFound], and it fails after [resetStats] once a server was found. *)
Lemma totalFound_exceeds_totalScanned :
  (let saved := {| saved_totalFound := 5; saved_serversByVersion := ∅;
                   saved_serversByCountry := ∅ |} in
   let w := boot main_config (Some ([], Some saved)) t0 in
   ~ (totalFound (st (this w)) <= totalScanned (st (this w))))
  /\ (exists w,
        run (discovery_run ++ [ResetStats])
            (boot (config_with_batchSize 1) None t0) = Some w
        /\ ~ (totalFound (st (this w)) <= totalScanned (st (this w)))).
Proof.
  split.
  - vm_compute. intros H. apply H. reflexivity.
  - eexists. split; [vm_compute; reflexivity|].
    vm_compute. intros H. apply H. reflexivity.
Qed.

(** C7 (amended). In every state reached from a start-up that loads no
    saved [totalFound] (no statistics file, or the value 0) by a session in
    which [resetStats] is not called, [totalFound <= totalScanned]; the
    servers found and the scans still in flight together never exceed the
    scans started. *)
Theorem totalFound_le_totalScanned c d t0 (evs : list event) (w : world) :
  loaded_totalFound d = 0 ->
  forallb (fun e => negb (is_ResetStats e)) evs = true ->
  run evs (boot c d t0) = Some w ->
  totalFound (st (this w)) <= totalScanned (st (this w))
  /\ totalFound (st (this w)) + Z.of_nat (length (tasks w))
     <= totalScanned (st (this w)).
Proof.
  intros Hload Hno Hrun.
  assert (H : totalFound (st (this w)) + Z.of_nat (length (tasks w))
              <= totalScanned (st (this w))).
  { revert Hrun.
    apply (run_invariant
             (fun w => totalFound (st (this w)) + Z.of_nat (length (tasks w))
                       <= totalScanned (st (this w)))
             (fun e => negb (is_ResetStats e))).
    - intros e w0 w1 He H0 Hstep. apply step_stats in Hstep. cbn zeta in Hstep.
      destruct e; try discriminate He;
        repeat match goal with H : _ /\ _ |- _ => destruct H end;
        try match goal with
            | H : tasks w0 = [] |- _ => rewrite H in H0; cbn in H0
            end;
        lia.
    - exact Hno.
    - destruct (boot_stats c d t0) as (-> & -> & _ & _ & ->). cbn. lia. }
  split; [lia | exact H].
Qed.

Lemma totalFound_le_totalScanned_witness :
  loaded_totalFound None = 0
  /\ forallb (fun e => negb (is_ResetStats e)) discovery_run = true
  /\ exists w,
       run discovery_run (boot (config_with_batchSize 1) None t0) = Some w
       /\ totalFound (st (this w)) <= totalScanned (st (this w)).
Proof.
  assert (H1 : loaded_totalFound None = 0) by reflexivity.
  assert (H2 : forallb (fun e => negb (is_ResetStats e)) discovery_run = true)
    by reflexivity.
  assert (H : run discovery_run (boot (config_with_batchSize 1) None t0)
              = Some (default (boot main_config None 0)
                        (run discovery_run
                           (boot (config_with_batchSize 1) None t0))))
    by (vm_compute; reflexivity).
  split; [exact H1|]. split; [exact H2|].
  eexists. split; [exact H|].
  exact (proj1 (totalFound_le_totalScanned _ _ _ _ _ H1 H2 H)).
Defined.

(** C10. In every state the scanner reaches, [popularMOTDs] holds only
    MOTDs longer than five characters, each with a count of at most 10 (and
    at least 1): a discovery whose MOTD has five characters or fewer is not
    tallied, and an entry that has reached 10 is not incremented. *)
Theorem popularMOTDs_bounded c d t0 (evs : list event) (w : world) :
  run evs (boot c d t0) = Some w ->
  motd_tallies_ok (popularMOTDs (st (this w)))
  /\ (forall info x,
        (length (motd info) <= 5)%nat ->
        popularMOTDs (updateServerStats info x) = popularMOTDs x)
  /\ (forall info x,
        popularMOTDs x !! motd info = Some 10 ->
        popularMOTDs (updateServerStats info x) = popularMOTDs x).
Proof.
  intros Hrun. split; [|split].
  - revert Hrun.
    apply (run_invariant
             (fun w => motd_tallies_ok (popularMOTDs (st (this w))))
             (fun _ => true)).
    + intros e w0 w1 _ H0 Hstep. apply step_stats in Hstep. cbn zeta in Hstep.
      destruct e;
        repeat match goal with
               | H : _ /\ _ |- _ => destruct H
               | H : _ \/ _ |- _ => destruct H
               | H : exists _, _ |- _ => destruct H
               end;
        match goal with
        | H : popularMOTDs _ = _ |- _ => rewrite H
        end;
        auto using tally_motd_ok, motd_tallies_ok_empty.
    + apply forallb_forall. reflexivity.
    + destruct (boot_stats c d t0) as (_ & _ & _ & -> & _).
      apply motd_tallies_ok_empty.
  - intros info x Hlen. cbn. unfold tally_motd.
    destruct (Z.ltb_spec 5 (Z.of_nat (length (motd info)))); [lia|].
    rewrite andb_false_r. reflexivity.
  - intros info x H10. cbn. unfold tally_motd. rewrite H10. cbn.
    destruct (negb _ && _); reflexivity.
Qed.

Lemma popularMOTDs_bounded_witness :
  exists w,
    run discovery_run (boot (config_with_batchSize 1) None t0) = Some w
    /\ popularMOTDs (st (this w)) !! str "Welcome" = Some 1
    /\ motd_tallies_ok (popularMOTDs (st (this w))).
Proof.
  assert (H : run discovery_run (boot (config_with_batchSize 1) None t0)
              = Some (default (boot main_config None 0)
                        (run discovery_run
                           (boot (config_with_batchSize 1) None t0))))
    by (vm_compute; reflexivity).
  eexists. split; [exact H|].
  split; [vm_compute; reflexivity|].
  exact (proj1 (popularMOTDs_bounded _ _ _ _ _ H)).
Defined.

(** * Further properties of the wire format *)

Lemma byte_of_val (n : Z) :
  0 <= n <= 255 ->
  Byte.of_N (Z.to_N n) = Some (byte_of n) /\ byte_val (byte_of n) = n.
Proof.
  intros Hn. unfold byte_of, byte_val.
  destruct (Byte.of_N (Z.to_N n)) as [b|] eqn:Hb.
  - split; [reflexivity|]. cbn. apply Byte.to_of_N in Hb. rewrite Hb. lia.
  - exfalso. apply Byte.of_N_None_iff in Hb. lia.
Qed.

Lemma writeUInt8_ok value offset buf :
  0 <= value <= 255 -> 0 <= offset < Z.of_nat (length buf) ->
  writeUInt8 value offset buf = Some (<[Z.to_nat offset := byte_of value]> buf).
Proof.
  intros Hv Ho. unfold writeUInt8.
  destruct (Z.leb_spec 0 value), (Z.leb_spec value 255),
    (Z.leb_spec 0 offset), (Z.ltb_spec offset (Z.of_nat (length buf))); try lia.
  cbn [andb]. destruct (byte_of_val value Hv) as [-> _]. reflexivity.
Qed.

Lemma writeUInt16BE_ok value offset buf :
  0 <= value <= 65535 -> 0 <= offset -> offset + 1 < Z.of_nat (length buf) ->
  writeUInt16BE value offset buf
  = Some (<[S (Z.to_nat offset) := byte_of (value mod 256)]>
            (<[Z.to_nat offset := byte_of (value / 256)]> buf)).
Proof.
  intros Hv Ho Hl. unfold writeUInt16BE.
  destruct (Z.leb_spec 0 value), (Z.leb_spec value 65535),
    (Z.leb_spec 0 offset), (Z.ltb_spec (offset + 1) (Z.of_nat (length buf)));
    try lia.
  cbn [andb].
  destruct (byte_of_val (value / 256)) as [-> _];
    [Z.div_mod_to_equations; lia|].
  destruct (byte_of_val (value mod 256)) as [-> _];
    [Z.div_mod_to_equations; lia|].
  rewrite Nat.add_1_r. reflexivity.
Qed.

(** X1. The handshake packet for a host name of [L <= 255] bytes and a port
    in 0..65535 is: packet id 0, protocol version 0, the byte [L], the host
    name, the port with its high byte first, the next state 1, and one more
    zero byte, left from the allocation of [L + 7] bytes of which [L + 6] are
    written. A longer host name or a port out of range makes it throw. *)
Theorem createHandshakePacket_layout (hostnameBuffer : list byte) (port : Z) :
  (length hostnameBuffer <= 255)%nat ->
  0 <= port <= 65535 ->
  createHandshakePacket hostnameBuffer port
  = Some ([x00; x00; byte_of (Z.of_nat (length hostnameBuffer))]
          ++ hostnameBuffer
          ++ [byte_of (port / 256); byte_of (port mod 256); x01; x00])
  /\ (forall packet, createHandshakePacket hostnameBuffer port = Some packet ->
        length packet = (length hostnameBuffer + 7)%nat)
  /\ (forall host p, (255 < length host)%nat \/ p < 0 \/ 65535 < p ->
        createHandshakePacket host p = None).
Proof.
  intros Hlen Hport.
  assert (Hlayout : createHandshakePacket hostnameBuffer port
            = Some ([x00; x00; byte_of (Z.of_nat (length hostnameBuffer))]
                    ++ hostnameBuffer
                    ++ [byte_of (port / 256); byte_of (port mod 256); x01; x00])).
  { unfold createHandshakePacket, Buffer_alloc.
    remember (length hostnameBuffer) as L eqn:HL.
    replace (L + 7)%nat with (S (S (S (L + 4)))) by lia.
    rewrite writeUInt8_ok by (rewrite ?length_insert, ?length_replicate; lia).
    cbn [mbind option_bind].
    rewrite writeUInt8_ok by (rewrite ?length_insert, ?length_replicate; lia).
    cbn [mbind option_bind].
    rewrite writeUInt8_ok by (rewrite ?length_insert, ?length_replicate; lia).
    cbn [mbind option_bind].
    change (Z.to_nat 0) with 0%nat. change (Z.to_nat (0 + 1)) with 1%nat.
    change (Z.to_nat (0 + 1 + 1)) with 2%nat.
    change (Z.to_nat (0 + 1 + 1 + 1)) with 3%nat.
    cbn [replicate list_insert insert].
    change (byte_of 0) with x00.
    unfold Buffer_copy. cbn [take drop length].
    rewrite length_replicate, <- HL.
    replace (S (S (S (L + 4))) - 3)%nat with (L + 4)%nat by lia.
    rewrite (take_ge hostnameBuffer) by lia.
    rewrite take_0.
    change (3 + L)%nat with (S (S (S L))).
    cbn [drop app]. rewrite drop_replicate.
    replace (L + 4 - L)%nat with 4%nat by lia. cbn [replicate].
    set (packet := x00 :: x00 :: byte_of (Z.of_nat L) :: hostnameBuffer
                   ++ [x00; x00; x00; x00]).
    assert (Hplen : length packet = (L + 7)%nat).
    { subst packet. cbn [length]. rewrite length_app. cbn [length]. lia. }
    rewrite writeUInt16BE_ok by lia. cbn [mbind option_bind].
    rewrite writeUInt8_ok by (rewrite ?length_insert; lia).
    f_equal.
    replace (Z.to_nat (0 + 1 + 1 + 1 + Z.of_nat L)) with (3 + L)%nat by lia.
    replace (Z.to_nat (0 + 1 + 1 + 1 + Z.of_nat L + 2)) with (3 + (L + 2))%nat by lia.
    subst packet.
    change (x00 :: x00 :: byte_of (Z.of_nat L) :: hostnameBuffer
            ++ [x00; x00; x00; x00])
      with ([x00; x00; byte_of (Z.of_nat L)]
            ++ hostnameBuffer ++ [x00; x00; x00; x00]).
    rewrite !insert_app_r_alt by (cbn [length]; lia).
    cbn [length]. rewrite <- HL.
    replace (3 + L - 3 - L)%nat with 0%nat by lia.
    replace (S (3 + L) - 3 - L)%nat with 1%nat by lia.
    replace (3 + (L + 2) - 3 - L)%nat with 2%nat by lia.
    reflexivity. }
  split; [exact Hlayout|]. split.
  - intros packet Hp. rewrite Hlayout in Hp. injection Hp as <-.
    cbn [app length]. rewrite length_app. cbn [length]. lia.
  - intros host p Hbad. unfold createHandshakePacket, Buffer_alloc.
    replace (length host + 7)%nat with (S (S (S (length host + 4)))) by lia.
    rewrite writeUInt8_ok by (rewrite ?length_insert, ?length_replicate; lia).
    cbn [mbind option_bind].
    rewrite writeUInt8_ok by (rewrite ?length_insert, ?length_replicate; lia).
    cbn [mbind option_bind].
    destruct (Z_le_gt_dec (Z.of_nat (length host)) 255) as [Hle|Hgt].
    + rewrite writeUInt8_ok by (rewrite ?length_insert, ?length_replicate; lia).
      cbn [mbind option_bind].
      assert (Hp : p < 0 \/ 65535 < p) by lia.
      unfold writeUInt16BE.
      destruct (Z.leb_spec 0 p), (Z.leb_spec p 65535); try lia; reflexivity.
    + assert (Hw : forall off buf,
                writeUInt8 (Z.of_nat (length host)) off buf = None).
      { intros off buf. unfold writeUInt8.
        destruct (Z.leb_spec (Z.of_nat (length host)) 255); [lia|].
        rewrite andb_false_r. reflexivity. }
      rewrite Hw. reflexivity.
Qed.

Lemma createHandshakePacket_layout_witness :
  (length (list_byte_of_string "1.2.3.4") <= 255)%nat
  /\ 0 <= 25565 <= 65535
  /\ createHandshakePacket (list_byte_of_string "1.2.3.4") 25565
     = Some ([x00; x00; x07] ++ list_byte_of_string "1.2.3.4"
             ++ [x63; xdd; x01; x00]).
Proof.
  assert (H1 : (length (list_byte_of_string "1.2.3.4") <= 255)%nat)
    by (vm_compute; lia).
  assert (H2 : 0 <= 25565 <= 65535) by lia.
  split; [exact H1|]. split; [exact H2|].
  exact (proj1 (createHandshakePacket_layout (list_byte_of_string "1.2.3.4")
                  25565 H1 H2)).
Defined.

Lemma varint_bytes_length g n :
  (1 <= g)%nat -> (1 <= length (varint_bytes g n) <= g)%nat.
Proof.
  revert n. induction g as [|g IH]; intros n Hg; [lia|].
  cbn [varint_bytes]. destruct (n <? 128); cbn [length]; [lia|].
  destruct g as [|g]; [cbn; lia|]. specialize (IH (n / 128) ltac:(lia)). lia.
Qed.

Lemma varint_bytes_S g n :
  varint_bytes (S g) n
  = if n <? 128 then [byte_of n]
    else byte_of (128 + n mod 128) :: varint_bytes g (n / 128).
Proof. reflexivity. Qed.

(** The loop of [readVarInt] on the encoding of [m], found after [i]
    bytes already read. *)
Lemma readVarInt_loop_decodes g : forall fuel buffer offset (i : nat) m rest,
  (i + S g <= 5)%nat -> (S g <= fuel)%nat -> 0 <= offset ->
  0 <= m < 2 ^ (7 * Z.of_nat (S g)) ->
  drop (Z.to_nat offset + i) buffer = varint_bytes (S g) m ++ rest ->
  readVarInt_loop fuel buffer offset (varint_sum buffer offset i) (Z.of_nat i)
  = Some (JS.to_int32 (varint_sum buffer offset i + m * 2 ^ (7 * Z.of_nat i)),
          Z.of_nat (i + length (varint_bytes (S g) m))).
Proof.
  induction g as [|g IH]; intros fuel buffer offset i m rest Hi Hfuel Hoff Hm Hdrop.
  all: destruct fuel as [|fuel]; [lia|].
  all: rewrite readVarInt_loop_step by lia.
  all: rewrite varint_bytes_S in Hdrop |- *.
  all: assert (Hat : forall b l, drop (Z.to_nat offset + i) buffer = b :: l ->
                    byte_at buffer offset i = Some b
                    /\ drop (Z.to_nat offset + S i) buffer = l);
    [ intros b l Hd; unfold byte_at;
      replace (Z.to_nat (offset + Z.of_nat i)) with (Z.to_nat offset + i)%nat by lia;
      split;
      [ rewrite <- (Nat.add_0_r (Z.to_nat offset + i)), <- lookup_drop, Hd;
        reflexivity
      | replace (Z.to_nat offset + S i)%nat with (1 + (Z.to_nat offset + i))%nat by lia;
        rewrite Nat.add_comm, <- drop_drop, Hd; reflexivity ] |].
  all: destruct (Z.ltb_spec m 128) as [Hsmall|Hbig];
    [ cbn [app] in Hdrop; destruct (Hat _ _ Hdrop) as [Hb _]; rewrite Hb;
      destruct (byte_of_val m ltac:(lia)) as [_ Hval];
      assert (Hc : has_continuation (byte_of m) = false)
        by (unfold has_continuation;
            rewrite Hval, Z.testbit_odd, Z.shiftr_div_pow2 by lia;
            change (2 ^ 7) with 128; rewrite Z.div_small by lia; reflexivity);
      rewrite Hc; cbn [andb length]; rewrite Nat.add_1_r;
      cbn [varint_sum]; rewrite Hb; cbn [from_option];
      unfold payload; rewrite Hval, Z.mod_small by lia; reflexivity |].
  - change (2 ^ (7 * Z.of_nat 1)) with 128 in Hm. lia.
  - cbn [app] in Hdrop. destruct (Hat _ _ Hdrop) as [Hb Hd]. rewrite Hb.
      assert (Hrange : 0 <= 128 + m mod 128 <= 255)
        by (pose proof (Z.mod_pos_bound m 128); lia).
      destruct (byte_of_val _ Hrange) as [_ Hval].
      assert (Hc : has_continuation (byte_of (128 + m mod 128)) = true).
      { unfold has_continuation.
        rewrite Hval, Z.testbit_odd, Z.shiftr_div_pow2 by lia.
        change (2 ^ 7) with 128.
        replace ((128 + m mod 128) / 128) with 1
          by (Z.div_mod_to_equations; lia).
        reflexivity. }
      rewrite Hc. destruct (Nat.ltb_spec (S i) 5) as [_|?]; [|lia].
      cbn [andb].
      assert (Hpay : payload (byte_of (128 + m mod 128)) = m mod 128).
      { unfold payload. rewrite Hval.
        replace (128 + m mod 128) with (m mod 128 + 1 * 128) by lia.
        rewrite Z.mod_add by lia. apply Z.mod_mod. lia. }
      rewrite (IH fuel buffer offset (S i) (m / 128) rest);
        [| lia | lia | lia | | exact Hd].
      * cbn [varint_sum length]. rewrite Hb. cbn [from_option]. rewrite Hpay.
        f_equal. f_equal.
        -- f_equal.
           replace (7 * Z.of_nat (S i)) with (7 * Z.of_nat i + 7) by lia.
           rewrite Z.pow_add_r by lia. change (2 ^ 7) with 128.
           pose proof (Z.div_mod m 128 ltac:(lia)). nia.
        -- lia.
      * split; [apply Z.div_pos; lia|].
        apply Z.div_lt_upper_bound; [lia|].
        replace (7 * Z.of_nat (S (S g))) with (7 + 7 * Z.of_nat (S g)) in Hm by lia.
        rewrite Z.pow_add_r in Hm by lia. change (2 ^ 7) with 128 in Hm. lia.
Qed.

Lemma to_int32_to_uint32 n :
  - 2 ^ 31 <= n < 2 ^ 31 -> JS.to_int32 (JS.to_uint32 n) = n.
Proof.
  unfold JS.to_int32, JS.to_uint32.
  change (2 ^ 31) with 2147483648. change (2 ^ 32) with 4294967296.
  intros H. Z.div_mod_to_equations. lia.
Qed.

Lemma encodeVarInt_length n : (1 <= length (encodeVarInt n) <= 5)%nat.
Proof. apply varint_bytes_length. lia. Qed.

Lemma readVarInt_decodes_encoding (n : Z) (before after : list byte) :
  - 2 ^ 31 <= n < 2 ^ 31 ->
  readVarInt (before ++ encodeVarInt n ++ after) (Z.of_nat (length before))
  = Some (n, Z.of_nat (length (encodeVarInt n))).
Proof.
  intros Hn.
  unfold readVarInt, encodeVarInt.
  pose proof (readVarInt_loop_decodes 4 5
                (before ++ varint_bytes 5 (JS.to_uint32 n) ++ after)
                (Z.of_nat (length before)) 0 (JS.to_uint32 n) after) as H.
  cbn [varint_sum Nat.add] in H. change (Z.of_nat 0) with 0 in H.
  rewrite H.
  - change (2 ^ (7 * 0)) with 1. rewrite Z.add_0_l, Z.mul_1_r.
    rewrite to_int32_to_uint32 by exact Hn. reflexivity.
  - lia.
  - lia.
  - lia.
  - unfold JS.to_uint32. change (2 ^ (7 * Z.of_nat 5)) with 34359738368.
    change (2 ^ 32) with 4294967296. Z.div_mod_to_equations. lia.
  - rewrite Nat2Z.id, Nat.add_0_r, drop_app_length. reflexivity.
Qed.

(** X2. [readVarInt] is the inverse of the VarInt encoding of the protocol
    on every signed 32-bit integer, wherever the encoding stands in the
    buffer: it returns the integer and the number of bytes of the encoding,
    between one and five. *)
Theorem readVarInt_encodeVarInt (n : Z) (before after : list byte) :
  - 2 ^ 31 <= n < 2 ^ 31 ->
  readVarInt (before ++ encodeVarInt n ++ after) (Z.of_nat (length before))
  = Some (n, Z.of_nat (length (encodeVarInt n)))
  /\ (1 <= length (encodeVarInt n) <= 5)%nat.
Proof.
  intros Hn. split; [|apply encodeVarInt_length].
  apply readVarInt_decodes_encoding. exact Hn.
Qed.

Lemma readVarInt_encodeVarInt_witness :
  - 2 ^ 31 <= 300 < 2 ^ 31
  /\ readVarInt ([x01; x00] ++ encodeVarInt 300 ++ [xff]) 2 = Some (300, 2).
Proof.
  assert (H : - 2 ^ 31 <= 300 < 2 ^ 31) by (change (2 ^ 31) with 2147483648; lia).
  split; [exact H|].
  exact (proj1 (readVarInt_encodeVarInt 300 [x01; x00] [xff] H)).
Defined.

(** X3. A status response framed as the protocol frames it (packet length,
    packet id 0, JSON length, JSON text, the lengths as VarInts of any
    size) is parsed on the strict path: [parseServerResponse] hands exactly
    the JSON bytes to [JSON.parse] and returns its result. *)
Theorem parseServerResponse_status_frame
    (JSON_parse : list byte -> option value) (json : list byte) (v : value) :
  (0 < length json)%nat ->
  Z.of_nat (length json) + 6 < 2 ^ 31 ->
  JSON_parse json = Some v ->
  parseServerResponse JSON_parse (status_frame json) = v.
Proof.
  intros Hpos Hlen Hparse.
  change (2 ^ 31) with 2147483648 in Hlen.
  set (l2 := encodeVarInt (Z.of_nat (length json))).
  set (body := x00 :: l2 ++ json).
  set (l1 := encodeVarInt (Z.of_nat (length body))).
  pose proof (encodeVarInt_length (Z.of_nat (length json))) as Hl2. fold l2 in Hl2.
  pose proof (encodeVarInt_length (Z.of_nat (length body))) as Hl1. fold l1 in Hl1.
  assert (Hbody : length body = (1 + length l2 + length json)%nat).
  { subst body. cbn [length]. rewrite length_app. lia. }
  assert (Hframe : status_frame json = l1 ++ body) by reflexivity.
  assert (Htotal : length (status_frame json) = (length l1 + length body)%nat).
  { rewrite Hframe. apply length_app. }
  assert (Hint : forall k, 0 <= k <= Z.of_nat (length json) + 6 ->
                   - 2 ^ 31 <= k < 2 ^ 31).
  { intros k Hk. change (2 ^ 31) with 2147483648. lia. }
  (* the three VarInts *)
  assert (H1 : readVarInt (status_frame json) 0
               = Some (Z.of_nat (length body), Z.of_nat (length l1))).
  { rewrite Hframe.
    apply (readVarInt_decodes_encoding (Z.of_nat (length body)) [] body
             (Hint (Z.of_nat (length body)) ltac:(lia))). }
  assert (H2 : readVarInt (status_frame json) (Z.of_nat (length l1)) = Some (0, 1)).
  { rewrite Hframe.
    change body with (encodeVarInt 0 ++ (l2 ++ json)).
    apply (readVarInt_decodes_encoding 0 l1 (l2 ++ json) (Hint 0 ltac:(lia))). }
  assert (H3 : readVarInt (status_frame json) (Z.of_nat (length l1) + 1)
               = Some (Z.of_nat (length json), Z.of_nat (length l2))).
  { rewrite Hframe.
    replace (l1 ++ body) with ((l1 ++ [x00]) ++ l2 ++ json)
      by (subst body; rewrite <- app_assoc; reflexivity).
    replace (Z.of_nat (length l1) + 1) with (Z.of_nat (length (l1 ++ [x00])))
      by (rewrite length_app; cbn [length]; lia).
    apply (readVarInt_decodes_encoding (Z.of_nat (length json)) (l1 ++ [x00])
             json (Hint (Z.of_nat (length json)) ltac:(lia))). }
  unfold parseServerResponse.
  destruct (Nat.ltb_spec (length (status_frame json)) 2) as [?|_]; [lia|].
  unfold parse_framed. rewrite H1. cbn zeta. rewrite Z.add_0_l.
  destruct (Z.leb_spec (Z.of_nat (length body)) 0) as [?|_]; [lia|].
  destruct (Z.leb_spec (Z.of_nat (length (status_frame json)))
              (Z.of_nat (length l1))) as [?|_]; [lia|].
  cbn [orb]. rewrite H2, H3.
  destruct (Z.leb_spec (Z.of_nat (length json)) 0) as [?|_]; [lia|].
  destruct (Z.ltb_spec (Z.of_nat (length (status_frame json)))
              (Z.of_nat (length l1) + 1 + Z.of_nat (length l2)
               + Z.of_nat (length json))) as [?|_]; [lia|].
  cbn [orb].
  assert (Hslice : slice (status_frame json)
                     (Z.of_nat (length l1) + 1 + Z.of_nat (length l2))
                     (Z.of_nat (length l1) + 1 + Z.of_nat (length l2)
                      + Z.of_nat (length json)) = json).
  { unfold slice. rewrite Hframe.
    replace (l1 ++ body) with ((l1 ++ x00 :: l2) ++ json)
      by (subst body; rewrite <- app_assoc; reflexivity).
    replace (Z.to_nat (Z.of_nat (length l1) + 1 + Z.of_nat (length l2)))
      with (length (l1 ++ x00 :: l2))
      by (rewrite length_app; cbn [length]; lia).
    rewrite drop_app_length.
    apply take_ge. lia. }
  rewrite Hslice, Hparse. reflexivity.
Qed.

Lemma parseServerResponse_status_frame_witness :
  let JSON_parse := fun text : list byte =>
    if decide (text = welcome_json) then Some welcome_status else None in
  (0 < length welcome_json)%nat
  /\ Z.of_nat (length welcome_json) + 6 < 2 ^ 31
  /\ JSON_parse welcome_json = Some welcome_status
  /\ parseServerResponse JSON_parse (status_frame welcome_json) = welcome_status.
Proof.
  set (JSON_parse := fun text : list byte =>
         if decide (text = welcome_json) then Some welcome_status else None).
  assert (H1 : (0 < length welcome_json)%nat) by (vm_compute; lia).
  assert (H2 : Z.of_nat (length welcome_json) + 6 < 2 ^ 31) by reflexivity.
  assert (H3 : JSON_parse welcome_json = Some welcome_status)
    by (vm_compute; reflexivity).
  split; [exact H1|]. split; [exact H2|]. split; [exact H3|].
  exact (parseServerResponse_status_frame JSON_parse welcome_json welcome_status
           H1 H2 H3).
Defined.

(** X4. A response shorter than two bytes, or one whose packet-length byte
    is zero, yields [null] at once: on a zero packet length
    [parseServerResponse] returns from inside its [try] block, so the
    brace-matching fallback is not tried, whatever JSON the rest of the
    buffer holds. *)
Theorem parseServerResponse_zero_packet_length
    (JSON_parse : list byte -> option value) (rest : list byte) :
  parseServerResponse JSON_parse (x00 :: rest) = VNull
  /\ parseServerResponse JSON_parse [] = VNull
  /\ forall b, parseServerResponse JSON_parse [b] = VNull.
Proof.
  split; [|split; [reflexivity | intros b; reflexivity]].
  unfold parseServerResponse.
  destruct (Nat.ltb_spec (length (x00 :: rest)) 2) as [_|_]; [reflexivity|].
  unfold parse_framed.
  assert (H : readVarInt (x00 :: rest) 0 = Some (0, 1)).
  { assert (Hint : - 2 ^ 31 <= 0 < 2 ^ 31)
      by (change (2 ^ 31) with 2147483648; lia).
    exact (readVarInt_decodes_encoding 0 [] rest Hint). }
  rewrite H. reflexivity.
Qed.

Lemma rest_of_line_prefix bs : exists tail, bs = rest_of_line bs ++ tail.
Proof.
  induction bs as [|b rest [tail IH]]; [exists []; reflexivity|].
  cbn [rest_of_line]. destruct (at_line_terminator (b :: rest)).
  - exists (b :: rest). reflexivity.
  - exists tail. cbn [app]. rewrite <- IH. reflexivity.
Qed.

Lemma rest_of_line_no_terminator bs b :
  b ∈ rest_of_line bs -> b <> x0a /\ b <> x0d.
Proof.
  induction bs as [|c rest IH]; cbn [rest_of_line]; [intros H; inversion H|].
  destruct (at_line_terminator (c :: rest)) eqn:E; [intros H; inversion H|].
  intros [->|H]%elem_of_cons; [|exact (IH H)].
  split; intros ->; discriminate E.
Qed.

Lemma is_closing_brace_true b : is_closing_brace b = true -> b = x7d.
Proof. destruct b; (reflexivity || discriminate). Qed.

Lemma drop_until_closing_brace_suffix bs :
  exists skipped, bs = skipped ++ drop_until_closing_brace bs.
Proof.
  induction bs as [|b rest [skipped IH]]; [exists []; reflexivity|].
  cbn [drop_until_closing_brace]. destruct (is_closing_brace b).
  - exists []. reflexivity.
  - exists (b :: skipped). cbn [app]. rewrite <- IH. reflexivity.
Qed.

Lemma drop_until_closing_brace_head bs b found :
  drop_until_closing_brace bs = b :: found -> b = x7d.
Proof.
  induction bs as [|c rest IH]; cbn [drop_until_closing_brace]; [discriminate|].
  destruct (is_closing_brace c) eqn:E; [|exact IH].
  intros [= -> _]. apply is_closing_brace_true, E.
Qed.

Lemma drop_until_closing_brace_none bs :
  x7d ∉ bs -> drop_until_closing_brace bs = [].
Proof.
  induction bs as [|c rest IH]; [reflexivity|].
  intros H. apply not_elem_of_cons in H as [Hc Hrest].
  cbn [drop_until_closing_brace].
  destruct (is_closing_brace c) eqn:E; [|exact (IH Hrest)].
  apply is_closing_brace_true in E. congruence.
Qed.

Lemma through_last_closing_brace_some line found :
  through_last_closing_brace line = Some found ->
  exists inner tail, found = inner ++ [x7d] /\ line = found ++ tail.
Proof.
  unfold through_last_closing_brace.
  destruct (drop_until_closing_brace_suffix (rev line)) as [skipped Hs].
  destruct (drop_until_closing_brace (rev line)) as [|b r] eqn:E; [discriminate|].
  intros [= <-].
  apply drop_until_closing_brace_head in E as ->.
  exists (rev r), (rev skipped). split; [reflexivity|].
  rewrite <- (rev_involutive line), Hs, rev_app_distr. reflexivity.
Qed.

Lemma through_last_closing_brace_none line :
  x7d ∉ line -> through_last_closing_brace line = None.
Proof.
  intros H. unfold through_last_closing_brace.
  rewrite drop_until_closing_brace_none; [reflexivity|].
  intros Hin. apply H. apply list_elem_of_In, in_rev, list_elem_of_In. exact Hin.
Qed.

(** X5. What the fallback pattern [/{.*}/] extracts is a contiguous piece
    of the response that starts with an opening brace, ends with a closing
    brace and has no line break in between; a response with no opening
    brace, or with no closing brace, gives no match. *)
Theorem match_braces_sound (bs : list byte) :
  (forall jsonMatch, match_braces bs = Some jsonMatch ->
     exists before inner after,
       bs = before ++ jsonMatch ++ after
       /\ jsonMatch = x7b :: inner ++ [x7d]
       /\ (x0a ∉ jsonMatch) /\ (x0d ∉ jsonMatch))
  /\ (x7b ∉ bs \/ x7d ∉ bs -> match_braces bs = None).
Proof.
  split.
  - induction bs as [|b rest IH]; intros m; cbn [match_braces]; [discriminate|].
    assert (Hskip : match_braces rest = Some m ->
              exists before inner after,
                b :: rest = before ++ m ++ after
                /\ m = x7b :: inner ++ [x7d] /\ (x0a ∉ m) /\ (x0d ∉ m)).
    { intros H. destruct (IH m H) as (before & inner & after & -> & Hm).
      exists (b :: before), inner, after. split; [reflexivity|exact Hm]. }
    destruct (decide (b = x7b)) as [->|Hb].
    + destruct (through_last_closing_brace (rest_of_line rest)) as [found|] eqn:E;
        [|exact Hskip].
      intros [= <-].
      apply through_last_closing_brace_some in E as (inner & tail & -> & Hline).
      destruct (rest_of_line_prefix rest) as [tail' Hrest].
      exists [], inner, (tail ++ tail'). split; [|split; [reflexivity|]].
      * cbn [app]. f_equal. rewrite app_assoc, <- Hline. exact Hrest.
      * assert (Hno : forall c, c ∈ inner ++ [x7d] -> c <> x0a /\ c <> x0d).
        { intros c Hc. apply (rest_of_line_no_terminator rest).
          rewrite Hline. apply elem_of_app. left. exact Hc. }
        split; intros [Heq|Hin]%elem_of_cons; try discriminate Heq.
        -- apply Hno in Hin as [H _]. congruence.
        -- apply Hno in Hin as [_ H]. congruence.
    + destruct b; try exact Hskip. congruence.
  - induction bs as [|b rest IH]; [reflexivity|].
    intros H. cbn [match_braces].
    assert (Hrest : match_braces rest = None).
    { apply IH. destruct H as [H|H]; [left|right];
        intros Hin; apply H; apply elem_of_cons; right; exact Hin. }
    destruct (decide (b = x7b)) as [->|Hb].
    + destruct H as [H|H]; [exfalso; apply H; apply elem_of_cons; left; reflexivity|].
      rewrite through_last_closing_brace_none; [exact Hrest|].
      intros Hin. apply H. apply elem_of_cons. right.
      destruct (rest_of_line_prefix rest) as [tail ->].
      apply elem_of_app. left. exact Hin.
    + destruct b; try exact Hrest. congruence.
Qed.

Lemma match_braces_sound_witness :
  match_braces (x0a :: welcome_json ++ [x0a; x7d]) = Some welcome_json
  /\ exists before inner after,
       x0a :: welcome_json ++ [x0a; x7d] = before ++ welcome_json ++ after
       /\ welcome_json = x7b :: inner ++ [x7d]
       /\ (x0a ∉ welcome_json) /\ (x0d ∉ welcome_json).
Proof.
  assert (H : match_braces (x0a :: welcome_json ++ [x0a; x7d]) = Some welcome_json)
    by (vm_compute; reflexivity).
  split; [exact H|].
  exact (proj1 (match_braces_sound (x0a :: welcome_json ++ [x0a; x7d]))
           welcome_json H).
Defined.

(** * Further properties of the address generator *)

Lemma is_random_spec r : is_random r = true -> (0 <= r)%Q /\ (r < 1)%Q.
Proof.
  unfold is_random. intros [H0 H1]%andb_true_iff.
  apply Qle_bool_iff in H0. apply negb_true_iff in H1.
  split; [exact H0|].
  apply Qnot_le_lt. intros Hle. apply Qle_bool_iff in Hle. congruence.
Qed.

Lemma random_below_range r n :
  is_random r = true -> 0 < n -> 0 <= random_below r n < n.
Proof.
  intros [H0 H1]%is_random_spec Hn. unfold random_below.
  assert (Hn' : (inject_Z 0 < inject_Z n)%Q) by (rewrite <- Zlt_Qlt; exact Hn).
  split.
  - change 0 with (Qfloor 0). apply Qfloor_resp_le.
    apply Qmult_le_0_compat; [exact H0 | apply Qlt_le_weak, Hn'].
  - rewrite Zlt_Qlt.
    apply Qle_lt_trans with (r * inject_Z n)%Q; [apply Qfloor_le|].
    apply Qlt_le_trans with (1 * inject_Z n)%Q.
    + apply Qmult_lt_compat_r; assumption.
    + apply Qle_lteq. right. apply Qmult_1_l.
Qed.

Lemma address_eq (a b c d a' b' c' d' : Z) :
  a = a' -> b = b' -> c = c' -> d = d' -> ((a, b, c, d) : address) = (a', b', c', d').
Proof. congruence. Qed.

Lemma to_int32_mod z : JS.to_int32 z mod 2 ^ 32 = z mod 2 ^ 32.
Proof.
  unfold JS.to_int32. change (2 ^ 31) with 2147483648.
  change (2 ^ 32) with 4294967296. Z.div_mod_to_equations. lia.
Qed.

Lemma band_255 x : JS.band x 0xFF = x mod 256.
Proof.
  unfold JS.band.
  rewrite (to_int32_small 255) by (change (2 ^ 31) with 2147483648; lia).
  change 255 with (Z.ones 8). rewrite Z.land_ones by lia.
  change (2 ^ 8) with 256.
  rewrite to_int32_small.
  - pose proof (to_int32_mod x) as H. change (2 ^ 32) with 4294967296 in H.
    Z.div_mod_to_equations. lia.
  - change (2 ^ 31) with 2147483648. Z.div_mod_to_equations. lia.
Qed.

Lemma ushr_div num k :
  0 <= k < 32 -> JS.ushr num k = (num mod 2 ^ 32) / 2 ^ k.
Proof.
  intros Hk. unfold JS.ushr, JS.to_uint32.
  change (2 ^ 32) with 4294967296.
  rewrite (Z.mod_small k 4294967296) by lia.
  rewrite (Z.mod_small k 32) by lia.
  apply Z.shiftr_div_pow2. lia.
Qed.

Lemma numberToIP_spec num :
  let n := num mod 2 ^ 32 in
  numberToIP num = (n / 2 ^ 24, n / 2 ^ 16 mod 256, n / 2 ^ 8 mod 256, n mod 256).
Proof.
  cbn zeta. unfold numberToIP.
  rewrite !band_255, !ushr_div by lia.
  change (2 ^ 32) with 4294967296. change (2 ^ 24) with 16777216.
  change (2 ^ 16) with 65536. change (2 ^ 8) with 256.
  apply address_eq; Z.div_mod_to_equations; lia.
Qed.

Lemma shl_8 x : JS.shl x 8 mod 2 ^ 32 = (x * 256) mod 2 ^ 32.
Proof.
  unfold JS.shl.
  change (JS.to_uint32 8 mod 32) with 8.
  rewrite Z.shiftl_mul_pow2 by lia. change (2 ^ 8) with 256.
  rewrite to_int32_mod.
  pose proof (to_int32_mod x) as H. change (2 ^ 32) with 4294967296 in *.
  Z.div_mod_to_equations. lia.
Qed.

Lemma isValidIP_octets p0 p1 p2 p3 :
  isValidIP (p0, p1, p2, p3) = true <->
  0 <= p0 <= 255 /\ 0 <= p1 <= 255 /\ 0 <= p2 <= 255 /\ 0 <= p3 <= 255.
Proof.
  unfold isValidIP, octet_ok. rewrite !andb_true_iff, !Z.leb_le. tauto.
Qed.

Lemma ipToNumber_spec p0 p1 p2 p3 :
  isValidIP (p0, p1, p2, p3) = true ->
  ipToNumber (p0, p1, p2, p3) = p0 * 2 ^ 24 + p1 * 2 ^ 16 + p2 * 2 ^ 8 + p3.
Proof.
  intros H%isValidIP_octets. unfold ipToNumber, JS.to_uint32.
  cbn [fold_left].
  pose proof (shl_8 0) as H0.
  pose proof (shl_8 (JS.shl 0 8 + p0)) as H1.
  pose proof (shl_8 (JS.shl (JS.shl 0 8 + p0) 8 + p1)) as H2.
  pose proof (shl_8 (JS.shl (JS.shl (JS.shl 0 8 + p0) 8 + p1) 8 + p2)) as H3.
  change (2 ^ 32) with 4294967296 in *. change (2 ^ 24) with 16777216.
  change (2 ^ 16) with 65536. change (2 ^ 8) with 256.
  Z.div_mod_to_equations. lia.
Qed.

Lemma numberToIP_ipToNumber_range a :
  isValidIP a = true -> 0 <= ipToNumber a < 2 ^ 32.
Proof.
  destruct a as [[[p0 p1] p2] p3]. intros Hv.
  rewrite (ipToNumber_spec p0 p1 p2 p3 Hv). apply isValidIP_octets in Hv.
  change (2 ^ 32) with 4294967296. change (2 ^ 24) with 16777216.
  change (2 ^ 16) with 65536. change (2 ^ 8) with 256. lia.
Qed.

Lemma numberToIP_ipToNumber_id a :
  isValidIP a = true -> numberToIP (ipToNumber a) = a.
Proof.
  destruct a as [[[p0 p1] p2] p3]. intros Hv.
  rewrite numberToIP_spec, (ipToNumber_spec p0 p1 p2 p3 Hv).
  apply isValidIP_octets in Hv.
  change (2 ^ 32) with 4294967296. change (2 ^ 24) with 16777216.
  change (2 ^ 16) with 65536. change (2 ^ 8) with 256.
  apply address_eq; Z.div_mod_to_equations; lia.
Qed.

(** X6. Converting a valid dotted address to its 32-bit number and back
    gives the address again, also when the first octet is 128 or more and
    the shifts of [ipToNumber] pass through negative 32-bit values; the
    number is the unsigned one, [p0 * 2^24 + p1 * 2^16 + p2 * 2^8 + p3]. *)
Theorem numberToIP_ipToNumber (a : address) :
  isValidIP a = true ->
  numberToIP (ipToNumber a) = a
  /\ 0 <= ipToNumber a < 2 ^ 32
  /\ (let '(p0, p1, p2, p3) := a in
      ipToNumber a = p0 * 2 ^ 24 + p1 * 2 ^ 16 + p2 * 2 ^ 8 + p3).
Proof.
  destruct a as [[[p0 p1] p2] p3]. intros Hv.
  pose proof (ipToNumber_spec p0 p1 p2 p3 Hv) as Hn.
  apply isValidIP_octets in Hv.
  rewrite numberToIP_spec, Hn.
  change (2 ^ 32) with 4294967296. change (2 ^ 24) with 16777216.
  change (2 ^ 16) with 65536. change (2 ^ 8) with 256.
  split; [|split; [lia | reflexivity]].
  apply address_eq; Z.div_mod_to_equations; lia.
Qed.

Lemma numberToIP_ipToNumber_witness :
  isValidIP (208, 67, 222, 1) = true
  /\ numberToIP (ipToNumber (208, 67, 222, 1)) = (208, 67, 222, 1).
Proof.
  assert (H : isValidIP (208, 67, 222, 1) = true) by reflexivity.
  split; [exact H|].
  exact (proj1 (numberToIP_ipToNumber (208, 67, 222, 1) H)).
Defined.

Lemma numberToIP_valid num : isValidIP (numberToIP num) = true.
Proof.
  rewrite numberToIP_spec. cbn zeta. apply isValidIP_octets.
  change (2 ^ 32) with 4294967296. change (2 ^ 24) with 16777216.
  change (2 ^ 16) with 65536. change (2 ^ 8) with 256.
  repeat split; Z.div_mod_to_equations; lia.
Qed.

Lemma ipToNumber_numberToIP num : ipToNumber (numberToIP num) = num mod 2 ^ 32.
Proof.
  pose proof (numberToIP_valid num) as Hv. revert Hv.
  rewrite numberToIP_spec. cbn zeta. intros Hv.
  rewrite ipToNumber_spec by exact Hv.
  change (2 ^ 32) with 4294967296. change (2 ^ 24) with 16777216.
  change (2 ^ 16) with 65536. change (2 ^ 8) with 256.
  Z.div_mod_to_equations. lia.
Qed.

(** Clearing the low [h] bits. *)
Lemma land_high_bits x h : 0 <= h -> Z.land x (- 2 ^ h) = x / 2 ^ h * 2 ^ h.
Proof.
  intros Hh.
  replace (- 2 ^ h) with (Z.lnot (Z.ones h))
    by (rewrite Z.ones_equiv; unfold Z.lnot; lia).
  rewrite <- Z.ldiff_land, Z.ldiff_ones_r by exact Hh.
  rewrite Z.shiftl_mul_pow2, Z.shiftr_div_pow2 by exact Hh. reflexivity.
Qed.

(** [(0xFFFFFFFF << h) >>> 0], as [&] reads it. *)
Lemma to_int32_mask h :
  0 <= h <= 31 -> JS.to_int32 (JS.ushr (JS.shl 0xFFFFFFFF h) 0) = - 2 ^ h.
Proof.
  intros Hh.
  assert (Hpow : 2 ^ h <= 2 ^ 31) by (apply Z.pow_le_mono_r; lia).
  assert (Hpos : 0 < 2 ^ h) by (apply Z.pow_pos_nonneg; lia).
  assert (Hshl : JS.shl 0xFFFFFFFF h = - 2 ^ h).
  { unfold JS.shl. change (JS.to_int32 4294967295) with (-1).
    unfold JS.to_uint32. change (2 ^ 32) with 4294967296.
    rewrite (Z.mod_small h 4294967296), (Z.mod_small h 32) by lia.
    rewrite Z.shiftl_mul_pow2 by lia.
    apply to_int32_small. change (2 ^ 31) with 2147483648 in *. lia. }
  rewrite Hshl, ushr_div by lia. change (2 ^ 0) with 1. rewrite Z.div_1_r.
  unfold JS.to_int32. change (2 ^ 31) with 2147483648 in *.
  change (2 ^ 32) with 4294967296. Z.div_mod_to_equations. lia.
Qed.

(** [(base & mask) | randomHost] for a prefix of 1 to 32 bits. *)
Lemma bor_band_mask base h host :
  0 <= h <= 31 -> 0 <= base < 2 ^ 32 -> 0 <= host < 2 ^ h ->
  JS.bor (JS.band base (JS.ushr (JS.shl 0xFFFFFFFF h) 0)) host mod 2 ^ 32
  = base - base mod 2 ^ h + host.
Proof.
  intros Hh Hbase Hhost.
  set (P := 2 ^ h) in *. set (K := 2 ^ (32 - h)).
  assert (HP : 0 < P) by (apply Z.pow_pos_nonneg; lia).
  assert (HK : 0 < K) by (apply Z.pow_pos_nonneg; lia).
  assert (H32 : 2 ^ 32 = K * P).
  { unfold K, P. rewrite <- Z.pow_add_r by lia. f_equal. lia. }
  assert (H31 : 2 ^ 31 = 2 ^ (31 - h) * P).
  { unfold P. rewrite <- Z.pow_add_r by lia. f_equal. lia. }
  set (J := 2 ^ (31 - h)) in *.
  assert (HJ : 0 < J) by (apply Z.pow_pos_nonneg; lia).
  pose proof (to_int32_range base) as Hx.
  pose proof (to_int32_mod base) as Hxm.
  set (x := JS.to_int32 base) in *.
  assert (Hdiv : - J <= x / P < J).
  { split.
    - apply Z.div_le_lower_bound; [exact HP|]. lia.
    - apply Z.div_lt_upper_bound; [exact HP|]. lia. }
  assert (Hblock : - 2 ^ 31 <= x / P * P /\ x / P * P + P <= 2 ^ 31).
  { rewrite H31. split; nia. }
  assert (HxP : x mod P = base mod P).
  { assert (Hc : exists c, x = base + c * 2 ^ 32).
    { exists (x / 2 ^ 32 - base / 2 ^ 32).
      pose proof (Z.div_mod x (2 ^ 32) ltac:(lia)).
      pose proof (Z.div_mod base (2 ^ 32) ltac:(lia)). lia. }
    destruct Hc as [c ->]. rewrite H32, Z.mul_assoc. apply Z.mod_add. lia. }
  unfold JS.bor, JS.band. fold x. rewrite to_int32_mask by exact Hh.
  rewrite land_high_bits by lia. fold P.
  rewrite (to_int32_small (x / P * P)) by lia.
  rewrite (to_int32_small (x / P * P)) by lia.
  assert (HP31 : P <= 2 ^ 31) by (rewrite H31; nia).
  rewrite (to_int32_small host) by lia.
  rewrite Z.lor_comm. unfold P at 2. rewrite lor_disjoint by (fold P; lia).
  fold P. rewrite to_int32_small by lia.
  assert (Hq : x / P * P = x - x mod P).
  { pose proof (Z.div_mod x P ltac:(lia)). lia. }
  rewrite Hq, HxP.
  assert (Hc : exists c, x = base + c * 2 ^ 32).
  { exists (x / 2 ^ 32 - base / 2 ^ 32).
    pose proof (Z.div_mod x (2 ^ 32) ltac:(lia)).
    pose proof (Z.div_mod base (2 ^ 32) ltac:(lia)). lia. }
  destruct Hc as [c Hc]. rewrite Hc.
  replace (host + (base + c * 2 ^ 32 - base mod P))
    with (base - base mod P + host + c * 2 ^ 32) by lia.
  rewrite Z.mod_add by lia.
  apply Z.mod_small.
  pose proof (Z.mod_pos_bound base P HP) as Hm.
  pose proof (Z.div_mod base P ltac:(lia)) as Hb.
  assert (base / P < K).
  { apply Z.div_lt_upper_bound; [exact HP|]. lia. }
  pose proof (Z.mod_le base P ltac:(lia) HP) as Hle.
  rewrite H32. split; [lia|]. nia.
Qed.

(** X7. For a prefix of 1 to 32 bits, [generateIPFromRange] keeps the
    network part of the base address and puts the random host number in
    the remaining bits: the result is a valid address of the same block. *)
Theorem generateIPFromRange_in_block
    (baseIP : address) (prefixLength : Z) (r : Q) (rest : tape) :
  isValidIP baseIP = true -> 1 <= prefixLength <= 32 -> is_random r = true ->
  exists a,
    generateIPFromRange (baseIP, prefixLength) (r :: rest) = Some (a, rest)
    /\ isValidIP a = true
    /\ ipToNumber a
       = ipToNumber baseIP - ipToNumber baseIP mod 2 ^ (32 - prefixLength)
         + random_below r (2 ^ (32 - prefixLength))
    /\ ipToNumber a / 2 ^ (32 - prefixLength)
       = ipToNumber baseIP / 2 ^ (32 - prefixLength).
Proof.
  intros Hv Hp Hr.
  set (h := 32 - prefixLength).
  assert (HP : 0 < 2 ^ h) by (apply Z.pow_pos_nonneg; lia).
  pose proof (random_below_range r (2 ^ h) Hr HP) as Hhost.
  pose proof (numberToIP_ipToNumber_range baseIP Hv) as Hbase.
  eexists. split; [reflexivity|]. split; [apply numberToIP_valid|].
  rewrite ipToNumber_numberToIP. fold h.
  rewrite bor_band_mask by (try exact Hhost; try exact Hbase; lia).
  split; [reflexivity|].
  pose proof (Z.mod_pos_bound (ipToNumber baseIP) (2 ^ h) HP) as Hm.
  pose proof (Z.div_mod (ipToNumber baseIP) (2 ^ h) ltac:(lia)) as Hb.
  replace (ipToNumber baseIP - ipToNumber baseIP mod 2 ^ h
           + random_below r (2 ^ h))
    with (random_below r (2 ^ h) + ipToNumber baseIP / 2 ^ h * 2 ^ h) by lia.
  rewrite Z.div_add by lia. rewrite Z.div_small by lia. lia.
Qed.

Lemma generateIPFromRange_in_block_witness :
  exists a,
    generateIPFromRange ((208, 67, 222, 77), 20) [3 # 4]%Q = Some (a, [])
    /\ isValidIP a = true
    /\ ipToNumber a
       = ipToNumber (208, 67, 222, 77) - ipToNumber (208, 67, 222, 77) mod 2 ^ (32 - 20)
         + random_below (3 # 4) (2 ^ (32 - 20))
    /\ ipToNumber a / 2 ^ (32 - 20) = ipToNumber (208, 67, 222, 77) / 2 ^ (32 - 20).
Proof.
  apply (generateIPFromRange_in_block (208, 67, 222, 77) 20 (3 # 4)%Q []);
    [reflexivity | lia | reflexivity].
Defined.

Lemma ipToNumber_inj a b :
  isValidIP a = true -> isValidIP b = true -> ipToNumber a = ipToNumber b -> a = b.
Proof.
  intros Ha Hb Heq.
  rewrite <- (numberToIP_ipToNumber_id a Ha), <- (numberToIP_ipToNumber_id b Hb), Heq.
  reflexivity.
Qed.

(** The blocks of [generatePopularRangeIP] are /24 blocks: the first three
    octets of the base address stay and the last one is drawn. *)
Lemma generateIPFromRange_24 p0 p1 p2 p3 r rest :
  isValidIP (p0, p1, p2, p3) = true -> is_random r = true ->
  generateIPFromRange ((p0, p1, p2, p3), 24) (r :: rest)
  = Some ((p0, p1, p2, random_below r 256), rest).
Proof.
  intros Hv Hr.
  pose proof (random_below_range r 256 Hr ltac:(lia)) as Hd.
  assert (Hv' : isValidIP (p0, p1, p2, random_below r 256) = true).
  { apply isValidIP_octets. apply isValidIP_octets in Hv. lia. }
  cbn [generateIPFromRange]. do 2 f_equal.
  apply ipToNumber_inj; [apply numberToIP_valid | exact Hv' |].
  rewrite ipToNumber_numberToIP.
  change (32 - 24) with 8.
  rewrite bor_band_mask;
    [| lia | apply numberToIP_ipToNumber_range, Hv | exact Hd].
  rewrite (ipToNumber_spec _ _ _ _ Hv), (ipToNumber_spec _ _ _ _ Hv').
  apply isValidIP_octets in Hv.
  change (2 ^ 24) with 16777216. change (2 ^ 16) with 65536.
  change (2 ^ 8) with 256. Z.div_mod_to_equations. lia.
Qed.

Lemma isPublicIP_last_octet p0 p1 p2 p3 d :
  isPublicIP (p0, p1, p2, p3) = true -> 0 <= d <= 255 ->
  isPublicIP (p0, p1, p2, d) = true.
Proof.
  unfold isPublicIP. intros H Hd.
  destruct (isValidIP (p0, p1, p2, p3)) eqn:Hv; [|discriminate H].
  assert (Hv' : isValidIP (p0, p1, p2, d) = true).
  { apply isValidIP_octets. apply isValidIP_octets in Hv. lia. }
  rewrite Hv'. exact H.
Qed.

Lemma generatePopularRangeIP_spec (r1 r2 : Q) (rest : tape) :
  is_random r1 = true -> is_random r2 = true ->
  exists p0 p1 p2,
    generatePopularRangeIP (r1 :: r2 :: rest)
    = Some ((p0, p1, p2, random_below r2 256), rest)
    /\ (p0, p1, p2) ∈ [(8, 8, 8); (1, 1, 1); (4, 4, 4); (208, 67, 222)]
    /\ 0 <= random_below r2 256 <= 255
    /\ isPublicIP (p0, p1, p2, random_below r2 256) = true.
Proof.
  intros H1 H2.
  pose proof (random_below_range r1 4 H1 ltac:(lia)) as Hi.
  pose proof (random_below_range r2 256 H2 ltac:(lia)) as Hd.
  unfold generatePopularRangeIP. change (Z.of_nat (length popularRanges)) with 4.
  assert (Hcases : random_below r1 4 = 0 \/ random_below r1 4 = 1
                   \/ random_below r1 4 = 2 \/ random_below r1 4 = 3) by lia.
  destruct Hcases as [-> | [-> | [-> | ->]]].
  - change (popularRanges !! Z.to_nat 0) with (Some ((8, 8, 8, 0), 24)).
    exists 8, 8, 8. rewrite generateIPFromRange_24 by (reflexivity || exact H2).
    split; [reflexivity|]. split; [apply list_elem_of_In; cbn; tauto|]. split; [lia|].
    apply (isPublicIP_last_octet 8 8 8 0); [reflexivity | lia].
  - change (popularRanges !! Z.to_nat 1) with (Some ((1, 1, 1, 0), 24)).
    exists 1, 1, 1. rewrite generateIPFromRange_24 by (reflexivity || exact H2).
    split; [reflexivity|]. split; [apply list_elem_of_In; cbn; tauto|]. split; [lia|].
    apply (isPublicIP_last_octet 1 1 1 0); [reflexivity | lia].
  - change (popularRanges !! Z.to_nat 2) with (Some ((4, 4, 4, 0), 24)).
    exists 4, 4, 4. rewrite generateIPFromRange_24 by (reflexivity || exact H2).
    split; [reflexivity|]. split; [apply list_elem_of_In; cbn; tauto|]. split; [lia|].
    apply (isPublicIP_last_octet 4 4 4 0); [reflexivity | lia].
  - change (popularRanges !! Z.to_nat 3) with (Some ((208, 67, 222, 0), 24)).
    exists 208, 67, 222.
    rewrite generateIPFromRange_24 by (reflexivity || exact H2).
    split; [reflexivity|]. split; [apply list_elem_of_In; cbn; tauto|]. split; [lia|].
    apply (isPublicIP_last_octet 208 67 222 0); [reflexivity | lia].
Qed.

(** X8. The popular-range strategy draws two random numbers and returns a
    public address of one of the four /24 blocks of its list, the last
    octet being the second draw scaled to 0..255. *)
Theorem generatePopularRangeIP_public (r1 r2 : Q) (rest : tape) :
  is_random r1 = true -> is_random r2 = true ->
  exists p0 p1 p2,
    generatePopularRangeIP (r1 :: r2 :: rest)
    = Some ((p0, p1, p2, random_below r2 256), rest)
    /\ (p0, p1, p2) ∈ [(8, 8, 8); (1, 1, 1); (4, 4, 4); (208, 67, 222)]
    /\ 0 <= random_below r2 256 <= 255
    /\ isPublicIP (p0, p1, p2, random_below r2 256) = true.
Proof. apply generatePopularRangeIP_spec. Qed.

Lemma generatePopularRangeIP_public_witness :
  exists p0 p1 p2,
    generatePopularRangeIP ([3 # 4; 1 # 2] ++ [1 # 3])%Q
    = Some ((p0, p1, p2, random_below (1 # 2) 256), [1 # 3]%Q)
    /\ (p0, p1, p2) ∈ [(8, 8, 8); (1, 1, 1); (4, 4, 4); (208, 67, 222)]
    /\ 0 <= random_below (1 # 2) 256 <= 255
    /\ isPublicIP (p0, p1, p2, random_below (1 # 2) 256) = true.
Proof.
  apply (generatePopularRangeIP_public (3 # 4) (1 # 2) [1 # 3]%Q);
    reflexivity.
Defined.

(** * Further properties of the enricher *)

(** X9. The quality score is a multiple of 5 between 0 and 100; the six
    bonuses add up to 100, so the final [Math.min(score, 100)] never
    lowers it. A server with no player online scores at most 40, and with
    the other inputs equal, more players never score less. *)
Theorem calculateQualityScore_range (info info' : serverInfo) :
  0 <= calculateQualityScore info <= 100
  /\ calculateQualityScore info mod 5 = 0
  /\ (players_online info <= 0 -> calculateQualityScore info <= 40)
  /\ (motd info' = motd info -> version info' = version info ->
      responseTime info' = responseTime info ->
      players_online info <= players_online info' ->
      calculateQualityScore info <= calculateQualityScore info').
Proof.
  assert (Hscore : forall i : serverInfo,
            exists b1 b2 b3 b4 b5 b6 : bool,
              calculateQualityScore i
              = bonus b1 20 + bonus b2 20 + bonus b3 20 + bonus b4 15
                + bonus b5 15 + bonus b6 10
              /\ b1 = (0 <? players_online i)).
  { intros i. unfold calculateQualityScore.
    exists (0 <? players_online i), (10 <? players_online i),
      (50 <? players_online i),
      (negb (Nat.eqb (length (motd i)) 0) && (10 <? Z.of_nat (length (motd i)))),
      (existsb (fun v => includes (version i) v) knownVersions),
      (responseTime i <? 100).
    split; [|reflexivity].
    unfold bonus.
    repeat match goal with |- context [if ?b then _ else _] => destruct b end;
      reflexivity. }
  destruct (Hscore info) as (b1 & b2 & b3 & b4 & b5 & b6 & Hs & Hb1).
  repeat split.
  - rewrite Hs. unfold bonus. destruct b1, b2, b3, b4, b5, b6; lia.
  - rewrite Hs. unfold bonus. destruct b1, b2, b3, b4, b5, b6; lia.
  - rewrite Hs. unfold bonus. destruct b1, b2, b3, b4, b5, b6; reflexivity.
  - intros Hp. unfold calculateQualityScore.
    destruct (Z.ltb_spec 0 (players_online info)); [lia|].
    destruct (Z.ltb_spec 10 (players_online info)); [lia|].
    destruct (Z.ltb_spec 50 (players_online info)); [lia|].
    repeat match goal with |- context [if ?b then _ else _] => destruct b end;
      lia.
  - intros Hm Hv Hr Hp. unfold calculateQualityScore. rewrite Hm, Hv, Hr.
    destruct (Z.ltb_spec 0 (players_online info)),
      (Z.ltb_spec 0 (players_online info')); try lia;
    destruct (Z.ltb_spec 10 (players_online info)),
      (Z.ltb_spec 10 (players_online info')); try lia;
    destruct (Z.ltb_spec 50 (players_online info)),
      (Z.ltb_spec 50 (players_online info')); try lia;
    repeat match goal with |- context [if ?b then _ else _] => destruct b end;
      lia.
Qed.

Lemma calculateQualityScore_range_witness :
  calculateQualityScore (sample_info (1, 1, 1, 1) (str "1.20.4") 0 (str "Welcome") 0)
  <= 40
  /\ calculateQualityScore (sample_info (1, 1, 1, 1) (str "1.20.4") 0 (str "Welcome") 0)
     <= calculateQualityScore
          (sample_info (8, 8, 8, 8) (str "1.20.4") 60 (str "Welcome") 0).
Proof.
  pose proof (calculateQualityScore_range
                (sample_info (1, 1, 1, 1) (str "1.20.4") 0 (str "Welcome") 0)
                (sample_info (8, 8, 8, 8) (str "1.20.4") 60 (str "Welcome") 0))
    as (_ & _ & Hquiet & Hmore).
  split.
  - apply Hquiet. cbn. lia.
  - apply Hmore; try reflexivity. cbn. lia.
Defined.

Lemma trim_start_suffix s : exists skipped, s = skipped ++ trim_start s.
Proof.
  induction s as [|c s [skipped IH]]; [exists []; reflexivity|].
  cbn [trim_start]. destruct (is_white_space c).
  - exists (c :: skipped). cbn [app]. rewrite <- IH. reflexivity.
  - exists []. reflexivity.
Qed.

Lemma trim_start_head s c rest :
  trim_start s = c :: rest -> is_white_space c = false.
Proof.
  induction s as [|d s IH]; cbn [trim_start]; [discriminate|].
  destruct (is_white_space d) eqn:E; [exact IH|].
  intros [= -> _]. exact E.
Qed.

Lemma trim_ends s :
  (forall c rest, trim s = c :: rest -> is_white_space c = false)
  /\ (forall c front, trim s = front ++ [c] -> is_white_space c = false).
Proof.
  unfold trim.
  destruct (trim_start_suffix (rev (trim_start s))) as [skipped Hs].
  remember (trim_start (rev (trim_start s))) as t eqn:Ht.
  split.
  - intros c rest Hrev.
    assert (Ht' : t = rev rest ++ [c]).
    { rewrite <- (rev_involutive t), Hrev. reflexivity. }
    assert (Hfull : trim_start s = c :: rest ++ rev skipped).
    { rewrite <- (rev_involutive (trim_start s)), Hs, Ht', rev_app_distr.
      rewrite rev_app_distr, rev_involutive. reflexivity. }
    exact (trim_start_head _ _ _ Hfull).
  - intros c front Hrev.
    assert (Ht' : t = c :: rev front).
    { rewrite <- (rev_involutive t), Hrev, rev_app_distr. reflexivity. }
    rewrite Ht in Ht'. exact (trim_start_head _ _ _ Ht').
Qed.

(** X10. The MOTD that [extractMOTD] returns neither starts nor ends with
    white space, whatever the description of the status is. *)
Theorem extractMOTD_trimmed (rawInfo : value) (m : jsstring) :
  extractMOTD rawInfo = Ok m ->
  (forall c rest, m = c :: rest -> is_white_space c = false)
  /\ (forall c front, m = front ++ [c] -> is_white_space c = false).
Proof.
  unfold extractMOTD.
  destruct (extractDescription rawInfo) as [[| | | |s| |]| |]; cbn;
    try discriminate.
  intros [= <-]. apply trim_ends.
Qed.

Lemma extractMOTD_trimmed_witness :
  extractMOTD (VObj [(str "description", VStr (str "  A  Minecraft Server "))])
  = Ok (str "A  Minecraft Server")
  /\ (forall c rest, str "A  Minecraft Server" = c :: rest ->
        is_white_space c = false)
  /\ (forall c front, str "A  Minecraft Server" = front ++ [c] ->
        is_white_space c = false).
Proof.
  assert (H : extractMOTD
                (VObj [(str "description", VStr (str "  A  Minecraft Server "))])
              = Ok (str "A  Minecraft Server")) by reflexivity.
  split; [exact H|].
  exact (extractMOTD_trimmed _ _ H).
Defined.

Lemma default_quality info :
  players_online info = 0 -> motd info = str "No description" ->
  version info = str "Unknown" ->
  calculateQualityScore info = if responseTime info <? 100 then 25 else 15.
Proof.
  intros Hp Hm Hv. unfold calculateQualityScore. rewrite Hp, Hm, Hv.
  replace (existsb (fun v => includes (str "Unknown") v) knownVersions)
    with false by (vm_compute; reflexivity).
  replace (negb (Nat.eqb (length (str "No description")) 0)
           && (10 <? Z.of_nat (length (str "No description"))))
    with true by (vm_compute; reflexivity).
  change (0 <? 0) with false. change (10 <? 0) with false.
  change (50 <? 0) with false.
  destruct (responseTime info <? 100); reflexivity.
Qed.

Lemma enhance_literal_defaults c now a fields rt :
  assoc (str "version") fields = None ->
  assoc (str "players") fields = None ->
  assoc (str "description") fields = None ->
  assoc (str "favicon") fields = None ->
  enhance_literal c now a (VObj fields) rt
  = Ok {| ip := a; info_port := port c; timestamp := now; responseTime := rt;
          version := str "Unknown"; protocol := VStr (str "Unknown");
          players_online := 0; players_max := 0; players_sample := VArr [];
          description := str "No description"; motd := str "No description";
          favicon := str "None";
          location := None; country := str "Unknown"; qualityScore := 0 |}.
Proof.
  intros Hv Hp Hd Hf.
  unfold enhance_literal, extractMOTD, extractDescription, extractVersion,
    get, get_opt.
  rewrite Hv, Hp, Hd, Hf.
  vm_compute. reflexivity.
Qed.

(** X11. A status object that has none of the keys [version], [players],
    [description] and [favicon] is not rejected: every field of the
    enriched record takes its default, the MOTD is the default
    description, and the quality score is 15 for that MOTD plus 10 when
    the answer came within 100 ms. *)
Theorem enhanceServerInfo_defaults
    (c : config) (now : Z) (a : address) (fields : list (jsstring * value))
    (rt : Z) (loc : jsstring) :
  assoc (str "version") fields = None ->
  assoc (str "players") fields = None ->
  assoc (str "description") fields = None ->
  assoc (str "favicon") fields = None ->
  enhanceServerInfo c now a (VObj fields) rt loc
  = Ok {| ip := a; info_port := port c; timestamp := now; responseTime := rt;
          version := str "Unknown"; protocol := VStr (str "Unknown");
          players_online := 0; players_max := 0; players_sample := VArr [];
          description := str "No description"; motd := str "No description";
          favicon := str "None";
          location := if enableGeolocation c then Some loc else None;
          country := if enableGeolocation c then extractCountry loc
                     else str "Unknown";
          qualityScore := if rt <? 100 then 25 else 15 |}.
Proof.
  intros Hv Hp Hd Hf.
  unfold enhanceServerInfo.
  rewrite (enhance_literal_defaults c now a fields rt Hv Hp Hd Hf).
  cbn [mbind outcome_bind]. f_equal.
  unfold enhance_finish.
  destruct (enableGeolocation c);
    cbn [ip info_port timestamp responseTime version protocol players_online
         players_max players_sample description motd favicon location country
         qualityScore];
    rewrite default_quality by reflexivity; reflexivity.
Qed.

Lemma enhanceServerInfo_defaults_witness :
  exists info,
    enhanceServerInfo main_config t0 (203, 0, 113, 17)
      (VObj [(str "enforcesSecureChat", VBool true)]) 40 (str "Unknown")
    = Ok info
    /\ version info = str "Unknown" /\ players_online info = 0
    /\ motd info = str "No description" /\ qualityScore info = 25.
Proof.
  eexists. split.
  - apply (enhanceServerInfo_defaults main_config t0 (203, 0, 113, 17)
             [(str "enforcesSecureChat", VBool true)] 40 (str "Unknown"));
      reflexivity.
  - repeat split; reflexivity.
Defined.

(** * Further properties of the rate limiter and of the statistics *)

(** X12. [cleanupRateLimiter] deletes exactly the entries older than five
    minutes, and no later call of [isRateLimited] can tell: an entry that
    old no longer limits anything. *)
Theorem cleanupRateLimiter_invisible (s : scanner) (now later : Z) (a : address) :
  now <= later ->
  isRateLimited (cleanupRateLimiter now s) later a = isRateLimited s later a
  /\ (forall k t,
        rateLimiter (cleanupRateLimiter now s) !! k = Some t
        <-> rateLimiter s !! k = Some t /\ now - t <= 300000).
Proof.
  intros Hlater.
  assert (Hlook : forall k t,
            rateLimiter (cleanupRateLimiter now s) !! k = Some t
            <-> rateLimiter s !! k = Some t /\ now - t <= 300000).
  { intros k t. cbn [cleanupRateLimiter with_rateLimiter rateLimiter].
    rewrite map_lookup_filter_Some. cbn [snd].
    rewrite negb_true_iff, Z.ltb_ge. reflexivity. }
  split; [|exact Hlook].
  unfold isRateLimited.
  destruct (rateLimiter s !! subnet_of a) as [t|] eqn:Ht.
  - destruct (Z.le_gt_cases (now - t) 300000) as [Hfresh|Hold].
    + assert (Hkept : rateLimiter (cleanupRateLimiter now s) !! subnet_of a = Some t)
        by (apply Hlook; auto).
      rewrite Hkept. reflexivity.
    + destruct (rateLimiter (cleanupRateLimiter now s) !! subnet_of a) as [t'|] eqn:Ht'.
      * apply Hlook in Ht' as [Ht' Hfresh]. congruence.
      * destruct (Z.ltb_spec (later - t) 1000); [lia|]. symmetry. apply andb_false_r.
  - destruct (rateLimiter (cleanupRateLimiter now s) !! subnet_of a) as [t'|] eqn:Ht';
      [|reflexivity].
    apply Hlook in Ht' as [Ht' _]. congruence.
Qed.

Lemma cleanupRateLimiter_invisible_witness :
  let s := updateRateLimit (t0 + 1000) (8, 8, 8, 8)
             (updateRateLimit t0 (1, 1, 1, 1) (constructor main_config)) in
  t0 + 300500 <= t0 + 300600
  /\ rateLimiter (cleanupRateLimiter (t0 + 300500) s) !! (1, 1, 1) = None
  /\ rateLimiter (cleanupRateLimiter (t0 + 300500) s) !! (8, 8, 8) = Some (t0 + 1000)
  /\ isRateLimited (cleanupRateLimiter (t0 + 300500) s) (t0 + 300600) (1, 1, 1, 9)
     = isRateLimited s (t0 + 300600) (1, 1, 1, 9).
Proof.
  cbn zeta.
  assert (H : t0 + 300500 <= t0 + 300600) by lia.
  split; [exact H|]. split; [vm_compute; reflexivity|].
  split; [vm_compute; reflexivity|].
  exact (proj1 (cleanupRateLimiter_invisible _ _ _ (1, 1, 1, 9) H)).
Defined.

Ltac in_snoc :=
  first [ apply list_elem_of_singleton; reflexivity
        | apply elem_of_app; right; apply list_elem_of_singleton; reflexivity ].

Lemma save_all_snoc infos info x :
  save_all (infos ++ [info]) x = updateServerStats info (save_all infos x).
Proof. unfold save_all. rewrite fold_left_app. reflexivity. Qed.

(** X13. After any sequence of saves, [lastFoundServer] is the last
    server saved and [bestServer] is a server whose quality score is
    maximal among the servers saved and the best one held before. *)
Theorem save_all_best (infos : list serverInfo) (x : stats) :
  infos <> [] ->
  lastFoundServer (save_all infos x) = last infos
  /\ exists best,
       bestServer (save_all infos x) = Some best
       /\ (best ∈ infos \/ bestServer x = Some best)
       /\ (forall info, info ∈ infos -> qualityScore info <= qualityScore best)
       /\ (forall held, bestServer x = Some held ->
             qualityScore held <= qualityScore best).
Proof.
  induction infos as [|info infos IH] using rev_ind; [congruence|].
  intros _. rewrite save_all_snoc. split.
  - rewrite last_snoc. reflexivity.
  - destruct infos as [|i0 infos'].
    + cbn [save_all fold_left app updateServerStats bestServer].
      destruct (bestServer x) as [held|] eqn:Hheld.
      * destruct (Z.ltb_spec (qualityScore held) (qualityScore info)).
        -- exists info. split; [reflexivity|]. split; [left; in_snoc|].
           split; [|intros ? [= <-]; lia].
           intros i [->|Hin]%elem_of_cons; [lia | inversion Hin].
        -- exists held. split; [reflexivity|]. split; [right; reflexivity|].
           split; [|intros ? [= <-]; lia].
           intros i [->|Hin]%elem_of_cons; [lia | inversion Hin].
      * exists info. split; [reflexivity|]. split; [left; in_snoc|].
        split; [|discriminate].
        intros i [->|Hin]%elem_of_cons; [lia | inversion Hin].
    + destruct IH as (_ & best & Hbest & Horigin & Hmax & Hheld); [discriminate|].
      cbn [updateServerStats bestServer]. rewrite Hbest.
      destruct (Z.ltb_spec (qualityScore best) (qualityScore info)).
      * exists info. split; [reflexivity|]. split; [left; in_snoc|].
        split.
        -- intros i [Hin|Hin]%elem_of_app.
           ++ specialize (Hmax i Hin). lia.
           ++ apply list_elem_of_singleton in Hin as ->. lia.
        -- intros held Hh. specialize (Hheld held Hh). lia.
      * exists best. split; [reflexivity|]. split.
        -- destruct Horigin as [Hin|Hx];
             [left; apply elem_of_app; left; exact Hin | right; exact Hx].
        -- split; [|exact Hheld].
           intros i [Hin|Hin]%elem_of_app.
           ++ exact (Hmax i Hin).
           ++ apply list_elem_of_singleton in Hin as ->. lia.
Qed.

Lemma save_all_best_witness :
  let first := sample_info (1, 1, 1, 1) (str "1.20.4") 25 (str "Welcome") 55 in
  let second := sample_info (8, 8, 8, 8) (str "1.8.9") 0 (str "Welcome") 10 in
  [first; second] <> []
  /\ lastFoundServer (save_all [first; second] initial_stats) = Some second
  /\ bestServer (save_all [first; second] initial_stats) = Some first.
Proof.
  cbn zeta.
  assert (H : [sample_info (1, 1, 1, 1) (str "1.20.4") 25 (str "Welcome") 55;
               sample_info (8, 8, 8, 8) (str "1.8.9") 0 (str "Welcome") 10] <> [])
    by discriminate.
  split; [exact H|].
  split; [exact (proj1 (save_all_best _ initial_stats H)) | reflexivity].
Defined.

Lemma tally_lookup key m k :
  default 0 (tally key m !! k)
  = default 0 (m !! k) + (if decide (key = k) then 1 else 0).
Proof.
  unfold tally. destruct (decide (key = k)) as [->|Hne].
  - rewrite lookup_insert_eq. reflexivity.
  - rewrite lookup_insert_ne by exact Hne. lia.
Qed.

Lemma length_filter_snoc {A} (P : A -> Prop) `{!forall a, Decision (P a)}
    (l : list A) (a : A) :
  Z.of_nat (length (filter P (l ++ [a])))
  = Z.of_nat (length (filter P l)) + (if decide (P a) then 1 else 0).
Proof.
  rewrite filter_app, length_app.
  rewrite filter_cons, filter_nil. destruct (decide (P a)); cbn [length]; lia.
Qed.

(** X14. The three tallies count: after any sequence of saves, the entry
    of a version, of a country and of a player-count range has grown by
    the number of saved servers with that version, that country and a
    player count in that range; a missing entry counts as 0. *)
Theorem save_all_tallies (infos : list serverInfo) (x : stats) (k : jsstring) :
  default 0 (serversByVersion (save_all infos x) !! k)
  = default 0 (serversByVersion x !! k)
    + Z.of_nat (length (filter (fun info => version info = k) infos))
  /\ default 0 (serversByCountry (save_all infos x) !! k)
     = default 0 (serversByCountry x !! k)
       + Z.of_nat (length (filter (fun info => country info = k) infos))
  /\ default 0 (serversByPlayerCount (save_all infos x) !! k)
     = default 0 (serversByPlayerCount x !! k)
       + Z.of_nat (length (filter
           (fun info => getPlayerCountRange (players_online info) = k) infos)).
Proof.
  induction infos as [|info infos IH] using rev_ind.
  - cbn. repeat split; lia.
  - rewrite save_all_snoc. destruct IH as (IHv & IHc & IHp).
    cbn [updateServerStats serversByVersion serversByCountry serversByPlayerCount].
    rewrite !tally_lookup, !length_filter_snoc, IHv, IHc, IHp.
    repeat split; lia.
Qed.

Lemma isValidIP_string_nonempty ip :
  negb (Nat.eqb (length ip) 0) && isValidIP_string ip = isValidIP_string ip.
Proof. destruct ip; reflexivity. Qed.

Lemma fold_cache_add (ok : jsstring -> bool) (fields : list jsstring) :
  forall (c : list jsstring) (ip : jsstring),
    (ip ∈ fold_left (fun c f => if ok f then cache_add f c else c) fields c
     <-> ip ∈ c \/ (ip ∈ fields /\ ok ip = true))
    /\ (NoDup c ->
        NoDup (fold_left (fun c f => if ok f then cache_add f c else c) fields c)).
Proof.
  induction fields as [|f fields IH]; intros c ip.
  - cbn. split; [|auto]. split; [auto|]. intros [H|[H _]]; [exact H | inversion H].
  - cbn [fold_left]. destruct (IH (if ok f then cache_add f c else c) ip)
      as [IHin IHnodup].
    split.
    + rewrite IHin, elem_of_cons. destruct (ok f) eqn:Hf.
      * unfold cache_add. case_bool_decide as Hin.
        -- split; [intros [H|H]; tauto|].
           intros [H|[[->|H] Hv]]; auto.
        -- rewrite elem_of_app, list_elem_of_singleton.
           split; [intros [[H| ->]|H]; tauto|].
           intros [H|[[->|H] Hv]]; auto.
      * split; [intros [H|H]; tauto|].
        intros [H|[[->|H] Hv]]; [auto | congruence | auto].
    + intros Hc. apply IHnodup. destruct (ok f); [|exact Hc].
      unfold cache_add. case_bool_decide as Hin; [exact Hc|].
      apply NoDup_app. split; [exact Hc|]. split.
      * intros y Hy ->%list_elem_of_singleton. contradiction.
      * apply NoDup_singleton.
Qed.

(** X15. [loadExistingData] puts in the seen-set, as it is written, the
    first field of every non-blank catalog line that passes [isValidIP],
    and nothing else; a seen-set without duplicates stays so; the blacklist
    is untouched; when the catalog cannot be read nothing changes. The
    strings are not normalised: a first field with a leading zero enters
    the set as a string of its own. *)
Theorem loadExistingData_seen
    (serversData : jsstring) (saved : option savedStats) (s : scanner)
    (ip : jsstring) :
  (ip ∈ serverCache (loadExistingData (Some (serversData, saved)) s)
   <-> ip ∈ serverCache s
       \/ (ip ∈ map first_field (catalog_lines serversData)
           /\ isValidIP_string ip = true))
  /\ (NoDup (serverCache s) ->
      NoDup (serverCache (loadExistingData (Some (serversData, saved)) s)))
  /\ ipBlacklist (loadExistingData (Some (serversData, saved)) s) = ipBlacklist s
  /\ loadExistingData None s = s.
Proof.
  assert (Hcache : serverCache (loadExistingData (Some (serversData, saved)) s)
                   = fold_left
                       (fun c f => if isValidIP_string f then cache_add f c else c)
                       (map first_field (catalog_lines serversData))
                       (serverCache s)).
  { assert (Hfold : forall lines c,
              fold_left
                (fun c line =>
                   let ip := first_field line in
                   if negb (Nat.eqb (length ip) 0) && isValidIP_string ip
                   then cache_add ip c else c) lines c
              = fold_left
                  (fun c f => if isValidIP_string f then cache_add f c else c)
                  (map first_field lines) c).
    { induction lines as [|l lines IH]; intros c; [reflexivity|].
      cbn [fold_left map]. rewrite isValidIP_string_nonempty. apply IH. }
    unfold loadExistingData. destruct saved; cbn [serverCache with_stats
      with_serverCache]; apply Hfold. }
  rewrite Hcache. clear Hcache.
  destruct (fold_cache_add isValidIP_string
              (map first_field (catalog_lines serversData)) (serverCache s) ip)
    as [Hin Hnodup].
  split; [exact Hin|]. split; [exact Hnodup|].
  split; [destruct saved; reflexivity | reflexivity].
Qed.

Lemma loadExistingData_seen_witness :
  let s := constructor main_config in
  NoDup (serverCache s)
  /\ serverCache (loadExistingData (Some (sample_catalog, None)) s)
     = [str "1.1.1.1"; str "08.8.8.8"]
  /\ NoDup (serverCache (loadExistingData (Some (sample_catalog, None)) s))
  /\ (ip_string (8, 8, 8, 8)
      ∉ serverCache (loadExistingData (Some (sample_catalog, None)) s)).
Proof.
  cbn zeta.
  assert (H : NoDup (serverCache (constructor main_config))) by apply NoDup_nil_2.
  assert (Hload : serverCache (loadExistingData (Some (sample_catalog, None))
                                 (constructor main_config))
                  = [str "1.1.1.1"; str "08.8.8.8"]) by (vm_compute; reflexivity).
  split; [exact H|]. split; [exact Hload|]. split.
  - exact (proj1 (proj2 (loadExistingData_seen sample_catalog None
                           (constructor main_config) [])) H).
  - rewrite Hload. intros Hin. apply list_elem_of_In in Hin.
    vm_compute in Hin. destruct Hin as [Hin|[Hin|[]]]; discriminate Hin.
Defined.

(** X16. After [performMaintenance] the seen-set holds at most 1000000
    addresses: a larger one is cut down to its 500000 most recent entries
    and a smaller one is left alone. The blacklist is not touched. *)
Theorem performMaintenance_trims (now : Z) (gc : bool) (s : scanner) :
  let s' := performMaintenance now gc s in
  let size := Z.of_nat (length (serverCache s)) in
  Z.of_nat (length (serverCache s')) <= 1000000
  /\ (size <= 1000000 -> serverCache s' = serverCache s)
  /\ (1000000 < size ->
      Z.of_nat (length (serverCache s')) = 500000
      /\ exists oldest, serverCache s = oldest ++ serverCache s')
  /\ ipBlacklist s' = ipBlacklist s
  /\ gcCount (st s') = gcCount (st s) + (if gc then 1 else 0).
Proof.
  cbn zeta. unfold performMaintenance.
  assert (Hc : serverCache (cleanupRateLimiter now (if gc then incr_gcCount s else s))
               = serverCache s) by (destruct gc; reflexivity).
  rewrite Hc.
  destruct (Z.ltb_spec 1000000 (Z.of_nat (length (serverCache s)))) as [Hbig|Hsmall].
  - cbn [with_serverCache serverCache ipBlacklist st]. rewrite length_drop.
    split; [lia|]. split; [lia|]. split.
    + intros _. split; [lia|].
      exists (take (Z.to_nat (Z.of_nat (length (serverCache s)) - 500000))
                (serverCache s)).
      symmetry. apply take_drop.
    + destruct gc; cbn; split; (reflexivity || lia).
  - rewrite Hc. split; [lia|]. split; [reflexivity|]. split; [lia|].
    destruct gc; cbn; split; (reflexivity || lia).
Qed.

Lemma performMaintenance_trims_witness :
  let s := with_serverCache [str "1.1.1.1"; str "8.8.8.8"] (constructor main_config) in
  Z.of_nat (length (serverCache s)) <= 1000000
  /\ serverCache (performMaintenance t0 true s) = serverCache s.
Proof.
  cbn zeta.
  pose proof (performMaintenance_trims t0 true
                (with_serverCache [str "1.1.1.1"; str "8.8.8.8"]
                   (constructor main_config))) as (_ & Hsmall & _).
  assert (H : Z.of_nat (length (serverCache
                (with_serverCache [str "1.1.1.1"; str "8.8.8.8"]
                   (constructor main_config)))) <= 1000000) by (cbn; lia).
  split; [exact H | exact (Hsmall H)].
Defined.

Lemma Qdiv_le_self (n : Z) (u : Q) :
  0 <= n -> (1 <= u)%Q -> (0 <= inject_Z n / u)%Q /\ (inject_Z n / u <= inject_Z n)%Q.
Proof.
  intros Hn Hu.
  assert (Hpos : (0 < u)%Q) by (apply Qlt_le_trans with 1%Q; [reflexivity | exact Hu]).
  assert (Hn' : (0 <= inject_Z n)%Q) by (change 0%Q with (inject_Z 0); rewrite <- Zle_Qle; exact Hn).
  split.
  - apply Qle_shift_div_l; [exact Hpos|]. rewrite Qmult_0_l. exact Hn'.
  - apply Qle_shift_div_r; [exact Hpos|].
    rewrite (Qmult_comm (inject_Z n) u).
    apply Qle_trans with (1 * inject_Z n)%Q.
    + rewrite Qmult_1_l. apply Qle_refl.
    + apply Qmult_le_compat_r; assumption.
Qed.

(** X17. [updateStatistics] never divides by zero and never lowers the
    peak: an uptime under one second counts as one second, so the scan
    rate lies between 0 and the number of scans; the peak rate afterwards
    is at least the old peak and at least the current rate; the success
    rate is 0 while nothing has been scanned. *)
Theorem updateStatistics_rates (now : Z) (x : stats) :
  let x' := updateStatistics now x in
  (peakScanRate x <= peakScanRate x')%Q
  /\ (avgScanRate x' <= peakScanRate x')%Q
  /\ (0 <= totalScanned x ->
      (0 <= avgScanRate x')%Q /\ (avgScanRate x' <= inject_Z (totalScanned x))%Q)
  /\ (totalScanned x <= 0 -> successRate x' = 0%Q)
  /\ uptime x' = now - default 0 (startTime x)
  /\ totalScanned x' = totalScanned x /\ totalFound x' = totalFound x.
Proof.
  cbn zeta. unfold updateStatistics.
  cbn [peakScanRate avgScanRate successRate uptime totalScanned totalFound].
  set (u := (inject_Z (now - default 0 (startTime x))%Z / 1000)%Q).
  set (seconds := if Qle_bool 1 u then u else 1%Q).
  assert (Hseconds : (1 <= seconds)%Q).
  { unfold seconds. destruct (Qle_bool 1 u) eqn:E.
    - apply Qle_bool_iff. exact E.
    - apply Qle_refl. }
  set (rate := (inject_Z (totalScanned x) / seconds)%Q).
  split; [|split; [|split; [|split; [|repeat split]]]].
  - destruct (Qle_bool rate (peakScanRate x)) eqn:E; cbn [negb].
    + apply Qle_refl.
    + apply Qlt_le_weak, Qnot_le_lt. intros Hle.
      apply Qle_bool_iff in Hle. congruence.
  - destruct (Qle_bool rate (peakScanRate x)) eqn:E; cbn [negb].
    + apply Qle_bool_iff. exact E.
    + apply Qle_refl.
  - intros Hn. apply Qdiv_le_self; assumption.
  - intros Hn. destruct (Z.ltb_spec 0 (totalScanned x)); [lia | reflexivity].
Qed.

Lemma updateStatistics_rates_witness :
  let x := add_counters
             {| c_totalScanned := 50; c_totalFound := 2; c_activeConnections := 0;
                c_timeoutCount := 0; c_connectionErrors := 0; c_gcCount := 0 |}
             (set_startTime t0 initial_stats) in
  0 <= totalScanned x
  /\ (avgScanRate (updateStatistics (t0 + 250) x) == 50)%Q
  /\ (avgScanRate (updateStatistics (t0 + 250) x) <= inject_Z (totalScanned x))%Q.
Proof.
  cbn zeta.
  pose proof (updateStatistics_rates (t0 + 250)
                (add_counters
                   {| c_totalScanned := 50; c_totalFound := 2;
                      c_activeConnections := 0; c_timeoutCount := 0;
                      c_connectionErrors := 0; c_gcCount := 0 |}
                   (set_startTime t0 initial_stats))) as (_ & _ & Hrate & _).
  assert (H : 0 <= totalScanned
                     (add_counters
                        {| c_totalScanned := 50; c_totalFound := 2;
                           c_activeConnections := 0; c_timeoutCount := 0;
                           c_connectionErrors := 0; c_gcCount := 0 |}
                        (set_startTime t0 initial_stats))) by (cbn; lia).
  split; [exact H|]. split; [reflexivity|].
  exact (proj2 (Hrate H)).
Defined.

(** * Further invariants of a session *)

Lemma Forall_settle (P : task -> Prop) i t ts :
  Forall P ts -> (forall t', t = Some t' -> P t') -> Forall P (settle i t ts).
Proof.
  intros Hts Ht. destruct t as [t'|]; cbn [settle].
  - apply Forall_insert; [exact Hts | apply Ht; reflexivity].
  - apply Forall_delete. exact Hts.
Qed.

Lemma generateRandomPublicIP_rest s rnd a rest :
  forallb is_random rnd = true ->
  generateRandomPublicIP s rnd = Some (a, rest) -> forallb is_random rest = true.
Proof.
  remember (length rnd) as n eqn:Hn.
  assert (Hle : (length rnd <= n)%nat) by lia. clear Hn.
  revert rnd Hle. induction n as [|n IH]; intros rnd Hle Hall.
  - destruct rnd; [discriminate | simpl in Hle; lia].
  - destruct rnd as [|r0 [|r1 [|r2 [|r3 rnd']]]]; try discriminate.
    cbn [generateRandomPublicIP].
    cbn [forallb] in Hall. rewrite !andb_true_iff in Hall.
    destruct Hall as (_ & _ & _ & _ & Hall).
    destruct (rejected s _).
    + apply IH; [simpl in Hle; lia | exact Hall].
    + intros [= <- <-]. exact Hall.
Qed.

Lemma generateSmartIP_public s rnd a rest :
  forallb is_random rnd = true -> public_scanner s ->
  generateSmartIP s rnd = Some (a, rest) ->
  isPublicIP a = true /\ forallb is_random rest = true.
Proof.
  intros Hall [_ Hlast].
  destruct rnd as [|r rnd]; [discriminate|].
  cbn [forallb] in Hall. apply andb_true_iff in Hall as [Hr Hall].
  cbn [generateSmartIP].
  pose proof (random_below_range r 3 Hr ltac:(lia)) as Hi.
  assert (Hcases : random_below r 3 = 0 \/ random_below r 3 = 1
                   \/ random_below r 3 = 2) by lia.
  assert (Hrandom : generateRandomPublicIP s rnd = Some (a, rest) ->
                    isPublicIP a = true /\ forallb is_random rest = true).
  { intros H. split.
    - apply generateRandomPublicIP_accepted, rejected_false in H. tauto.
    - exact (generateRandomPublicIP_rest _ _ _ _ Hall H). }
  destruct Hcases as [-> | [-> | ->]].
  - exact Hrandom.
  - unfold generateClusterBasedIP.
    destruct (lastFoundServer (st s)) as [found|] eqn:Hfound; [|exact Hrandom].
    destruct rnd as [|r' rnd]; [discriminate|].
    cbn [forallb] in Hall. apply andb_true_iff in Hall as [Hr' Hall].
    specialize (Hlast found eq_refl).
    destruct (ip found) as [[[p0 p1] p2] p3].
    intros [= <- <-]. split; [|exact Hall].
    pose proof (random_below_range r' 256 Hr' ltac:(lia)).
    apply (isPublicIP_last_octet p0 p1 p2 p3); [exact Hlast | lia].
  - destruct rnd as [|r1 [|r2 rnd]]; [discriminate | |].
    + cbn [forallb] in Hall. apply andb_true_iff in Hall as [Hr1 _].
      unfold generatePopularRangeIP.
      destruct (popularRanges !! _); [|discriminate]. discriminate.
    + cbn [forallb] in Hall. rewrite !andb_true_iff in Hall.
      destruct Hall as (Hr1 & Hr2 & Hall).
      destruct (generatePopularRangeIP_spec r1 r2 rnd Hr1 Hr2)
        as (p0 & p1 & p2 & -> & _ & _ & Hpublic).
      intros [= <- <-]. split; [exact Hpublic | exact Hall].
Qed.

Lemma public_scanner_ext s s' :
  ipBlacklist s' = ipBlacklist s ->
  lastFoundServer (st s') = lastFoundServer (st s) ->
  public_scanner s -> public_scanner s'.
Proof. unfold public_scanner. intros -> ->. auto. Qed.

Lemma check_start_public now a retryCount s :
  isPublicIP a = true -> public_scanner s ->
  public_scanner (check_start now a retryCount s).1
  /\ (forall t, (check_start now a retryCount s).2 = Some t -> public_task t).
Proof.
  intros Ha Hs. unfold check_start.
  destruct (maxRetries (cfg s) <=? retryCount); [|destruct (isRateLimited s now a)];
    cbn [fst snd].
  - split; [|discriminate]. destruct Hs as [Hb Hl]. split; [|exact Hl].
    cbn [with_ipBlacklist ipBlacklist]. intros b [->%elem_of_singleton|Hin]%elem_of_union;
      [exact Ha | exact (Hb b Hin)].
  - split; [exact Hs|]. intros t [= <-] b ->%list_elem_of_singleton. exact Ha.
  - split; [exact (public_scanner_ext s _ eq_refl eq_refl Hs)|].
    intros t [= <-] b ->%list_elem_of_singleton. exact Ha.
Qed.

Lemma check_finally_public now a s :
  public_scanner s -> public_scanner (check_finally now a s).
Proof. apply public_scanner_ext; reflexivity. Qed.

Lemma check_catch_public now a retryCount s :
  isPublicIP a = true -> public_scanner s ->
  public_scanner (check_catch now a retryCount s).1
  /\ (forall t, (check_catch now a retryCount s).2 = Some t -> public_task t).
Proof.
  intros Ha Hs. unfold check_catch.
  destruct (retryCount <? maxRetries (cfg (incr_connectionErrors s))); cbn [fst snd].
  - split; [exact (public_scanner_ext s _ eq_refl eq_refl Hs)|].
    intros t [= <-] b ->%list_elem_of_singleton. exact Ha.
  - split; [exact (public_scanner_ext s _ eq_refl eq_refl Hs) | discriminate].
Qed.

Lemma check_return_public now a result s :
  (forall info, result = Some info -> isPublicIP (ip info) = true) ->
  public_scanner s ->
  public_scanner (check_return now a result s).1
  /\ (forall t, (check_return now a result s).2 = Some t -> public_task t).
Proof.
  intros Hr Hs. unfold check_return. cbn [fst snd]. split.
  - apply check_finally_public, Hs.
  - destruct result as [info|]; cbn; [|discriminate].
    intros t [= <-] b ->%list_elem_of_singleton. apply Hr. reflexivity.
Qed.

Lemma check_enhanced_public now a info s :
  isPublicIP (ip info) = true -> public_scanner s ->
  public_scanner (check_enhanced now a info s).1
  /\ (forall t, (check_enhanced now a info s).2 = Some t -> public_task t).
Proof.
  intros Hi Hs. unfold check_enhanced. apply check_return_public; [|exact Hs].
  destruct (passesFilters (cfg s) info); [|discriminate].
  intros ? [= <-]. exact Hi.
Qed.

Lemma save_commit_public info s :
  isPublicIP (ip info) = true -> public_scanner s ->
  public_scanner (save_commit info s).
Proof.
  intros Hi [Hb Hl]. split; [exact Hb|].
  cbn. intros ? [= <-]. exact Hi.
Qed.

Lemma enhance_literal_ip c now a rawInfo rt enhanced :
  enhance_literal c now a rawInfo rt = Ok enhanced -> ip enhanced = a.
Proof.
  unfold enhance_literal. intros H.
  repeat match type of H with
         | (mbind _ ?o) = _ => destruct o; cbn [mbind outcome_bind] in H;
                               try discriminate H
         | (match ?v with VStr _ => _ | _ => _ end) = _ =>
             destruct v; cbn [mbind outcome_bind] in H; try discriminate H
         end.
  injection H as <-. reflexivity.
Qed.

Lemma performScanBatch_loop_public n now : forall rnd s spawned s' spawned',
  forallb is_random rnd = true -> public_scanner s -> Forall public_task spawned ->
  performScanBatch_loop n now rnd s spawned = Some (s', spawned') ->
  public_scanner s' /\ Forall public_task spawned'.
Proof.
  induction n as [|n IH]; intros rnd s spawned s' spawned' Hall Hs Hsp;
    cbn [performScanBatch_loop].
  - intros [= <- <-]. auto.
  - destruct (activeConnections (st s) <? maxConcurrent (cfg s));
      [|intros [= <- <-]; auto].
    destruct (generateSmartIP s rnd) as [[a rnd']|] eqn:Hgen; [|discriminate].
    destruct (generateSmartIP_public s rnd a rnd' Hall Hs Hgen) as [Ha Hall'].
    destruct (bool_decide (ip_string a ∈ serverCache s)); [apply IH; assumption|].
    unfold scan_start.
    destruct (check_start_public now a 0 (incr_totalScanned s) Ha
                (public_scanner_ext s _ eq_refl eq_refl Hs)) as [Hs1 Ht].
    destruct (check_start now a 0 (incr_totalScanned s)) as [s1 t].
    cbn [fst snd] in Hs1, Ht.
    apply IH; [exact Hall' | exact Hs1 |].
    apply Forall_app. split; [exact Hsp|].
    destruct t as [t|]; cbn; [|constructor].
    constructor; [apply Ht; reflexivity | constructor].
Qed.

Lemma continue_public w i r w' :
  continue w i r = Some w' ->
  Forall public_task (tasks w) -> public_scanner r.1 ->
  (forall t, r.2 = Some t -> public_task t) ->
  public_world w'.
Proof.
  intros [= <-] Hts Hs Ht. split; cbn [tasks this].
  - apply Forall_settle; assumption.
  - exact Hs.
Qed.

Lemma update_this_public w s w' :
  update_this w s = Some w' ->
  Forall public_task (tasks w) -> public_scanner s -> public_world w'.
Proof. intros [= <-] Hts Hs. split; assumption. Qed.

Ltac in_list := apply list_elem_of_In; cbn; tauto.

Lemma step_public e w w' :
  random_event e = true -> public_world w -> step e w = Some w' -> public_world w'.
Proof.
  intros He [Hts Hs] H.
  destruct e; unfold step in H.
  all: try (destruct (tasks w !! i) as [t|] eqn:Hi; [|discriminate];
            pose proof (Forall_lookup_1 _ _ _ _ Hts Hi) as Ht;
            destruct t; try discriminate).
  - (* Tick *)
    destruct (0 <=? dt); [|discriminate]. injection H as <-. split; assumption.
  - (* Batch *)
    destruct (may_scan (this w) && bool_decide (tasks w = [])); [|discriminate].
    destruct (performScanBatch (clock w) rnd (this w)) as [[s' spawned]|] eqn:Hb;
      [|discriminate].
    injection H as <-.
    destruct (performScanBatch_loop_public _ _ _ _ _ _ _ He Hs (Forall_nil_2 _) Hb).
    split; assumption.
  - (* RateDelayDone *)
    destruct (wake <=? clock w); [|discriminate].
    apply (continue_public _ _ _ _ H Hts); [exact Hs | discriminate].
  - (* TimerFires *)
    destruct timer; [|discriminate].
    destruct (startTime0 + timeout (cfg (this w)) <=? clock w); [|discriminate].
    apply (continue_public _ _ _ _ H Hts); [ | ]; cbn [fst snd].
    + exact (public_scanner_ext (this w) _ eq_refl eq_refl Hs).
    + intros t [= <-]. exact Ht.
  - (* PingDone *)
    assert (Ha : isPublicIP a = true) by (apply Ht; in_list).
    destruct result as [serverInfo|].
    + destruct (truthy serverInfo).
      * destruct (enhance_literal (cfg (this w)) (clock w) a serverInfo
                    (clock w - startTime0)) as [enhanced| |] eqn:Hlit;
          [| |discriminate].
        -- apply enhance_literal_ip in Hlit.
           destruct (enableGeolocation (cfg (this w))).
           ++ apply (continue_public _ _ _ _ H Hts); [exact Hs | ].
              cbn [snd]. intros t [= <-] b Hb. cbn in Hb.
              apply elem_of_cons in Hb as [-> | Hb]; [exact Ha|].
              apply list_elem_of_singleton in Hb as ->. rewrite Hlit. exact Ha.
           ++ destruct (check_enhanced_public (clock w) a
                          (enhance_finish None enhanced) (this w)) as [H1 H2];
                [cbn; rewrite Hlit; exact Ha | exact Hs |].
              apply (continue_public _ _ _ _ H Hts); [exact H1 | exact H2].
        -- destruct (check_catch_public (clock w) a retryCount (this w) Ha Hs)
             as [H1 H2].
           apply (continue_public _ _ _ _ H Hts); [exact H1 | exact H2].
      * destruct (check_return_public (clock w) a None (this w)) as [H1 H2];
          [discriminate | exact Hs |].
        apply (continue_public _ _ _ _ H Hts); [exact H1 | exact H2].
    + destruct (check_catch_public (clock w) a retryCount (this w) Ha Hs)
        as [H1 H2].
      apply (continue_public _ _ _ _ H Hts); [exact H1 | exact H2].
  - (* LocationDone *)
    assert (Ha : isPublicIP (ip enhanced) = true) by (apply Ht; in_list).
    destruct (check_enhanced_public (clock w) a
                (enhance_finish (Some loc) enhanced) (this w)) as [H1 H2];
      [exact Ha | exact Hs |].
    apply (continue_public _ _ _ _ H Hts); [exact H1 | exact H2].
  - (* BackoffDone *)
    assert (Ha : isPublicIP a = true) by (apply Ht; in_list).
    destruct (wake <=? clock w); [|discriminate].
    destruct (check_start_public (clock w) a (retryCount + 1) (this w) Ha Hs)
      as [H1 H2].
    destruct (check_start (clock w) a (retryCount + 1) (this w)) as [s' t].
    cbn [fst snd] in H1, H2.
    apply (continue_public _ _ _ _ H Hts); [ | ]; cbn [fst snd].
    + apply check_finally_public, H1.
    + exact H2.
  - (* AppendDone *)
    assert (Ha : isPublicIP (ip info) = true) by (apply Ht; in_list).
    destruct ok; [destruct (exportJson (cfg (this w)))|];
      (apply (continue_public _ _ _ _ H Hts); [ | ]; cbn [fst snd];
       [first [exact Hs | apply save_commit_public; assumption]
       | intros t [= <-]; exact Ht]).
  - (* LoadJSONDone *)
    destruct ok;
      (apply (continue_public _ _ _ _ H Hts); [exact Hs | ]; cbn [snd];
       intros t [= <-]; exact Ht).
  - (* WriteJSONDone *)
    assert (Ha : isPublicIP (ip info) = true) by (apply Ht; in_list).
    destruct ok;
      (apply (continue_public _ _ _ _ H Hts); [ | ]; cbn [fst snd];
       [first [exact Hs | apply save_commit_public; assumption]
       | intros t [= <-]; exact Ht]).
  - (* SaveDone *)
    apply (continue_public _ _ _ _ H Hts); [ | discriminate]. cbn [fst].
    exact (public_scanner_ext (this w) _ eq_refl eq_refl Hs).
  - (* UpdateStatistics *)
    apply (update_this_public _ _ _ H Hts).
    exact (public_scanner_ext (this w) _ eq_refl eq_refl Hs).
  - (* CleanupRateLimiter *)
    apply (update_this_public _ _ _ H Hts).
    exact (public_scanner_ext (this w) _ eq_refl eq_refl Hs).
  - (* Maintenance *)
    apply (update_this_public _ _ _ H Hts).
    apply (public_scanner_ext (this w)); [| |exact Hs];
      unfold performMaintenance; destruct gc; cbn zeta; case_match; reflexivity.
  - (* ResetStats *)
    apply (update_this_public _ _ _ H Hts).
    destruct Hs as [Hb _]. split; [exact Hb | discriminate].
  - (* Pause *)
    apply (update_this_public _ _ _ H Hts).
    exact (public_scanner_ext (this w) _ eq_refl eq_refl Hs).
  - (* Resume *)
    apply (update_this_public _ _ _ H Hts).
    exact (public_scanner_ext (this w) _ eq_refl eq_refl Hs).
  - (* Stop *)
    apply (update_this_public _ _ _ H Hts).
    exact (public_scanner_ext (this w) _ eq_refl eq_refl Hs).
Qed.

Lemma boot_public c d t0 : public_world (boot c d t0).
Proof.
  split; [constructor|].
  apply (public_scanner_ext (constructor c)).
  - destruct d as [[lines [sv|]]|]; reflexivity.
  - destruct d as [[lines [sv|]]|]; reflexivity.
  - split; [intros a Ha; apply elem_of_empty in Ha; contradiction | discriminate].
Qed.

(** X18. Whatever the random numbers, the network and the keyboard do,
    a session only ever probes public addresses: every address held by a
    task in flight, every blacklisted address and the address of the last
    server found pass [isPublicIP]. The cluster strategy inherits this from
    the last server found, whose first two octets it keeps. *)
Theorem probed_addresses_are_public c d t0 (evs : list event) (w : world) :
  forallb random_event evs = true ->
  run evs (boot c d t0) = Some w ->
  (forall t a, t ∈ tasks w -> a ∈ task_addresses t -> isPublicIP a = true)
  /\ (forall a, a ∈ ipBlacklist (this w) -> isPublicIP a = true)
  /\ (forall info, lastFoundServer (st (this w)) = Some info ->
        isPublicIP (ip info) = true).
Proof.
  intros Hall Hrun.
  assert (Hw : public_world w).
  { apply (run_invariant public_world random_event step_public evs
             (boot c d t0) w Hall (boot_public c d t0) Hrun). }
  destruct Hw as [Hts [Hb Hl]].
  split; [|split; assumption].
  intros t a Ht. rewrite Forall_forall in Hts. exact (Hts t Ht a).
Qed.

Lemma probed_addresses_are_public_witness :
  forallb random_event discovery_run = true
  /\ exists w,
       run discovery_run (boot (config_with_batchSize 1) None t0) = Some w
       /\ (forall info, lastFoundServer (st (this w)) = Some info ->
             isPublicIP (ip info) = true).
Proof.
  assert (H1 : forallb random_event discovery_run = true) by reflexivity.
  assert (H : run discovery_run (boot (config_with_batchSize 1) None t0)
              = Some (default (boot main_config None 0)
                        (run discovery_run
                           (boot (config_with_batchSize 1) None t0))))
    by (vm_compute; reflexivity).
  split; [exact H1|].
  eexists. split; [exact H|].
  exact (proj2 (proj2 (probed_addresses_are_public _ _ _ _ _ H1 H))).
Defined.

Lemma filtered_scanner_ext c s s' :
  cfg s' = cfg s ->
  lastFoundServer (st s') = lastFoundServer (st s) ->
  bestServer (st s') = bestServer (st s) ->
  filtered_scanner c s -> filtered_scanner c s'.
Proof. unfold filtered_scanner. intros -> -> ->. auto. Qed.

Lemma check_start_filtered c now a retryCount s :
  filtered_scanner c s ->
  filtered_scanner c (check_start now a retryCount s).1
  /\ (forall t, (check_start now a retryCount s).2 = Some t -> filtered_task c t).
Proof.
  intros Hs. unfold check_start.
  destruct (maxRetries (cfg s) <=? retryCount); [|destruct (isRateLimited s now a)];
    cbn [fst snd].
  - split; [exact (filtered_scanner_ext c s _ eq_refl eq_refl eq_refl Hs) | discriminate].
  - split; [exact Hs|]. intros t [= <-] info [=].
  - split; [exact (filtered_scanner_ext c s _ eq_refl eq_refl eq_refl Hs)|].
    intros t [= <-] info [=].
Qed.

Lemma check_finally_filtered c now a s :
  filtered_scanner c s -> filtered_scanner c (check_finally now a s).
Proof. apply filtered_scanner_ext; reflexivity. Qed.

Lemma check_catch_filtered c now a retryCount s :
  filtered_scanner c s ->
  filtered_scanner c (check_catch now a retryCount s).1
  /\ (forall t, (check_catch now a retryCount s).2 = Some t -> filtered_task c t).
Proof.
  intros Hs. unfold check_catch.
  destruct (retryCount <? maxRetries (cfg (incr_connectionErrors s))); cbn [fst snd].
  - split; [exact (filtered_scanner_ext c s _ eq_refl eq_refl eq_refl Hs)|].
    intros t [= <-] info [=].
  - split; [exact (filtered_scanner_ext c s _ eq_refl eq_refl eq_refl Hs) | discriminate].
Qed.

Lemma check_enhanced_filtered c now a info s :
  filtered_scanner c s ->
  filtered_scanner c (check_enhanced now a info s).1
  /\ (forall t, (check_enhanced now a info s).2 = Some t -> filtered_task c t).
Proof.
  intros Hs. unfold check_enhanced, check_return. cbn [fst snd]. split.
  - apply check_finally_filtered, Hs.
  - destruct Hs as [Hc _]. rewrite Hc.
    destruct (passesFilters c info) eqn:Hp; cbn; [|discriminate].
    intros t [= <-] info' [= <-]. exact Hp.
Qed.

Lemma save_commit_filtered c info s :
  passesFilters c info = true -> filtered_scanner c s ->
  filtered_scanner c (save_commit info s).
Proof.
  intros Hi (Hc & Hl & Hb). split; [exact Hc|]. split.
  - cbn. intros ? [= <-]. exact Hi.
  - cbn. destruct (bestServer (st s)) as [best|] eqn:Hbest.
    + destruct (qualityScore best <? qualityScore info); intros ? [= <-];
        [exact Hi | apply Hb; reflexivity].
    + intros ? [= <-]. exact Hi.
Qed.

Lemma performScanBatch_loop_filtered c n now : forall rnd s spawned s' spawned',
  filtered_scanner c s -> Forall (filtered_task c) spawned ->
  performScanBatch_loop n now rnd s spawned = Some (s', spawned') ->
  filtered_scanner c s' /\ Forall (filtered_task c) spawned'.
Proof.
  induction n as [|n IH]; intros rnd s spawned s' spawned' Hs Hsp;
    cbn [performScanBatch_loop].
  - intros [= <- <-]. auto.
  - destruct (activeConnections (st s) <? maxConcurrent (cfg s));
      [|intros [= <- <-]; auto].
    destruct (generateSmartIP s rnd) as [[a rnd']|] eqn:Hgen; [|discriminate].
    destruct (bool_decide (ip_string a ∈ serverCache s)); [apply IH; assumption|].
    unfold scan_start.
    destruct (check_start_filtered c now a 0 (incr_totalScanned s)
                (filtered_scanner_ext c s _ eq_refl eq_refl eq_refl Hs)) as [Hs1 Ht].
    destruct (check_start now a 0 (incr_totalScanned s)) as [s1 t].
    cbn [fst snd] in Hs1, Ht.
    apply IH; [exact Hs1 |].
    apply Forall_app. split; [exact Hsp|].
    destruct t as [t|]; cbn; [|constructor].
    constructor; [apply Ht; reflexivity | constructor].
Qed.

Lemma continue_filtered c w i r w' :
  continue w i r = Some w' ->
  Forall (filtered_task c) (tasks w) -> filtered_scanner c r.1 ->
  (forall t, r.2 = Some t -> filtered_task c t) ->
  filtered_world c w'.
Proof.
  intros [= <-] Hts Hs Ht. split; cbn [tasks this].
  - apply Forall_settle; assumption.
  - exact Hs.
Qed.

Lemma update_this_filtered c w s w' :
  update_this w s = Some w' ->
  Forall (filtered_task c) (tasks w) -> filtered_scanner c s -> filtered_world c w'.
Proof. intros [= <-] Hts Hs. split; assumption. Qed.

Lemma step_filtered c e w w' :
  filtered_world c w -> step e w = Some w' -> filtered_world c w'.
Proof.
  intros [Hts Hs] H.
  assert (Hsame : forall s', cfg s' = cfg (this w) ->
            lastFoundServer (st s') = lastFoundServer (st (this w)) ->
            bestServer (st s') = bestServer (st (this w)) ->
            filtered_scanner c s').
  { intros s' H1 H2 H3. exact (filtered_scanner_ext c (this w) s' H1 H2 H3 Hs). }
  destruct e; unfold step in H.
  all: try (destruct (tasks w !! i) as [t|] eqn:Hi; [|discriminate];
            pose proof (Forall_lookup_1 _ _ _ _ Hts Hi) as Ht;
            destruct t; try discriminate).
  - (* Tick *)
    destruct (0 <=? dt); [|discriminate]. injection H as <-. split; assumption.
  - (* Batch *)
    destruct (may_scan (this w) && bool_decide (tasks w = [])); [|discriminate].
    destruct (performScanBatch (clock w) rnd (this w)) as [[s' spawned]|] eqn:Hb;
      [|discriminate].
    injection H as <-.
    destruct (performScanBatch_loop_filtered c _ _ _ _ _ _ _ Hs (Forall_nil_2 _) Hb).
    split; assumption.
  - (* RateDelayDone *)
    destruct (wake <=? clock w); [|discriminate].
    apply (continue_filtered c _ _ _ _ H Hts); [exact Hs | discriminate].
  - (* TimerFires *)
    destruct timer; [|discriminate].
    destruct (startTime0 + timeout (cfg (this w)) <=? clock w); [|discriminate].
    apply (continue_filtered c _ _ _ _ H Hts); cbn [fst snd].
    + apply Hsame; reflexivity.
    + intros t [= <-] info [=].
  - (* PingDone *)
    destruct result as [serverInfo|].
    + destruct (truthy serverInfo).
      * destruct (enhance_literal (cfg (this w)) (clock w) a serverInfo
                    (clock w - startTime0)) as [enhanced| |] eqn:Hlit;
          [| |discriminate].
        -- destruct (enableGeolocation (cfg (this w))).
           ++ apply (continue_filtered c _ _ _ _ H Hts); [exact Hs|].
              cbn [snd]. intros t [= <-] info [=].
           ++ destruct (check_enhanced_filtered c (clock w) a
                          (enhance_finish None enhanced) (this w) Hs) as [H1 H2].
              apply (continue_filtered c _ _ _ _ H Hts); assumption.
        -- destruct (check_catch_filtered c (clock w) a retryCount (this w) Hs)
             as [H1 H2].
           apply (continue_filtered c _ _ _ _ H Hts); assumption.
      * apply (continue_filtered c _ _ _ _ H Hts); cbn [fst snd check_return].
        -- apply check_finally_filtered, Hs.
        -- discriminate.
    + destruct (check_catch_filtered c (clock w) a retryCount (this w) Hs)
        as [H1 H2].
      apply (continue_filtered c _ _ _ _ H Hts); assumption.
  - (* LocationDone *)
    destruct (check_enhanced_filtered c (clock w) a
                (enhance_finish (Some loc) enhanced) (this w) Hs) as [H1 H2].
    apply (continue_filtered c _ _ _ _ H Hts); assumption.
  - (* BackoffDone *)
    destruct (wake <=? clock w); [|discriminate].
    destruct (check_start_filtered c (clock w) a (retryCount + 1) (this w) Hs)
      as [H1 H2].
    destruct (check_start (clock w) a (retryCount + 1) (this w)) as [s' t].
    cbn [fst snd] in H1, H2.
    apply (continue_filtered c _ _ _ _ H Hts); cbn [fst snd].
    + apply check_finally_filtered, H1.
    + exact H2.
  - (* AppendDone *)
    assert (Hp : passesFilters c info = true) by (apply Ht; reflexivity).
    destruct ok; [destruct (exportJson (cfg (this w)))|];
      (apply (continue_filtered c _ _ _ _ H Hts); cbn [fst snd];
       [first [exact Hs | apply save_commit_filtered; assumption]
       | intros t [= <-] info' [= <-]; exact Hp]).
  - (* LoadJSONDone *)
    assert (Hp : passesFilters c info = true) by (apply Ht; reflexivity).
    destruct ok;
      (apply (continue_filtered c _ _ _ _ H Hts); [exact Hs|]; cbn [snd];
       intros t [= <-] info' [= <-]; exact Hp).
  - (* WriteJSONDone *)
    assert (Hp : passesFilters c info = true) by (apply Ht; reflexivity).
    destruct ok;
      (apply (continue_filtered c _ _ _ _ H Hts); cbn [fst snd];
       [first [exact Hs | apply save_commit_filtered; assumption]
       | intros t [= <-] info' [= <-]; exact Hp]).
  - (* SaveDone *)
    apply (continue_filtered c _ _ _ _ H Hts); [|discriminate]. cbn [fst].
    apply Hsame; reflexivity.
  - (* UpdateStatistics *)
    apply (update_this_filtered c _ _ _ H Hts). apply Hsame; reflexivity.
  - (* CleanupRateLimiter *)
    apply (update_this_filtered c _ _ _ H Hts). apply Hsame; reflexivity.
  - (* Maintenance *)
    apply (update_this_filtered c _ _ _ H Hts).
    apply Hsame; unfold performMaintenance; destruct gc; cbn zeta; case_match;
      reflexivity.
  - (* ResetStats *)
    apply (update_this_filtered c _ _ _ H Hts).
    destruct Hs as [Hc _]. split; [exact Hc|]. split; discriminate.
  - (* Pause *)
    apply (update_this_filtered c _ _ _ H Hts). apply Hsame; reflexivity.
  - (* Resume *)
    apply (update_this_filtered c _ _ _ H Hts). apply Hsame; reflexivity.
  - (* Stop *)
    apply (update_this_filtered c _ _ _ H Hts). apply Hsame; reflexivity.
Qed.

Lemma boot_filtered c d t0 : filtered_world c (boot c d t0).
Proof.
  split; [constructor|].
  apply (filtered_scanner_ext c (constructor c)).
  - destruct d as [[lines [sv|]]|]; reflexivity.
  - destruct d as [[lines [sv|]]|]; reflexivity.
  - destruct d as [[lines [sv|]]|]; reflexivity.
  - split; [reflexivity|]. split; discriminate.
Qed.

(** X19. In every state a session reaches, the configuration is the one
    it started with, and every record that is being saved, the last server
    found and the best server passed the filters of that configuration:
    nothing reaches [saveServer] but through [passesFilters]. *)
Theorem saved_servers_pass_filters c d t0 (evs : list event) (w : world) :
  run evs (boot c d t0) = Some w ->
  cfg (this w) = c
  /\ (forall t info, t ∈ tasks w -> task_saving t = Some info ->
        passesFilters c info = true)
  /\ (forall info, lastFoundServer (st (this w)) = Some info ->
        passesFilters c info = true)
  /\ (forall info, bestServer (st (this w)) = Some info ->
        passesFilters c info = true).
Proof.
  intros Hrun.
  assert (Hw : filtered_world c w).
  { apply (run_invariant (filtered_world c) (fun _ => true)
             (fun e w1 w2 _ => step_filtered c e w1 w2) evs (boot c d t0) w);
      [apply forallb_forall; reflexivity | apply boot_filtered | exact Hrun]. }
  destruct Hw as [Hts (Hc & Hl & Hb)].
  split; [exact Hc|]. split; [|split; assumption].
  intros t info Ht. rewrite Forall_forall in Hts. exact (Hts t Ht info).
Qed.

Lemma saved_servers_pass_filters_witness :
  exists w,
    run discovery_run (boot (config_with_batchSize 1) None t0) = Some w
    /\ cfg (this w) = config_with_batchSize 1
    /\ (forall info, lastFoundServer (st (this w)) = Some info ->
          passesFilters (config_with_batchSize 1) info = true).
Proof.
  assert (H : run discovery_run (boot (config_with_batchSize 1) None t0)
              = Some (default (boot main_config None 0)
                        (run discovery_run
                           (boot (config_with_batchSize 1) None t0))))
    by (vm_compute; reflexivity).
  eexists. split; [exact H|].
  pose proof (saved_servers_pass_filters _ _ _ _ _ H) as (Hc & _ & Hl & _).
  split; assumption.
Defined.

Lemma connections_app l1 l2 :
  connections (l1 ++ l2) = connections l1 + connections l2.
Proof. induction l1 as [|t l1 IH]; cbn [app connections]; lia. Qed.

Lemma connections_range ts : 0 <= connections ts <= Z.of_nat (length ts).
Proof.
  induction ts as [|t ts IH]; cbn [connections length]; [lia|].
  destruct (holds_connection t); lia.
Qed.

Lemma connections_settle i t t' ts :
  ts !! i = Some t ->
  connections (settle i t' ts) = connections ts - slot (Some t) + slot t'.
Proof.
  revert i. induction ts as [|u ts IH]; intros i Hi; [discriminate|].
  destruct i as [|i].
  - injection Hi as ->. destruct t' as [t'|]; cbn; lia.
  - cbn in Hi. specialize (IH i Hi).
    destruct t' as [t'|]; cbn [settle] in *.
    + change (<[S i := t']> (u :: ts)) with (u :: <[i := t']> ts).
      cbn [connections]. lia.
    + change (delete (S i) (u :: ts)) with (u :: delete i ts).
      cbn [connections]. lia.
Qed.

Lemma slot_range t : 0 <= slot t <= 1.
Proof. destruct t as [t|]; cbn; [destruct (holds_connection t)|]; lia. Qed.

Lemma check_start_slots now a retryCount s :
  cfg (check_start now a retryCount s).1 = cfg s
  /\ activeConnections (st (check_start now a retryCount s).1)
     = activeConnections (st s) + slot (check_start now a retryCount s).2.
Proof.
  unfold check_start.
  destruct (maxRetries (cfg s) <=? retryCount); [|destruct (isRateLimited s now a)];
    cbn; split; (reflexivity || lia).
Qed.

Lemma check_finally_slots now a s :
  cfg (check_finally now a s) = cfg s
  /\ activeConnections (st (check_finally now a s)) = activeConnections (st s) - 1.
Proof. cbn. split; (reflexivity || lia). Qed.

Lemma check_catch_slots now a retryCount s :
  cfg (check_catch now a retryCount s).1 = cfg s
  /\ activeConnections (st (check_catch now a retryCount s).1)
     = activeConnections (st s) - 1 + slot (check_catch now a retryCount s).2.
Proof.
  unfold check_catch.
  destruct (retryCount <? maxRetries (cfg (incr_connectionErrors s)));
    cbn; split; (reflexivity || lia).
Qed.

Lemma check_return_slots now a result s :
  cfg (check_return now a result s).1 = cfg s
  /\ activeConnections (st (check_return now a result s).1)
     = activeConnections (st s) - 1 + slot (check_return now a result s).2.
Proof. destruct result; cbn; split; (reflexivity || lia). Qed.

Lemma performScanBatch_loop_slots n now : forall rnd s spawned s' spawned',
  performScanBatch_loop n now rnd s spawned = Some (s', spawned') ->
  cfg s' = cfg s
  /\ activeConnections (st s') - connections spawned'
     = activeConnections (st s) - connections spawned
  /\ activeConnections (st s')
     <= Z.max (activeConnections (st s)) (maxConcurrent (cfg s)).
Proof.
  induction n as [|n IH]; intros rnd s spawned s' spawned';
    cbn [performScanBatch_loop].
  - intros [= <- <-]. repeat split; (reflexivity || lia).
  - destruct (Z.ltb_spec (activeConnections (st s)) (maxConcurrent (cfg s)))
      as [Hlt|Hge]; [|intros [= <- <-]; repeat split; (reflexivity || lia)].
    destruct (generateSmartIP s rnd) as [[a rnd']|]; [|discriminate].
    destruct (bool_decide (ip_string a ∈ serverCache s)).
    + intros H. destruct (IH _ _ _ _ _ H) as (H1 & H2 & H3).
      repeat split; [exact H1 | lia | lia].
    + unfold scan_start.
      destruct (check_start_slots now a 0 (incr_totalScanned s)) as [Hc Ha].
      pose proof (slot_range (check_start now a 0 (incr_totalScanned s)).2) as Hr.
      destruct (check_start now a 0 (incr_totalScanned s)) as [s1 t].
      cbn [fst snd] in Hc, Ha, Hr.
      intros H. destruct (IH _ _ _ _ _ H) as (H1 & H2 & H3).
      rewrite connections_app in H2.
      assert (Ht : connections (option_list t) = slot t).
      { destruct t as [t|]; cbn; lia. }
      change (cfg (incr_totalScanned s)) with (cfg s) in Hc.
      change (activeConnections (st (incr_totalScanned s)))
        with (activeConnections (st s) + 0) in Ha.
      rewrite Hc in H1, H3.
      repeat split; [exact H1 | lia | lia].
Qed.

Lemma continue_counted c w i t r w' :
  continue w i r = Some w' ->
  tasks w !! i = Some t ->
  counted_world c w ->
  cfg r.1 = cfg (this w) ->
  activeConnections (st r.1)
  = activeConnections (st (this w)) - slot (Some t) + slot r.2 ->
  slot r.2 <= slot (Some t) ->
  counted_world c w'.
Proof.
  intros [= <-] Hi (Hc & Ha & Hmax) Hc' Ha' Hle.
  unfold counted_world. cbn [this tasks].
  rewrite (connections_settle i t r.2 (tasks w) Hi).
  split; [congruence|]. split; lia.
Qed.

Lemma update_this_counted c w s w' :
  update_this w s = Some w' ->
  counted_world c w ->
  cfg s = cfg (this w) ->
  activeConnections (st s) = activeConnections (st (this w)) ->
  counted_world c w'.
Proof.
  intros [= <-] (Hc & Ha & Hmax) Hc' Ha'.
  unfold counted_world. cbn [this tasks]. split; [congruence|]. split; lia.
Qed.

Lemma step_counted c e w w' :
  negb (is_ResetStats e) = true ->
  counted_world c w -> step e w = Some w' -> counted_world c w'.
Proof.
  intros He Hw H.
  destruct e; try discriminate He; unfold step in H.
  all: try (destruct (tasks w !! i) as [t|] eqn:Hi; [|discriminate];
            destruct t; try discriminate).
  - (* Tick *)
    destruct (0 <=? dt); [|discriminate]. injection H as <-. exact Hw.
  - (* Batch *)
    destruct (may_scan (this w) && bool_decide (tasks w = [])) eqn:Hguard;
      [|discriminate].
    apply andb_true_iff in Hguard as [_ Hempty%bool_decide_eq_true].
    destruct (performScanBatch (clock w) rnd (this w)) as [[s' spawned]|] eqn:Hb;
      [|discriminate].
    injection H as <-.
    destruct (performScanBatch_loop_slots _ _ _ _ _ _ _ Hb) as (H1 & H2 & H3).
    destruct Hw as (Hc & Ha & Hmax). rewrite Hempty in Ha. cbn in Ha, H2.
    unfold counted_world. cbn [this tasks].
    split; [congruence|]. split; [lia|]. rewrite Hc in H3. lia.
  - (* RateDelayDone *)
    destruct (wake <=? clock w); [|discriminate].
    apply (continue_counted c _ _ _ _ _ H Hi Hw); cbn; (reflexivity || lia).
  - (* TimerFires *)
    destruct timer; [|discriminate].
    destruct (startTime0 + timeout (cfg (this w)) <=? clock w); [|discriminate].
    apply (continue_counted c _ _ _ _ _ H Hi Hw); cbn; (reflexivity || lia).
  - (* PingDone *)
    destruct result as [serverInfo|].
    + destruct (truthy serverInfo).
      * destruct (enhance_literal (cfg (this w)) (clock w) a serverInfo
                    (clock w - startTime0)) as [enhanced| |]; [| |discriminate].
        -- destruct (enableGeolocation (cfg (this w))).
           ++ apply (continue_counted c _ _ _ _ _ H Hi Hw); cbn;
                (reflexivity || lia).
           ++ unfold check_enhanced in H.
              destruct (check_return_slots (clock w) a
                  (if passesFilters (cfg (this w)) (enhance_finish None enhanced)
                   then Some (enhance_finish None enhanced) else None) (this w))
                as [H1 H2].
              apply (continue_counted c _ _ _ _ _ H Hi Hw);
                [exact H1 | cbn [slot holds_connection]; lia |].
              apply slot_range.
        -- destruct (check_catch_slots (clock w) a retryCount (this w)) as [H1 H2].
           apply (continue_counted c _ _ _ _ _ H Hi Hw);
             [exact H1 | cbn [slot holds_connection]; lia | apply slot_range].
      * destruct (check_return_slots (clock w) a None (this w)) as [H1 H2].
        apply (continue_counted c _ _ _ _ _ H Hi Hw);
          [exact H1 | cbn [slot holds_connection]; lia | apply slot_range].
    + destruct (check_catch_slots (clock w) a retryCount (this w)) as [H1 H2].
      apply (continue_counted c _ _ _ _ _ H Hi Hw);
        [exact H1 | cbn [slot holds_connection]; lia | apply slot_range].
  - (* LocationDone *)
    unfold check_enhanced in H.
    destruct (check_return_slots (clock w) a
        (if passesFilters (cfg (this w)) (enhance_finish (Some loc) enhanced)
         then Some (enhance_finish (Some loc) enhanced) else None) (this w))
      as [H1 H2].
    apply (continue_counted c _ _ _ _ _ H Hi Hw);
      [exact H1 | cbn [slot holds_connection]; lia | apply slot_range].
  - (* BackoffDone *)
    destruct (wake <=? clock w); [|discriminate].
    destruct (check_start_slots (clock w) a (retryCount + 1) (this w)) as [H1 H2].
    pose proof (slot_range (check_start (clock w) a (retryCount + 1) (this w)).2)
      as Hr.
    destruct (check_start (clock w) a (retryCount + 1) (this w)) as [s' t].
    cbn [fst snd] in H1, H2, Hr.
    destruct (check_finally_slots (clock w) a s') as [H3 H4].
    apply (continue_counted c _ _ _ _ _ H Hi Hw); cbn [fst snd];
      [congruence | cbn [slot holds_connection]; lia | exact (proj2 Hr)].
  - (* AppendDone *)
    destruct ok; [destruct (exportJson (cfg (this w)))|];
      (apply (continue_counted c _ _ _ _ _ H Hi Hw); cbn; (reflexivity || lia)).
  - (* LoadJSONDone *)
    destruct ok;
      (apply (continue_counted c _ _ _ _ _ H Hi Hw); cbn; (reflexivity || lia)).
  - (* WriteJSONDone *)
    destruct ok;
      (apply (continue_counted c _ _ _ _ _ H Hi Hw); cbn; (reflexivity || lia)).
  - (* SaveDone *)
    apply (continue_counted c _ _ _ _ _ H Hi Hw); cbn; (reflexivity || lia).
  - (* UpdateStatistics *)
    apply (update_this_counted c _ _ _ H Hw); reflexivity.
  - (* CleanupRateLimiter *)
    apply (update_this_counted c _ _ _ H Hw); reflexivity.
  - (* Maintenance *)
    apply (update_this_counted c _ _ _ H Hw);
      unfold performMaintenance; destruct gc; cbn zeta; case_match; cbn;
      (reflexivity || lia).
  - (* Pause *)
    apply (update_this_counted c _ _ _ H Hw); reflexivity.
  - (* Resume *)
    apply (update_this_counted c _ _ _ H Hw); reflexivity.
  - (* Stop *)
    apply (update_this_counted c _ _ _ H Hw); reflexivity.
Qed.

Lemma boot_counted c d t0 : counted_world c (boot c d t0).
Proof.
  unfold counted_world.
  destruct d as [[lines [sv|]]|]; cbn; repeat split; lia.
Qed.

(** X20. As long as the statistics are not reset, [activeConnections] is
    the number of probes between their [activeConnections++] and their
    [finally] block (a retry hands its slot on to the next attempt), so it
    is never negative, and it never exceeds [maxConcurrent]. *)
Theorem activeConnections_counts_probes c d t0 (evs : list event) (w : world) :
  forallb (fun e => negb (is_ResetStats e)) evs = true ->
  run evs (boot c d t0) = Some w ->
  activeConnections (st (this w)) = connections (tasks w)
  /\ 0 <= activeConnections (st (this w)) <= Z.max 0 (maxConcurrent c)
  /\ activeConnections (st (this w)) <= Z.of_nat (length (tasks w)).
Proof.
  intros Hall Hrun.
  assert (Hw : counted_world c w).
  { apply (run_invariant (counted_world c) (fun e => negb (is_ResetStats e))
             (step_counted c) evs (boot c d t0) w Hall (boot_counted c d t0) Hrun). }
  destruct Hw as (_ & Ha & Hmax).
  pose proof (connections_range (tasks w)). repeat split; lia.
Qed.

Lemma activeConnections_counts_probes_witness :
  forallb (fun e => negb (is_ResetStats e)) timeout_run = true
  /\ exists w,
       run timeout_run (boot (config_with_batchSize 1) None t0) = Some w
       /\ activeConnections (st (this w)) = connections (tasks w).
Proof.
  assert (H1 : forallb (fun e => negb (is_ResetStats e)) timeout_run = true)
    by reflexivity.
  assert (H : run timeout_run (boot (config_with_batchSize 1) None t0)
              = Some (default (boot main_config None 0)
                        (run timeout_run
                           (boot (config_with_batchSize 1) None t0))))
    by (vm_compute; reflexivity).
  split; [exact H1|].
  eexists. split; [exact H|].
  exact (proj1 (activeConnections_counts_probes _ _ _ _ _ H1 H)).
Defined.

Lemma same_control_trans s1 s2 s3 :
  same_control s1 s2 -> same_control s2 s3 -> same_control s1 s3.
Proof. unfold same_control. intros (-> & -> & -> & ->) H. exact H. Qed.

Lemma check_start_control now a retryCount s :
  same_control s (check_start now a retryCount s).1.
Proof.
  unfold check_start.
  destruct (maxRetries (cfg s) <=? retryCount); [|destruct (isRateLimited s now a)];
    repeat split.
Qed.

Lemma check_catch_control now a retryCount s :
  same_control s (check_catch now a retryCount s).1.
Proof.
  unfold check_catch.
  destruct (retryCount <? maxRetries (cfg (incr_connectionErrors s))); repeat split.
Qed.

Lemma performMaintenance_control now gc s :
  same_control s (performMaintenance now gc s).
Proof.
  unfold performMaintenance. destruct gc; cbn zeta; case_match; repeat split.
Qed.

Lemma performScanBatch_loop_control n now : forall rnd s spawned s' spawned',
  performScanBatch_loop n now rnd s spawned = Some (s', spawned') ->
  same_control s s'
  /\ totalScanned (st s') <= totalScanned (st s) + Z.of_nat n.
Proof.
  induction n as [|n IH]; intros rnd s spawned s' spawned';
    cbn [performScanBatch_loop].
  - intros [= <- <-]. split; [repeat split | lia].
  - destruct (activeConnections (st s) <? maxConcurrent (cfg s));
      [|intros [= <- <-]; split; [repeat split | lia]].
    destruct (generateSmartIP s rnd) as [[a rnd']|]; [|discriminate].
    destruct (bool_decide (ip_string a ∈ serverCache s)).
    + intros H. destruct (IH _ _ _ _ _ H) as [H1 H2]. split; [exact H1 | lia].
    + pose proof (scan_start_stats now a s) as Hstats. cbn zeta in Hstats.
      unfold scan_start in *.
      pose proof (check_start_control now a 0 (incr_totalScanned s)) as Hc.
      destruct (check_start now a 0 (incr_totalScanned s)) as [s1 t].
      cbn [fst] in Hc, Hstats. destruct Hstats as (Hscanned & _).
      intros H. destruct (IH _ _ _ _ _ H) as [H1 H2]. split.
      * apply (same_control_trans s s1 s'); [exact Hc | exact H1].
      * lia.
Qed.

(** How one step moves the control flags and the configuration. *)
Lemma step_control e w w' :
  step e w = Some w' ->
  cfg (this w') = cfg (this w)
  /\ match e with
     | Pause =>
         isPaused (this w') = true /\ shouldStop (this w') = shouldStop (this w)
     | Resume =>
         isPaused (this w') = false /\ shouldStop (this w') = shouldStop (this w)
     | Stop =>
         isPaused (this w') = isPaused (this w) /\ shouldStop (this w') = true
     | Batch _ =>
         may_scan (this w) = true
         /\ isPaused (this w') = isPaused (this w)
         /\ shouldStop (this w') = shouldStop (this w)
         /\ totalScanned (st (this w'))
            <= totalScanned (st (this w)) + Z.max 0 (batchSize (cfg (this w)))
     | _ =>
         isPaused (this w') = isPaused (this w)
         /\ shouldStop (this w') = shouldStop (this w)
     end.
Proof.
  intros H.
  assert (Hsame : forall s', same_control (this w) s' ->
            cfg s' = cfg (this w)
            /\ isPaused s' = isPaused (this w)
            /\ shouldStop s' = shouldStop (this w)).
  { intros s' (H1 & _ & H2 & H3). auto. }
  destruct e; unfold step, continue, update_this in H.
  all: try (destruct (tasks w !! i) as [t|] eqn:Hi; [|discriminate];
            destruct t; try discriminate).
  - destruct (0 <=? dt); [|discriminate]. injection H as <-.
    apply Hsame. repeat split.
  - destruct (may_scan (this w) && bool_decide (tasks w = [])) eqn:Hguard;
      [|discriminate].
    apply andb_true_iff in Hguard as [Hguard _].
    destruct (performScanBatch (clock w) rnd (this w)) as [[s' spawned]|] eqn:Hb;
      [|discriminate].
    injection H as <-. cbn [this].
    destruct (performScanBatch_loop_control _ _ _ _ _ _ _ Hb) as [H1 H2].
    destruct (Hsame s' H1) as (Hc & Hp & Hs).
    repeat split; try assumption. lia.
  - destruct (wake <=? clock w); [|discriminate]. injection H as <-.
    apply Hsame. repeat split.
  - destruct timer; [|discriminate].
    destruct (startTime0 + timeout (cfg (this w)) <=? clock w); [|discriminate].
    injection H as <-. apply Hsame. repeat split.
  - destruct result as [serverInfo|].
    + destruct (truthy serverInfo).
      * destruct (enhance_literal (cfg (this w)) (clock w) a serverInfo
                    (clock w - startTime0)) as [enhanced| |]; [| |discriminate].
        -- destruct (enableGeolocation (cfg (this w))); injection H as <-;
             apply Hsame; repeat split.
        -- injection H as <-. apply Hsame, check_catch_control.
      * injection H as <-. apply Hsame. repeat split.
    + injection H as <-. apply Hsame, check_catch_control.
  - injection H as <-. apply Hsame. repeat split.
  - destruct (wake <=? clock w); [|discriminate].
    pose proof (check_start_control (clock w) a (retryCount + 1) (this w)) as Hc.
    destruct (check_start (clock w) a (retryCount + 1) (this w)) as [s' t].
    injection H as <-. apply Hsame.
    apply (same_control_trans _ s'); [exact Hc | repeat split].
  - destruct ok; [destruct (exportJson (cfg (this w)))|]; injection H as <-;
      apply Hsame; repeat split.
  - destruct ok; injection H as <-; apply Hsame; repeat split.
  - destruct ok; injection H as <-; apply Hsame; repeat split.
  - injection H as <-. apply Hsame. repeat split.
  - injection H as <-. apply Hsame. repeat split.
  - injection H as <-. apply Hsame. repeat split.
  - injection H as <-. apply Hsame, performMaintenance_control.
  - injection H as <-. apply Hsame. repeat split.
  - injection H as <-. repeat split.
  - injection H as <-. repeat split.
  - injection H as <-. repeat split.
Qed.

Lemma may_scan_flags s :
  may_scan s = true -> shouldStop s = false /\ isPaused s = false.
Proof.
  unfold may_scan. rewrite !andb_true_iff, !negb_true_iff. tauto.
Qed.

(** X21. Stopping is final and pausing holds: from a state in which
    [shouldStop] is set, no run dispatches another batch and [shouldStop]
    stays set; from a paused state, no run without a resume dispatches a
    batch. Probes already in flight go on, retries included. *)
Theorem no_batch_once_stopped (evs : list event) (w w' : world) :
  run evs w = Some w' ->
  (shouldStop (this w) = true ->
   shouldStop (this w') = true
   /\ forallb (fun e => negb (is_Batch e)) evs = true)
  /\ (isPaused (this w) = true ->
      forallb (fun e => negb (is_Resume e)) evs = true ->
      isPaused (this w') = true
      /\ forallb (fun e => negb (is_Batch e)) evs = true).
Proof.
  revert w. induction evs as [|e evs IH]; intros w; cbn [run].
  - intros [= <-]. split; auto.
  - destruct (step e w) as [w1|] eqn:Hstep; [|discriminate].
    intros Hrun. destruct (IH w1 Hrun) as [IHstop IHpause].
    pose proof (step_control e w w1 Hstep) as [_ Hflags].
    split.
    + intros Hstop. cbn [forallb].
      assert (Hstop1 : shouldStop (this w1) = true /\ is_Batch e = false).
      { destruct e; cbn [is_Batch]; try (split; [|reflexivity]);
          try (destruct Hflags as [_ ->]; exact Hstop);
          try (destruct Hflags as [_ Hs]; exact Hs).
        destruct Hflags as [Hmay _]. apply may_scan_flags in Hmay as [Hs _].
        congruence. }
      destruct Hstop1 as [Hstop1 ->]. destruct (IHstop Hstop1). auto.
    + intros Hpaused Hres. cbn [forallb] in *.
      apply andb_true_iff in Hres as [Hres1 Hres].
      assert (Hpaused1 : isPaused (this w1) = true /\ is_Batch e = false).
      { destruct e; cbn [is_Batch is_Resume negb] in *; try discriminate Hres1;
          try (split; [|reflexivity]);
          try (destruct Hflags as [-> _]; exact Hpaused);
          try (destruct Hflags as [Hp _]; exact Hp).
        destruct Hflags as [Hmay _]. apply may_scan_flags in Hmay as [_ Hp].
        congruence. }
      destruct Hpaused1 as [Hpaused1 ->]. destruct (IHpause Hpaused1 Hres). auto.
Qed.

Lemma no_batch_once_stopped_witness :
  exists w',
    run [Stop; Tick 10; UpdateStatistics] (boot main_config None t0) = Some w'
    /\ shouldStop (this w') = true
    /\ run [Stop; Tick 10; Batch tape_popular_8_8_8_8] (boot main_config None t0)
       = None.
Proof.
  assert (H : run [Stop; Tick 10; UpdateStatistics] (boot main_config None t0)
              = Some (default (boot main_config None 0)
                        (run [Stop; Tick 10; UpdateStatistics]
                           (boot main_config None t0))))
    by (vm_compute; reflexivity).
  assert (Hstop : run [Stop] (boot main_config None t0)
                  = Some (default (boot main_config None 0)
                            (run [Stop] (boot main_config None t0))))
    by (vm_compute; reflexivity).
  eexists. split; [exact H|]. split; [|vm_compute; reflexivity].
  assert (Hflag : shouldStop (this (default (boot main_config None 0)
                     (run [Stop] (boot main_config None t0)))) = true)
    by reflexivity.
  assert (Hrest : run [Tick 10; UpdateStatistics]
                    (default (boot main_config None 0)
                       (run [Stop] (boot main_config None t0)))
                  = Some (default (boot main_config None 0)
                            (run [Stop; Tick 10; UpdateStatistics]
                               (boot main_config None t0))))
    by (vm_compute; reflexivity).
  exact (proj1 (proj1 (no_batch_once_stopped _ _ _ Hrest) Hflag)).
Defined.

(** X22. The scan limit is tested between batches only: with
    [maxScans = m], [totalScanned] can pass [m], but by less than one
    batch, so it never exceeds [m - 1 + batchSize]. *)
Theorem totalScanned_overshoot c d t0 (m : Z) (evs : list event) (w : world) :
  maxScans c = Some m ->
  run evs (boot c d t0) = Some w ->
  totalScanned (st (this w)) <= Z.max 0 (m - 1 + Z.max 0 (batchSize c)).
Proof.
  intros Hm Hrun.
  set (P := fun w : world =>
              cfg (this w) = c
              /\ totalScanned (st (this w)) <= Z.max 0 (m - 1 + Z.max 0 (batchSize c))).
  assert (Hstep : forall e w1 w2, true = true -> P w1 -> step e w1 = Some w2 -> P w2).
  { intros e w1 w2 _ [Hc Hb] Hs.
    pose proof (step_control e w1 w2 Hs) as [Hcfg Hflags].
    pose proof (step_stats e w1 w2 Hs) as Hstats. cbn zeta in Hstats.
    split; [congruence|].
    destruct e; try (destruct Hstats as (-> & _); exact Hb).
    - destruct Hflags as (Hmay & _ & _ & Hle).
      unfold may_scan in Hmay. rewrite Hc, Hm in *.
      rewrite !andb_true_iff in Hmay. destruct Hmay as [[[_ _] Hlt%Z.ltb_lt] _].
      lia.
    - destruct Hstats as (-> & _). lia. }
  assert (Hw : P w).
  { apply (run_invariant P (fun _ => true) Hstep evs (boot c d t0) w);
      [apply forallb_forall; reflexivity | | exact Hrun].
    split; [destruct d as [[lines [sv|]]|]; reflexivity|].
    destruct (boot_stats c d t0) as (-> & _). lia. }
  exact (proj2 Hw).
Qed.

Lemma totalScanned_overshoot_witness :
  maxScans (config_with_maxScans 1 2) = Some 1
  /\ exists w,
       run [Batch (tape_popular_1_1_1_1 ++ tape_popular_8_8_8_8)]
         (boot (config_with_maxScans 1 2) None t0) = Some w
       /\ totalScanned (st (this w)) = 2
       /\ totalScanned (st (this w)) <= Z.max 0 (1 - 1 + Z.max 0 2).
Proof.
  assert (Hm : maxScans (config_with_maxScans 1 2) = Some 1) by reflexivity.
  assert (H : run [Batch (tape_popular_1_1_1_1 ++ tape_popular_8_8_8_8)]
                (boot (config_with_maxScans 1 2) None t0)
              = Some (default (boot main_config None 0)
                        (run [Batch (tape_popular_1_1_1_1 ++ tape_popular_8_8_8_8)]
                           (boot (config_with_maxScans 1 2) None t0))))
    by (vm_compute; reflexivity).
  split; [exact Hm|].
  eexists. split; [exact H|]. split; [vm_compute; reflexivity|].
  exact (totalScanned_overshoot _ _ _ _ _ _ Hm H).
Defined.

(** * Further properties of a scan *)

Lemma extractCountry_id loc : extractCountry loc = loc.
Proof. unfold extractCountry. destruct (decide (loc = str "Unknown")); congruence. Qed.

Lemma enhance_literal_fields c now a rawInfo rt enhanced :
  enhance_literal c now a rawInfo rt = Ok enhanced ->
  ip enhanced = a /\ info_port enhanced = port c /\ timestamp enhanced = now
  /\ responseTime enhanced = rt /\ extractMOTD rawInfo = Ok (motd enhanced)
  /\ location enhanced = None /\ country enhanced = str "Unknown".
Proof.
  unfold enhance_literal. intros H.
  destruct (extractMOTD rawInfo) as [m| |] eqn:Hm.
  - repeat match type of H with
           | (mbind _ ?o) = _ => destruct o; cbn [mbind outcome_bind] in H;
                                 try discriminate H
           | (match ?v with VStr _ => _ | _ => _ end) = _ =>
               destruct v; cbn [mbind outcome_bind] in H; try discriminate H
           end.
    injection H as <-. repeat split.
  - exfalso.
    repeat match type of H with
           | (mbind _ ?o) = _ => destruct o; cbn [mbind outcome_bind] in H;
                                 try discriminate H
           | (match ?v with VStr _ => _ | _ => _ end) = _ =>
               destruct v; cbn [mbind outcome_bind] in H; try discriminate H
           end.
  - exfalso.
    repeat match type of H with
           | (mbind _ ?o) = _ => destruct o; cbn [mbind outcome_bind] in H;
                                 try discriminate H
           | (match ?v with VStr _ => _ | _ => _ end) = _ =>
               destruct v; cbn [mbind outcome_bind] in H; try discriminate H
           end.
Qed.

(** X23. A record that [enhanceServerInfo] returns carries the address
    probed, the configured port, the clock reading and the response time
    it was given; its MOTD is the one [extractMOTD] computes; its quality
    score is the score of the record itself; and its country is its
    location, [extractCountry] being the identity. *)
Theorem enhanceServerInfo_record
    (c : config) (now : Z) (a : address) (rawInfo : value) (rt : Z)
    (loc : jsstring) (info : serverInfo) :
  enhanceServerInfo c now a rawInfo rt loc = Ok info ->
  ip info = a /\ info_port info = port c /\ timestamp info = now
  /\ responseTime info = rt
  /\ extractMOTD rawInfo = Ok (motd info)
  /\ qualityScore info = calculateQualityScore info
  /\ (if enableGeolocation c
      then location info = Some loc /\ country info = loc
      else location info = None /\ country info = str "Unknown").
Proof.
  unfold enhanceServerInfo. intros H.
  destruct (enhance_literal c now a rawInfo rt) as [enhanced| |] eqn:Hlit;
    cbn [mbind outcome_bind] in H; try discriminate H.
  injection H as <-.
  destruct (enhance_literal_fields _ _ _ _ _ _ Hlit)
    as (Hip & Hport & Htime & Hrt & Hmotd & Hloc & Hcountry).
  destruct (enableGeolocation c); cbn;
    rewrite ?extractCountry_id; repeat split; assumption.
Qed.

Lemma enhanceServerInfo_record_witness :
  exists info,
    enhanceServerInfo main_config t0 (203, 0, 113, 17) welcome_status 150
      (str "Germany") = Ok info
    /\ ip info = (203, 0, 113, 17) /\ country info = str "Germany"
    /\ qualityScore info = calculateQualityScore info.
Proof.
  assert (H : enhanceServerInfo main_config t0 (203, 0, 113, 17) welcome_status
                150 (str "Germany")
              = Ok (match enhanceServerInfo main_config t0 (203, 0, 113, 17)
                            welcome_status 150 (str "Germany") with
                    | Ok info => info
                    | _ => sample_info (0, 0, 0, 0) [] 0 [] 0
                    end)) by (vm_compute; reflexivity).
  eexists. split; [exact H|].
  pose proof (enhanceServerInfo_record _ _ _ _ _ _ _ H)
    as (Hip & _ & _ & _ & _ & Hq & _ & Hc).
  repeat split; assumption.
Defined.

Lemma performScanBatch_loop_unseen n now : forall rnd s spawned s' spawned',
  (forall t a, t ∈ spawned -> a ∈ task_addresses t ->
     ip_string a ∉ serverCache s) ->
  performScanBatch_loop n now rnd s spawned = Some (s', spawned') ->
  serverCache s' = serverCache s
  /\ (forall t a, t ∈ spawned' -> a ∈ task_addresses t ->
        ip_string a ∉ serverCache s).
Proof.
  induction n as [|n IH]; intros rnd s spawned s' spawned' Hsp;
    cbn [performScanBatch_loop].
  - intros [= <- <-]. auto.
  - destruct (activeConnections (st s) <? maxConcurrent (cfg s));
      [|intros [= <- <-]; auto].
    destruct (generateSmartIP s rnd) as [[a rnd']|]; [|discriminate].
    case_bool_decide as Hseen; [apply IH; exact Hsp|].
    unfold scan_start.
    assert (Hcache : serverCache (check_start now a 0 (incr_totalScanned s)).1
                     = serverCache s).
    { unfold check_start. repeat case_match; reflexivity. }
    assert (Htask : forall t, (check_start now a 0 (incr_totalScanned s)).2 = Some t ->
                      task_addresses t = [a]).
    { unfold check_start. repeat case_match; cbn; intros t [= <-]; reflexivity. }
    destruct (check_start now a 0 (incr_totalScanned s)) as [s1 t].
    cbn [fst snd] in Hcache, Htask.
    intros H. apply IH in H.
    + rewrite Hcache in H. exact H.
    + rewrite Hcache. intros u b [Hu|Hu]%elem_of_app; [exact (Hsp u b Hu)|].
      destruct t as [t|]; cbn in Hu; [|inversion Hu].
      apply list_elem_of_singleton in Hu as ->.
      rewrite (Htask t eq_refl). intros ->%list_elem_of_singleton. exact Hseen.
Qed.

(** With a retry budget, every scan that a batch counts is a scan that it
    starts. *)
Lemma performScanBatch_loop_counts n now : forall rnd s spawned s' spawned',
  0 < maxRetries (cfg s) ->
  performScanBatch_loop n now rnd s spawned = Some (s', spawned') ->
  totalScanned (st s') - totalScanned (st s)
  = Z.of_nat (length spawned') - Z.of_nat (length spawned).
Proof.
  induction n as [|n IH]; intros rnd s spawned s' spawned' Hmax;
    cbn [performScanBatch_loop].
  - intros [= <- <-]. lia.
  - destruct (activeConnections (st s) <? maxConcurrent (cfg s));
      [|intros [= <- <-]; lia].
    destruct (generateSmartIP s rnd) as [[a rnd']|]; [|discriminate].
    destruct (bool_decide (ip_string a ∈ serverCache s)); [apply IH; exact Hmax|].
    pose proof (scan_start_stats now a s) as Hstats. cbn zeta in Hstats.
    unfold scan_start in *.
    pose proof (check_start_control now a 0 (incr_totalScanned s)) as (Hcfg & _).
    assert (Htask : exists t, (check_start now a 0 (incr_totalScanned s)).2 = Some t).
    { unfold check_start.
      destruct (Z.leb_spec (maxRetries (cfg (incr_totalScanned s))) 0) as [Hle|_];
        [cbn in Hle; lia|].
      destruct (isRateLimited (incr_totalScanned s) now a); eexists; reflexivity. }
    destruct (check_start now a 0 (incr_totalScanned s)) as [s1 t].
    cbn [fst snd] in Hcfg, Hstats, Htask. destruct Htask as [t' ->].
    destruct Hstats as (Hscanned & _).
    intros H. apply IH in H; [|rewrite Hcfg; exact Hmax].
    rewrite length_app in H. change (length (option_list (Some t'))) with 1%nat in H.
    lia.
Qed.

(** X24. A batch never starts a scan of an address whose string is in the
    seen-set, whichever strategy drew it, and such a candidate is skipped
    without being counted: with a retry budget, [totalScanned] grows by
    exactly the number of scans started, which is at most [batchSize]. The
    seen-set is left as it was. *)
Theorem performScanBatch_skips_seen
    (now : Z) (rnd : tape) (s s' : scanner) (spawned : list task) :
  performScanBatch now rnd s = Some (s', spawned) ->
  serverCache s' = serverCache s
  /\ (forall t a, t ∈ spawned -> a ∈ task_addresses t ->
        ip_string a ∉ serverCache s)
  /\ Z.of_nat (length spawned) <= totalScanned (st s') - totalScanned (st s)
  /\ totalScanned (st s') - totalScanned (st s) <= Z.max 0 (batchSize (cfg s))
  /\ (0 < maxRetries (cfg s) ->
      totalScanned (st s') - totalScanned (st s) = Z.of_nat (length spawned)).
Proof.
  unfold performScanBatch. intros H.
  assert (Hnil : forall (t : task) (a : address),
            t ∈ @nil task -> a ∈ task_addresses t ->
            ip_string a ∉ serverCache s).
  { intros t a Ht. inversion Ht. }
  destruct (performScanBatch_loop_unseen _ _ _ _ _ _ _ Hnil H)
    as [Hcache Hunseen].
  destruct (performScanBatch_loop_control _ _ _ _ _ _ _ H) as [_ Hupper].
  pose proof (performScanBatch_loop_stats _ _ _ _ _ _ _ H) as Hlower.
  cbn zeta in Hlower. destruct Hlower as (Hlower & _).
  cbn [length] in Hlower.
  split; [exact Hcache|]. split; [exact Hunseen|]. split; [lia|]. split; [lia|].
  intros Hmax.
  pose proof (performScanBatch_loop_counts _ _ _ _ _ _ _ Hmax H) as Hcount.
  cbn [length] in Hcount. lia.
Qed.

Lemma performScanBatch_skips_seen_witness :
  let s := with_serverCache [str "1.1.1.1"]
             (constructor (config_with_batchSize 2)) in
  exists s' spawned,
    performScanBatch t0 (tape_popular_1_1_1_1 ++ tape_popular_8_8_8_8) s
    = Some (s', spawned)
    /\ spawned = [AwaitPing (8, 8, 8, 8) 0 t0 true]
    /\ totalScanned (st s') = 1
    /\ serverCache s' = serverCache s.
Proof.
  cbn zeta.
  assert (H : performScanBatch t0 (tape_popular_1_1_1_1 ++ tape_popular_8_8_8_8)
                (with_serverCache [str "1.1.1.1"]
                   (constructor (config_with_batchSize 2)))
              = Some (default (constructor main_config, [])
                        (performScanBatch t0
                           (tape_popular_1_1_1_1 ++ tape_popular_8_8_8_8)
                           (with_serverCache [str "1.1.1.1"]
                              (constructor (config_with_batchSize 2))))))
    by (vm_compute; reflexivity).
  eexists _, _. split; [rewrite H; reflexivity|].
  split; [vm_compute; reflexivity|]. split; [vm_compute; reflexivity|].
  exact (proj1 (performScanBatch_skips_seen _ _ _ _ _
                  (eq_trans H (f_equal Some (surjective_pairing _))))).
Defined.

Lemma delete_insert_same {A} (l : list A) (i : nat) (x : A) :
  delete i (<[i := x]> l) = delete i l.
Proof.
  revert i. induction l as [|y l IH]; intros [|i]; try reflexivity.
  change (<[S i := x]> (y :: l)) with (y :: <[i := x]> l).
  change (delete (S i) (y :: <[i := x]> l)) with (y :: delete i (<[i := x]> l)).
  change (delete (S i) (y :: l)) with (y :: delete i l).
  f_equal. apply IH.
Qed.

(** X25. A failed write does not stop a server from being counted: when
    appending to the catalog fails, or, with the JSON export on, when
    writing the JSON file fails after the line was appended, [saveServer]
    swallows the error and [totalFound] still goes up by one, but the
    address does not enter the seen-set and no tally, last or best server
    is updated, so the same server can be found and counted again. *)
Theorem failed_save_counts_as_found (w : world) (i : nat) (info : serverInfo) :
  tasks w !! i = Some (AwaitAppend info) ->
  forall evs,
    evs = [AppendDone i false; SaveDone i]
    \/ (exportJson (cfg (this w)) = true
        /\ (evs = [AppendDone i true; LoadJSONDone i true; WriteJSONDone i false;
                   SaveDone i]
            \/ evs = [AppendDone i true; LoadJSONDone i false; SaveDone i])) ->
    exists w',
      run evs w = Some w'
      /\ this w' = incr_totalFound (this w)
      /\ totalFound (st (this w')) = totalFound (st (this w)) + 1
      /\ serverCache (this w') = serverCache (this w)
      /\ tasks w' = delete i (tasks w).
Proof.
  intros Hi evs Hevs.
  assert (Hnext : forall (t : task) (ts : list task), ts !! i = Some t ->
            forall t' : task, <[i := t']> ts !! i = Some t').
  { intros t ts Ht t'. apply list_lookup_insert_eq.
    apply lookup_lt_Some in Ht. exact Ht. }
  exists {| this := incr_totalFound (this w); clock := clock w;
            tasks := delete i (tasks w) |}.
  split; [|split; [reflexivity|split; [cbn; lia|split; reflexivity]]].
  destruct Hevs as [-> | [Hjson [-> | ->]]].
  - cbn [run step]. rewrite Hi. cbn [continue settle fst snd tasks this clock].
    rewrite (Hnext _ _ Hi). cbn [run continue settle fst snd tasks this clock].
    rewrite delete_insert_same. reflexivity.
  - cbn [run step]. rewrite Hi, Hjson.
    cbn [continue settle fst snd tasks this clock].
    rewrite (Hnext _ _ Hi). cbn [run continue settle fst snd tasks this clock].
    rewrite list_insert_insert_eq, (Hnext _ _ Hi). cbn [run continue settle fst snd tasks this clock].
    rewrite list_insert_insert_eq, (Hnext _ _ Hi). cbn [run continue settle fst snd tasks this clock].
    rewrite delete_insert_same. reflexivity.
  - cbn [run step]. rewrite Hi, Hjson.
    cbn [continue settle fst snd tasks this clock].
    rewrite (Hnext _ _ Hi). cbn [run continue settle fst snd tasks this clock].
    rewrite list_insert_insert_eq, (Hnext _ _ Hi). cbn [run continue settle fst snd tasks this clock].
    rewrite delete_insert_same. reflexivity.
Qed.

Lemma failed_save_counts_as_found_witness :
  let info := sample_info (8, 8, 8, 8) (str "1.20.4") 25 (str "Welcome") 55 in
  let w := {| this := constructor main_config; clock := t0;
              tasks := [AwaitAppend info] |} in
  tasks w !! 0%nat = Some (AwaitAppend info)
  /\ exists w',
       run [AppendDone 0 false; SaveDone 0] w = Some w'
       /\ totalFound (st (this w')) = 1
       /\ serverCache (this w') = []
       /\ tasks w' = [].
Proof.
  cbn zeta.
  assert (H : tasks {| this := constructor main_config; clock := t0;
                       tasks := [AwaitAppend (sample_info (8, 8, 8, 8)
                                   (str "1.20.4") 25 (str "Welcome") 55)] |}
              !! 0%nat
              = Some (AwaitAppend (sample_info (8, 8, 8, 8) (str "1.20.4") 25
                                     (str "Welcome") 55))) by reflexivity.
  split; [exact H|].
  destruct (failed_save_counts_as_found _ _ _ H [AppendDone 0 false; SaveDone 0]
              (or_introl eq_refl)) as (w' & Hrun & _ & Hfound & Hcache & Htasks).
  exists w'. split; [exact Hrun|]. split; [exact Hfound|].
  split; [exact Hcache | exact Htasks].
Defined.

(** * The excluded ranges and [isPublicIP] *)

Ltac eqb_cases :=
  repeat match goal with
         | |- context [?x =? ?y] => destruct (Z.eqb_spec x y)
         | |- context [?x <=? ?y] => destruct (Z.leb_spec x y)
         end;
  try reflexivity; exfalso; Z.div_mod_to_equations; lia.

(** X26. The six checks written out in [isPublicIP] reject exactly the
    addresses of the seven default blocks of [getExcludedRanges]: a valid
    address is public if and only if it lies in none of them. (The option
    [excludeRanges] itself is never read.) *)
Theorem isPublicIP_excluded_ranges (a : address) :
  isValidIP a = true ->
  isPublicIP a = negb (existsb (in_cidr a) getExcludedRanges).
Proof.
  destruct a as [[[p0 p1] p2] p3]. intros Hv.
  unfold isPublicIP. rewrite Hv. cbn [negb]. f_equal.
  cbn [existsb getExcludedRanges in_cidr].
  rewrite (ipToNumber_spec p0 p1 p2 p3 Hv).
  apply isValidIP_octets in Hv.
  change (2 ^ 24) with 16777216. change (2 ^ 16) with 65536.
  change (2 ^ 8) with 256.
  remember (p0 * 16777216 + p1 * 65536 + p2 * 256 + p3) as n eqn:Hn.
  replace (ipToNumber (10, 0, 0, 0) / 2 ^ (32 - 8)) with 10
    by (vm_compute; reflexivity).
  replace (ipToNumber (172, 16, 0, 0) / 2 ^ (32 - 12)) with 2753
    by (vm_compute; reflexivity).
  replace (ipToNumber (192, 168, 0, 0) / 2 ^ (32 - 16)) with 49320
    by (vm_compute; reflexivity).
  replace (ipToNumber (127, 0, 0, 0) / 2 ^ (32 - 8)) with 127
    by (vm_compute; reflexivity).
  replace (ipToNumber (169, 254, 0, 0) / 2 ^ (32 - 16)) with 43518
    by (vm_compute; reflexivity).
  replace (ipToNumber (224, 0, 0, 0) / 2 ^ (32 - 4)) with 14
    by (vm_compute; reflexivity).
  replace (ipToNumber (240, 0, 0, 0) / 2 ^ (32 - 4)) with 15
    by (vm_compute; reflexivity).
  change (2 ^ (32 - 8)) with 16777216. change (2 ^ (32 - 12)) with 1048576.
  change (2 ^ (32 - 16)) with 65536. change (2 ^ (32 - 4)) with 268435456.
  assert (H10 : (n / 16777216 =? 10) = (p0 =? 10)) by (clear - Hv Hn; eqb_cases).
  assert (H172 : (n / 1048576 =? 2753)
                 = (p0 =? 172) && (16 <=? p1) && (p1 <=? 31)) by (clear - Hv Hn; eqb_cases).
  assert (H192 : (n / 65536 =? 49320) = (p0 =? 192) && (p1 =? 168)) by (clear - Hv Hn; eqb_cases).
  assert (H127 : (n / 16777216 =? 127) = (p0 =? 127)) by (clear - Hv Hn; eqb_cases).
  assert (H169 : (n / 65536 =? 43518) = (p0 =? 169) && (p1 =? 254)) by (clear - Hv Hn; eqb_cases).
  assert (H224 : (n / 268435456 =? 14) || (n / 268435456 =? 15) = (224 <=? p0)).
  { clear - Hv Hn.
    assert (Hq : n / 268435456 = p0 / 16)
      by (rewrite Hn; Z.div_mod_to_equations; lia).
    rewrite Hq.
    destruct (Z.eqb_spec (p0 / 16) 14), (Z.eqb_spec (p0 / 16) 15),
      (Z.leb_spec 224 p0);
      try reflexivity; exfalso; Z.div_mod_to_equations; lia. }
  rewrite H10, H172, H192, H127, H169, orb_false_r, H224.
  rewrite !orb_assoc. reflexivity.
Qed.

Lemma isPublicIP_excluded_ranges_witness :
  isValidIP (172, 20, 1, 1) = true
  /\ isPublicIP (172, 20, 1, 1) = false
  /\ existsb (in_cidr (172, 20, 1, 1)) getExcludedRanges = true.
Proof.
  assert (H : isValidIP (172, 20, 1, 1) = true) by reflexivity.
  split; [exact H|]. split; [reflexivity|].
  apply negb_false_iff. rewrite <- (isPublicIP_excluded_ranges _ H). reflexivity.
Defined.

(** * The connection counter and [resetStats] *)

(** X27. [resetStats] sets [activeConnections] to 0 while the probes in
    flight still hold their slots: when, after a reset, a probe that was
    waiting for its answer returns (here with no server), its [finally]
    block decrements the counter to -1. *)
Theorem resetStats_unbalances_activeConnections
    (w : world) (i : nat) (a : address) (retryCount startTime : Z) (timer : bool) :
  tasks w !! i = Some (AwaitPing a retryCount startTime timer) ->
  exists w',
    run [ResetStats; PingDone i failed_probe] w = Some w'
    /\ activeConnections (st (this w')) = -1
    /\ tasks w' = delete i (tasks w).
Proof.
  intros Hi.
  eexists. split.
  - cbn [run step update_this tasks this clock]. rewrite Hi.
    cbn [failed_probe truthy continue check_return fmap option_fmap option_map
         settle fst snd tasks this clock].
    reflexivity.
  - split; reflexivity.
Qed.

Lemma resetStats_unbalances_activeConnections_witness :
  let w := {| this := incr_activeConnections (constructor main_config);
              clock := t0;
              tasks := [AwaitPing (8, 8, 8, 8) 0 t0 true] |} in
  tasks w !! 0%nat = Some (AwaitPing (8, 8, 8, 8) 0 t0 true)
  /\ activeConnections (st (this w)) = 1
  /\ exists w',
       run [ResetStats; PingDone 0 failed_probe] w = Some w'
       /\ activeConnections (st (this w')) = -1.
Proof.
  cbn zeta.
  assert (H : tasks {| this := incr_activeConnections (constructor main_config);
                       clock := t0;
                       tasks := [AwaitPing (8, 8, 8, 8) 0 t0 true] |} !! 0%nat
              = Some (AwaitPing (8, 8, 8, 8) 0 t0 true)) by reflexivity.
  split; [exact H|]. split; [reflexivity|].
  destruct (resetStats_unbalances_activeConnections _ _ _ _ _ _ H)
    as (w' & Hrun & Hneg & _).
  exists w'. split; assumption.
Defined.

(** * The strings of addresses *)

Lemma split_on_no_sep sep (d : jsstring) :
  sep ∉ d -> split_on sep d = [d].
Proof.
  induction d as [|c d IH]; [reflexivity|].
  intros Hd. apply not_elem_of_cons in Hd as [Hc Hd].
  cbn [split_on]. destruct (N.eqb_spec c sep) as [->|_]; [congruence|].
  rewrite IH by exact Hd. reflexivity.
Qed.

Lemma split_on_app sep (d rest : jsstring) :
  sep ∉ d -> split_on sep (d ++ sep :: rest) = d :: split_on sep rest.
Proof.
  induction d as [|c d IH]; intros Hd.
  - cbn [app split_on]. rewrite N.eqb_refl. reflexivity.
  - apply not_elem_of_cons in Hd as [Hc Hd].
    cbn [app split_on]. destruct (N.eqb_spec c sep) as [->|_]; [congruence|].
    rewrite IH by exact Hd. reflexivity.
Qed.

(** The decimal string of an octet: one to three digits, no dot, and
    [parseInt] reads the octet back. *)
Lemma decimal_octet n :
  0 <= n <= 255 ->
  digit_group (decimal n) = true /\ parseInt (decimal n) = n
  /\ (46%N ∉ decimal n).
Proof.
  intros Hn.
  assert (Hall : forallb (fun k : nat =>
                    digit_group (decimal (Z.of_nat k))
                    && (parseInt (decimal (Z.of_nat k)) =? Z.of_nat k)
                    && negb (existsb (N.eqb 46) (decimal (Z.of_nat k))))
                   (seq 0 256) = true) by (vm_compute; reflexivity).
  rewrite forallb_forall in Hall.
  specialize (Hall (Z.to_nat n)).
  rewrite Z2Nat.id in Hall by lia.
  destruct (andb_prop _ _ (Hall ltac:(apply in_seq; lia))) as [H12 H3].
  apply andb_prop in H12 as [H1 H2].
  split; [exact H1|]. split; [apply Z.eqb_eq, H2|].
  intros Hin. apply negb_true_iff in H3.
  assert (existsb (N.eqb 46) (decimal n) = true); [|congruence].
  apply existsb_exists. exists 46%N. split; [|apply N.eqb_refl].
  apply list_elem_of_In. exact Hin.
Qed.

Lemma split_ip_string p0 p1 p2 p3 :
  isValidIP (p0, p1, p2, p3) = true ->
  split_on 46 (ip_string (p0, p1, p2, p3))
  = [decimal p0; decimal p1; decimal p2; decimal p3].
Proof.
  intros Hv%isValidIP_octets. destruct Hv as (H0 & H1 & H2 & H3).
  destruct (decimal_octet p0 H0) as (_ & _ & Hd0).
  destruct (decimal_octet p1 H1) as (_ & _ & Hd1).
  destruct (decimal_octet p2 H2) as (_ & _ & Hd2).
  destruct (decimal_octet p3 H3) as (_ & _ & Hd3).
  unfold ip_string. change (str ".") with [46%N]. cbn [app].
  rewrite !split_on_app by assumption.
  rewrite split_on_no_sep by assumption. reflexivity.
Qed.

(** X28. The string that the scanner builds for a valid address passes
    [isValidIP], splitting it at the dots and reading the groups gives the
    four octets back, and two valid addresses with the same string are the
    same address. *)
Theorem isValidIP_string_ip_string (a : address) :
  isValidIP a = true ->
  isValidIP_string (ip_string a) = true
  /\ (let '(p0, p1, p2, p3) := a in
      map parseInt (split_on 46 (ip_string a)) = [p0; p1; p2; p3])
  /\ (forall b, isValidIP b = true -> ip_string b = ip_string a -> b = a).
Proof.
  assert (Hparse : forall p0 p1 p2 p3,
            isValidIP (p0, p1, p2, p3) = true ->
            map parseInt (split_on 46 (ip_string (p0, p1, p2, p3)))
            = [p0; p1; p2; p3]).
  { intros p0 p1 p2 p3 Hv. rewrite split_ip_string by exact Hv.
    apply isValidIP_octets in Hv. destruct Hv as (H0 & H1 & H2 & H3).
    cbn [map].
    destruct (decimal_octet p0 H0) as (_ & -> & _).
    destruct (decimal_octet p1 H1) as (_ & -> & _).
    destruct (decimal_octet p2 H2) as (_ & -> & _).
    destruct (decimal_octet p3 H3) as (_ & -> & _).
    reflexivity. }
  destruct a as [[[p0 p1] p2] p3]. intros Hv.
  split; [|split].
  - unfold isValidIP_string. rewrite split_ip_string by exact Hv.
    pose proof Hv as Ho. apply isValidIP_octets in Ho.
    destruct Ho as (H0 & H1 & H2 & H3).
    destruct (decimal_octet p0 H0) as (G0 & E0 & _).
    destruct (decimal_octet p1 H1) as (G1 & E1 & _).
    destruct (decimal_octet p2 H2) as (G2 & E2 & _).
    destruct (decimal_octet p3 H3) as (G3 & E3 & _).
    cbn [length forallb Nat.eqb]. cbv beta zeta.
    rewrite G0, G1, G2, G3, E0, E1, E2, E3.
    cbn [andb negb].
    destruct (Z.leb_spec 0 p0), (Z.leb_spec p0 255), (Z.leb_spec 0 p1),
      (Z.leb_spec p1 255), (Z.leb_spec 0 p2), (Z.leb_spec p2 255),
      (Z.leb_spec 0 p3), (Z.leb_spec p3 255); (reflexivity || lia).
  - apply Hparse. exact Hv.
  - intros [[[q0 q1] q2] q3] Hb Heq.
    pose proof (Hparse q0 q1 q2 q3 Hb) as Hq. rewrite Heq in Hq.
    rewrite (Hparse p0 p1 p2 p3 Hv) in Hq. congruence.
Qed.

Lemma isValidIP_string_ip_string_witness :
  isValidIP (208, 67, 222, 1) = true
  /\ ip_string (208, 67, 222, 1) = str "208.67.222.1"
  /\ isValidIP_string (ip_string (208, 67, 222, 1)) = true.
Proof.
  assert (H : isValidIP (208, 67, 222, 1) = true) by reflexivity.
  split; [exact H|]. split; [vm_compute; reflexivity|].
  exact (proj1 (isValidIP_string_ip_string (208, 67, 222, 1) H)).
Defined.
